(** * nslsii.areadetector.xspress3: a shallow embedding

    The Python module [nslsii/areadetector/xspress3.py] defines the ophyd
    devices of an Xspress3 fluorescence detector: the eV/bin conversion,
    the MCA ROI and channel devices, the memoised class builders, the HDF5
    file-store plugin and the trigger mixin.

    Python integers are [Z]; a method that mutates its object and may raise
    is a function in the state-and-exception monad [M]; what the method does
    to its collaborators (EPICS signals, the logger, the ophyd base classes)
    is appended to a trace of [event]s, so that "which hardware writes
    happened, and in which order" is a statement about a list. *)

From Stdlib Require Import ZArith Lia Ascii String.
From Stdlib Require Import DecimalString DecimalPos DecimalZ SpecFloat.
From stdpp Require Import base list strings gmap.

Open Scope Z_scope.

(** ** Python values, exceptions and effects *)

Module Py.

(** The exceptions the module raises or lets through. *)
Inductive exn :=
| RuntimeError (msg : string)
| ValueError (msg : string)
| IOError (msg : string)
| AttributeError (attr : string)
| StopIteration
| KeyboardInterrupt
| TypeError (msg : string)
| ZeroDivisionError (msg : string)
| OverflowError (msg : string)
| NotImplementedError.

(** The values that are written to signals and stored in [stage_sigs]. *)
Inductive pyval :=
| PInt (z : Z)
| PStr (s : string)
| PBool (b : bool)
| PNone.

#[global] Instance exn_eq_dec : EqDecision exn.
Proof. solve_decision. Defined.

#[global] Instance pyval_eq_dec : EqDecision pyval.
Proof. solve_decision. Defined.

(** The result of a call: it returns a value or raises. *)
Inductive outcome (A : Type) :=
| Returned (a : A)
| Raised (e : exn).
Arguments Returned {A} a.
Arguments Raised {A} e.

(** A method over an object state [S]: the state after the call is
    kept when the call raises, as the mutations performed before a Python
    exception are. *)
Definition M (S A : Type) : Type := S -> outcome A * S.

Definition ret {S A} (a : A) : M S A := fun s => (Returned a, s).
Definition raise {S A} (e : exn) : M S A := fun s => (Raised e, s).
Definition bind {S A B} (m : M S A) (k : A -> M S B) : M S B :=
  fun s => match m s with
           | (Returned a, s') => k a s'
           | (Raised e, s') => (Raised e, s')
           end.
Definition get {S} : M S S := fun s => (Returned s, s).
Definition gets {S A} (f : S -> A) : M S A := fun s => (Returned (f s), s).
Definition modify {S} (f : S -> S) : M S unit := fun s => (Returned tt, f s).

(** [try m except e' if handles e': h e'] *)
Definition try_except {S A} (m : M S A) (handles : exn -> bool) (h : exn -> M S A)
  : M S A :=
  fun s => match m s with
           | (Raised e, s') => if handles e then h e s' else (Raised e, s')
           | r => r
           end.

Definition is_returned {A} (o : outcome A) : bool :=
  match o with Returned _ => true | Raised _ => false end.

(** [f"{z:d}"] and [f"{z}"] for an integer. *)
Definition str_of_int (z : Z) : string := NilEmpty.string_of_int (Z.to_int z).

(** [f"{z:02d}"]: the decimal digits, zero-padded on the left to a minimal
    width of two (a sign counts for the width and stays in front). *)
Definition format_02d (z : Z) : string :=
  let s := str_of_int z in
  if (String.length s <? 2)%nat then String "0"%char s else s.

(** [int(s)] on a string of decimal digits, as far as the module needs it:
    an optional minus sign and at least one digit. *)
Definition int_of_str (s : string) : option Z :=
  match NilEmpty.int_of_string s with
  | None | Some (Decimal.Pos Decimal.Nil) | Some (Decimal.Neg Decimal.Nil) => None
  | Some d => Some (Z.of_int d)
  end.

(** ** [collections.OrderedDict] / insertion-ordered [dict]

    An association list without duplicate keys, oldest insertion first.
    Assigning to a present key keeps its position; assigning to an absent
    key appends; [pop] with a default removes the key when present. *)
Section ODict.
Context {K V : Type} `{EqDecision K}.

Definition odict := list (K * V).

Fixpoint od_get (k : K) (d : odict) : option V :=
  match d with
  | [] => None
  | (k', v) :: d' => if decide (k = k') then Some v else od_get k d'
  end.

Fixpoint od_set (k : K) (v : V) (d : odict) : odict :=
  match d with
  | [] => [(k, v)]
  | (k', v') :: d' =>
      if decide (k = k') then (k', v) :: d' else (k', v') :: od_set k v d'
  end.

Fixpoint od_pop (k : K) (d : odict) : odict :=
  match d with
  | [] => []
  | (k', v') :: d' =>
      if decide (k = k') then d' else (k', v') :: od_pop k d'
  end.

(** Position of a key in iteration order. *)
Fixpoint od_index (k : K) (d : odict) : option nat :=
  match d with
  | [] => None
  | (k', _) :: d' =>
      if decide (k = k') then Some 0%nat else S <$> od_index k d'
  end.

Lemma od_get_set_eq k v d : od_get k (od_set k v d) = Some v.
Proof.
  induction d as [|[k' v'] d IH]; simpl.
  - by rewrite decide_True.
  - destruct (decide (k = k')) as [->|Hne]; simpl.
    + by rewrite decide_True.
    + by rewrite decide_False.
Qed.

Lemma od_get_set_ne k k' v d :
  k ≠ k' -> od_get k (od_set k' v d) = od_get k d.
Proof.
  intros Hne. induction d as [|[k0 v0] d IH]; simpl.
  - by rewrite decide_False.
  - destruct (decide (k' = k0)) as [->|Hne0]; simpl.
    + by rewrite !decide_False.
    + destruct (decide (k = k0)); [done | apply IH].
Qed.

Lemma od_get_pop_ne k k' d :
  k ≠ k' -> od_get k (od_pop k' d) = od_get k d.
Proof.
  intros Hne. induction d as [|[k0 v0] d IH]; simpl; [done|].
  destruct (decide (k' = k0)) as [->|Hne0]; simpl.
  - by rewrite decide_False.
  - destruct (decide (k = k0)); [done | apply IH].
Qed.

Lemma od_index_None k d : od_index k d = None <-> od_get k d = None.
Proof.
  induction d as [|[k0 v0] d IH]; simpl; [done|].
  destruct (decide (k = k0)); [done|].
  rewrite <- IH. destruct (od_index k d); simpl; split; congruence.
Qed.

Lemma od_index_set_absent k v d :
  od_get k d = None -> od_index k (od_set k v d) = Some (length d).
Proof.
  induction d as [|[k0 v0] d IH]; simpl.
  - by rewrite decide_True.
  - destruct (decide (k = k0)) as [->|Hne]; [done|]. intros H.
    simpl. rewrite decide_False by done. by rewrite IH.
Qed.

Lemma od_index_lt k d i : od_index k d = Some i -> (i < length d)%nat.
Proof.
  revert i. induction d as [|[k0 v0] d IH]; simpl; intros i; [done|].
  destruct (decide (k = k0)).
  - intros [= <-]. lia.
  - destruct (od_index k d) as [j|]; simpl; [|done].
    intros [= <-]. specialize (IH j eq_refl). lia.
Qed.

Lemma od_index_set_present k k' v d i :
  od_index k d = Some i -> od_index k (od_set k' v d) = Some i.
Proof.
  revert i. induction d as [|[k0 v0] d IH]; simpl; intros i; [done|].
  destruct (decide (k' = k0)) as [->|Hne0]; simpl.
  - destruct (decide (k = k0)); [done|].
    destruct (od_index k d); simpl; congruence.
  - destruct (decide (k = k0)); [done|].
    destruct (od_index k d) as [j|]; simpl; [|done].
    intros [= <-]. by rewrite (IH j).
Qed.

Lemma od_get_pop_eq k d :
  NoDup d.*1 -> od_get k (od_pop k d) = None.
Proof.
  induction d as [|[k0 v0] d IH]; simpl; [done|].
  intros [Hnotin Hnd]%NoDup_cons.
  destruct (decide (k = k0)) as [->|Hne]; simpl.
  - clear IH. induction d as [|[k1 v1] d IH]; simpl; [done|].
    simpl in Hnotin. apply not_elem_of_cons in Hnotin as [? ?].
    rewrite decide_False by done. apply IH; [done|].
    by apply NoDup_cons in Hnd as [_ ?].
  - rewrite decide_False by done. by apply IH.
Qed.

Lemma od_set_keys_NoDup k v d : NoDup d.*1 -> NoDup (od_set k v d).*1.
Proof.
  induction d as [|[k0 v0] d IH]; simpl.
  - intros _. apply NoDup_singleton.
  - intros [Hnotin Hnd]%NoDup_cons.
    destruct (decide (k = k0)) as [->|Hne]; simpl.
    + by apply NoDup_cons.
    + apply NoDup_cons. split; [|by apply IH].
      intros Hin. apply Hnotin. clear -Hin Hne.
      induction d as [|[k1 v1] d IH]; simpl in *.
      * apply list_elem_of_singleton in Hin. congruence.
      * destruct (decide (k = k1)) as [->|?]; simpl in *; [done|].
        apply elem_of_cons in Hin as [->|Hin]; [left|right; by apply IH].
Qed.

Lemma od_pop_keys_NoDup k d : NoDup d.*1 -> NoDup (od_pop k d).*1.
Proof.
  induction d as [|[k0 v0] d IH]; simpl; [done|].
  intros [Hnotin Hnd]%NoDup_cons.
  destruct (decide (k = k0)) as [->|Hne]; simpl; [done|].
  apply NoDup_cons. split; [|by apply IH].
  intros Hin. apply Hnotin. clear -Hin.
  induction d as [|[k1 v1] d IH]; simpl in *; [done|].
  destruct (decide (k = k1)) as [->|?]; simpl in *; [by right|].
  apply elem_of_cons in Hin as [->|Hin]; [left|right; by apply IH].
Qed.
End ODict.
Arguments odict : clear implicits.

End Py.

Import Py.

#[global] Instance M_ret {S} : MRet (M S) := fun A => @Py.ret S A.
#[global] Instance M_bind {S} : MBind (M S) := fun A B k m => @Py.bind S A B m k.

(** Unfold the monad's operations, leaving the program's own functions. *)
Ltac munfold :=
  unfold mbind, mret, M_bind, M_ret, Py.bind, Py.ret, Py.raise, Py.gets,
    Py.get, Py.modify, Py.try_except.

Lemma run_bind {S A B} (m : M S A) (k : A -> M S B) (s : S) :
  (m ≫= k) s = match m s with
               | (Returned a, s') => k a s'
               | (Raised e, s') => (Raised e, s')
               end.
Proof. reflexivity. Qed.


(** ** eV and bin numbers *)

Module Conv.

(** The integer [z] as an operand of a float operation: its exact value,
    the mantissa not normalised. *)
Definition exact (z : Z) : spec_float :=
  match z with
  | 0 => S754_zero false
  | Zpos p => S754_finite false p 0
  | Zneg p => S754_finite true p 0
  end.

(** [a / b] on integers is Python's true division: the quotient, correctly
    rounded (to nearest, ties to even) to a binary64 float, of 53 digits
    and exponents below 1024. *)
Definition true_div (a b : Z) : outcome spec_float :=
  if b =? 0 then Raised (ZeroDivisionError "division by zero")
  else
    match SFdiv 53 1024 (exact a) (exact b) with
    | S754_infinity _ =>
        Raised (OverflowError "integer division result too large for a float")
    | x => Returned x
    end.

(** [int(x)] on a float truncates toward zero. *)
Definition int_of_float (x : spec_float) : outcome Z :=
  match x with
  | S754_zero _ => Returned 0
  | S754_finite s m e => Returned (cond_Zopp s (Z.shiftl (Zpos m) e))
  | S754_infinity _ =>
      Raised (OverflowError "cannot convert float infinity to integer")
  | S754_nan => Raised (ValueError "cannot convert float NaN to integer")
  end.

(** [ev_to_bin(ev)]: [int(ev / 10)] *)
Definition ev_to_bin (ev : Z) : outcome Z :=
  match true_div ev 10 with
  | Returned x => int_of_float x
  | Raised exc => Raised exc
  end.

(** [bin_to_ev(bin_)]: [int(bin_) * 10] *)
Definition bin_to_ev (bin_ : Z) : Z := bin_ * 10.

(** [bin_to_ev(ev_to_bin(e))] *)
Definition round_trip (e : Z) : outcome Z :=
  match ev_to_bin e with
  | Returned bin_ => Returned (bin_to_ev bin_)
  | Raised exc => Raised exc
  end.

(** *** The float quotient by 10, digit by digit *)

Lemma digits2_pos_bounds (p : positive) :
  2 ^ (Zpos (digits2_pos p) - 1) <= Zpos p < 2 ^ Zpos (digits2_pos p).
Proof.
  induction p as [p IH|p IH|]; cbn [digits2_pos].
  - rewrite Pos2Z.inj_succ. replace (Z.succ (Z.pos (digits2_pos p)) - 1) with (Z.succ (Z.pos (digits2_pos p) - 1)) by lia.
    rewrite !Z.pow_succ_r by lia. lia.
  - rewrite Pos2Z.inj_succ. replace (Z.succ (Z.pos (digits2_pos p)) - 1) with (Z.succ (Z.pos (digits2_pos p) - 1)) by lia.
    rewrite !Z.pow_succ_r by lia. lia.
  - simpl. lia.
Qed.

Lemma Zdigits2_unique (q n : Z) :
  0 < q -> 2 ^ (n - 1) <= q < 2 ^ n -> Zdigits2 q = n.
Proof.
  intros Hq [Hlo Hhi]. destruct q as [|p|p]; try lia. cbn [Zdigits2].
  pose proof (digits2_pos_bounds p) as [Plo Phi].
  assert (0 < n) as Hn.
  { destruct (Z_lt_le_dec 0 n) as [|Hle]; [done|]. exfalso.
    assert (2 ^ n <= 1); [|lia].
    destruct (Z.eq_dec n 0) as [->|]; [simpl; lia|].
    rewrite Z.pow_neg_r by lia. lia. }
  destruct (Z.lt_trichotomy (Zpos (digits2_pos p)) n) as [Hlt|[Heq|Hgt]]; [|done|].
  - exfalso. assert (2 ^ Zpos (digits2_pos p) <= 2 ^ (n - 1)) by (apply Z.pow_le_mono_r; lia). lia.
  - exfalso. assert (2 ^ n <= 2 ^ (Zpos (digits2_pos p) - 1)) by (apply Z.pow_le_mono_r; lia). lia.
Qed.

Lemma shr_1_pos (m : positive) (r s : bool) :
  shr_1 {| shr_m := Zpos m; shr_r := r; shr_s := s |}
  = {| shr_m := Z.div2 (Zpos m); shr_r := Z.odd (Zpos m); shr_s := r || s |}.
Proof. destruct m; reflexivity. Qed.


Lemma Zdigits2_53 (q : Z) :
  4503599627370496 <= q < 9007199254740992 -> Zdigits2 q = 53.
Proof. intros Hq. apply Zdigits2_unique; [lia|exact Hq]. Qed.

Lemma Zdigits2_54 (q : Z) :
  9007199254740992 <= q < 18014398509481984 -> Zdigits2 q = 54.
Proof. intros Hq. apply Zdigits2_unique; [lia|exact Hq]. Qed.

Lemma loc_of_record_of_loc (m : Z) (l : location) :
  loc_of_shr_record (shr_record_of_loc m l) = l.
Proof. by destruct l as [|[]]. Qed.

Lemma shr_m_record_of_loc (m : Z) (l : location) :
  shr_m (shr_record_of_loc m l) = m.
Proof. by destruct l as [|[]]. Qed.

(** Rounding a mantissa of 53 digits: nothing is shifted out; the mantissa
    goes up by one or stays. *)
Lemma binary_round_aux_53 (sx : bool) (q e : Z) (l : location) :
  4503599627370496 <= q < 9007199254740992 -> -1074 <= e -> e + 1 <= 971 ->
  exists m e',
    binary_round_aux 53 1024 sx q e l = S754_finite sx m e'
    /\ e' <= 0 + e + 1
    /\ Zpos m * 2 ^ (e' - e) = round_nearest_even q l
    /\ e <= e'.
Proof.
  intros Hq He He'. unfold binary_round_aux, shr_fexp.
  rewrite (Zdigits2_53 q) by lia.
  unfold fexp, emin. rewrite (Z.max_l (53 + e - 53)) by lia.
  replace (53 + e - 53 - e) with 0 by lia. cbn [shr].
  rewrite loc_of_record_of_loc, shr_m_record_of_loc.
  set (m := round_nearest_even q l).
  assert (m = q \/ m = q + 1) as Hm.
  { unfold m. destruct l as [|[]]; cbn; auto. destruct (Z.even q); auto. }
  destruct (Z_lt_le_dec m 9007199254740992) as [Hlt|Hge].
  - rewrite (Zdigits2_53 m) by lia.
    rewrite (Z.max_l (53 + e - 53)) by lia.
    replace (53 + e - 53 - e) with 0 by lia. cbn [shr shr_record_of_loc shr_m].
    destruct m as [|pm|pm] eqn:Em; try lia.
    rewrite (proj2 (Z.leb_le e (1024 - 53))) by lia.
    exists pm, e. split; [done|]. split; [lia|]. split; [|lia].
    rewrite Z.sub_diag. simpl. lia.
  - assert (m = 9007199254740992) as Em by lia.
    rewrite Em. rewrite (Zdigits2_54 9007199254740992) by lia.
    rewrite (Z.max_l (54 + e - 53)) by lia.
    replace (54 + e - 53 - e) with 1 by lia.
    cbn [shr shr_record_of_loc SpecFloat.iter_pos]. rewrite shr_1_pos.
    cbn [shr_m Z.div2 Pos.div2].
    rewrite (proj2 (Z.leb_le (e + 1) (1024 - 53))) by lia.
    exists 4503599627370496%positive, (e + 1).
    split; [done|]. split; [lia|]. split; [|lia].
    replace (e + 1 - e) with 1 by lia. reflexivity.
Qed.

(** Rounding a mantissa of 54 digits: the last digit is shifted out and
    becomes the round bit. *)
Lemma binary_round_aux_54 (sx : bool) (q e : Z) (l : location) :
  9007199254740992 <= q < 18014398509481982 -> -1074 <= e -> e + 1 <= 971 ->
  exists m,
    binary_round_aux 53 1024 sx q e l = S754_finite sx m (e + 1)
    /\ (Zpos m = Z.div2 q
        \/ (Zpos m = Z.div2 q + 1 /\ Z.odd q = true
            /\ (l <> loc_Exact \/ Z.odd (Z.div2 q) = true))).
Proof.
  intros Hq He He'. unfold binary_round_aux, shr_fexp.
  rewrite (Zdigits2_54 q) by lia.
  unfold fexp, emin. rewrite (Z.max_l (54 + e - 53)) by lia.
  replace (54 + e - 53 - e) with 1 by lia. cbn [shr SpecFloat.iter_pos].
  destruct q as [|pq|pq] eqn:Eq; try lia.
  assert (shr_1 (shr_record_of_loc (Zpos pq) l)
          = {| shr_m := Z.div2 (Zpos pq); shr_r := Z.odd (Zpos pq);
               shr_s := match l with loc_Exact => false | _ => true end |}) as ->.
  { destruct l as [|[]]; cbn [shr_record_of_loc]; rewrite shr_1_pos; reflexivity. }
  cbn [shr_m].
  set (h := Z.div2 (Zpos pq)).
  assert (4503599627370496 <= h < 9007199254740991) as Hh.
  { unfold h. rewrite Z.div2_div. split.
    - apply Z.div_le_lower_bound; lia.
    - apply Z.div_lt_upper_bound; lia. }
  set (m := round_nearest_even h _).
  assert (m = h \/ (m = h + 1 /\ Z.odd (Zpos pq) = true
                    /\ (l <> loc_Exact \/ Z.odd h = true))) as Hm.
  { unfold m. destruct (Z.odd (Zpos pq)); [|left; by destruct l as [|[]]].
    destruct l as [|[]]; cbn [loc_of_shr_record round_nearest_even].
    - rewrite <- Z.negb_odd. destruct (Z.odd h); cbn; auto.
    - right. split; [done|]. split; [done|]. by left.
    - right. split; [done|]. split; [done|]. by left.
    - right. split; [done|]. split; [done|]. by left. }
  assert (4503599627370496 <= m < 9007199254740992) as Hm' by lia.
  rewrite (Zdigits2_53 m) by lia.
  rewrite (Z.max_l (53 + (e + 1) - 53)) by lia.
  replace (53 + (e + 1) - 53 - (e + 1)) with 0 by lia.
  cbn [shr shr_record_of_loc shr_m].
  destruct m as [|pm|pm] eqn:Em; try lia.
  rewrite (proj2 (Z.leb_le (e + 1) (1024 - 53))) by lia.
  exists pm. split; [done|]. exact Hm.
Qed.

Lemma scaled_quotient (p P q r : Z) :
  0 <= p -> 11 <= P -> p * P = 10 * q + r -> 0 <= r < 10 ->
  q / P = p / 10 /\ (q + 1) / P = p / 10.
Proof.
  intros Hp HP Heq Hr.
  pose proof (Z.div_mod p 10 ltac:(lia)) as Hdm.
  pose proof (Z.mod_pos_bound p 10 ltac:(lia)) as Ht.
  set (n := p / 10) in *. set (t := p mod 10) in *.
  set (u := q - n * P).
  assert (10 * u = t * P - r) as Hu by (unfold u; nia).
  assert (0 <= t * P <= 9 * P) as HtP by nia.
  assert (0 <= u /\ u + 1 < P) as [Hu0 Hu1] by lia.
  split; symmetry.
  - apply (Z.div_unique q P n u); [lia | unfold u; lia].
  - apply (Z.div_unique (q + 1) P n (u + 1)); [lia | unfold u; lia].
Qed.

(** The float quotient of an integer below 2^53 by 10 is finite, and
    truncating it gives the integer quotient. *)
Lemma div10_pos (sx : bool) (p : positive) :
  Zpos p < 9007199254740992 ->
  exists m e,
    SFdiv 53 1024 (S754_finite sx p 0) (S754_finite false 10 0)
    = S754_finite sx m e
    /\ Z.shiftl (Zpos m) e = Zpos p / 10.
Proof.
  intros Hp.
  pose proof (digits2_pos_bounds p) as [Dlo Dhi].
  set (d := Zpos (digits2_pos p)) in *.
  assert (1 <= d <= 53) as Hd.
  { split; [unfold d; lia|].
    destruct (Z_le_gt_dec d 53); [done|]. exfalso.
    assert (2 ^ 53 <= 2 ^ (d - 1)) by (apply Z.pow_le_mono_r; lia).
    change (2 ^ 53) with 9007199254740992 in *. lia. }
  cbn [SFdiv]. rewrite xorb_false_r. unfold SFdiv_core_binary.
  cbn [Zdigits2 digits2_pos Pos.succ]. fold d.
  replace (d + 0 - (4 + 0)) with (d - 4) by lia.
  unfold fexp, emin.
  rewrite (Z.max_l (d - 4 - 53)) by lia.
  replace (0 - 0) with 0 by lia.
  rewrite (Z.min_l (d - 4 - 53) 0) by lia.
  replace (0 - (d - 4 - 53)) with (57 - d) by lia.
  replace (d - 4 - 53) with (d - 57) by lia.
  destruct (57 - d) as [|s|s] eqn:Hs; try lia.
  rewrite <- Hs. rewrite Z.shiftl_mul_pow2 by lia.
  set (P := 2 ^ (57 - d)).
  assert (Zpos p * P = 10 * (Zpos p * P / 10) + (Zpos p * P) mod 10) as Hdm
    by (apply Z.div_mod; lia).
  pose proof (Z.mod_pos_bound (Zpos p * P) 10 ltac:(lia)) as Hr.
  assert (IntDef.Z.div_eucl (Zpos p * P) 10
          = (Zpos p * P / 10, (Zpos p * P) mod 10)) as ->.
  { unfold Z.div, Z.modulo.
    by destruct (Z.div_eucl (Zpos p * P) 10). }
  set (q := Zpos p * P / 10) in *. set (r := (Zpos p * P) mod 10) in *.
  assert (P = 2 * 2 ^ (56 - d)) as HP2.
  { unfold P. rewrite <- Z.pow_succ_r by lia. f_equal. lia. }
  assert (16 <= P) as HP16.
  { unfold P. change 16 with (2 ^ 4). apply Z.pow_le_mono_r; lia. }
  assert (72057594037927936 <= Zpos p * P < 144115188075855872) as Hm'.
  { change 72057594037927936 with (2 ^ 56).
    change 144115188075855872 with (2 ^ 57).
    replace 56 with ((d - 1) + (57 - d)) at 1 by lia.
    replace 57 with (d + (57 - d)) at 2 by lia.
    rewrite !Z.pow_add_r by lia. fold P. nia. }
  destruct (scaled_quotient (Zpos p) P q r) as [Hq0 Hq1]; [lia..|].
  destruct (Z_lt_le_dec q 9007199254740992) as [Hlt|Hge].
  - destruct (binary_round_aux_53 sx q (d - 57) (new_location 10 r))
      as (m & e' & -> & He1 & Hm & He2); [lia..|].
    exists m, e'. split; [done|].
    rewrite Z.shiftl_div_pow2 by lia.
    assert (round_nearest_even q (new_location 10 r) = q
            \/ round_nearest_even q (new_location 10 r) = q + 1) as HR.
    { destruct (new_location 10 r) as [|[]]; cbn; auto.
      destruct (Z.even q); auto. }
    assert (e' = d - 57 \/ e' = d - 57 + 1) as [->| ->] by lia.
    + rewrite Z.sub_diag, Z.mul_1_r in Hm.
      replace (- (d - 57)) with (57 - d) by lia. fold P.
      destruct HR as [HR|HR]; rewrite Hm, HR; done.
    + replace (d - 57 + 1 - (d - 57)) with 1 in Hm by lia.
      replace (- (d - 57 + 1)) with (56 - d) by lia.
      change (2 ^ 1) with 2 in Hm.
      rewrite <- (Z.div_mul_cancel_r _ _ 2) by lia.
      rewrite (Z.mul_comm (2 ^ (56 - d)) 2), <- HP2.
      destruct HR as [HR|HR]; rewrite Hm, HR; done.
  - destruct (binary_round_aux_54 sx q (d - 57) (new_location 10 r))
      as (m & -> & Hm); [lia..|].
    exists m, (d - 57 + 1). split; [done|].
    rewrite Z.shiftl_div_pow2 by lia.
    replace (- (d - 57 + 1)) with (56 - d) by lia.
    rewrite <- (Z.div_mul_cancel_r _ _ 2) by lia.
    rewrite (Z.mul_comm (2 ^ (56 - d)) 2), <- HP2.
    rewrite Z.div2_div in Hm.
    pose proof (Z.div_mod q 2 ltac:(lia)) as Hq2.
    destruct Hm as [Hm|(Hm & Hodd & _)].
    + rewrite Hm.
      assert (q mod 2 = 0 \/ q mod 2 = 1) as [H0|H1]
        by (pose proof (Z.mod_pos_bound q 2); lia).
      * replace (q / 2 * 2) with q by lia. done.
      * rewrite <- Hq0. 
        replace (q / 2 * 2) with (q - 1) by lia.
        pose proof (Z.div_mod q P ltac:(lia)) as HqP.
        pose proof (Z.mod_pos_bound q P ltac:(lia)) as HqPb.
        assert (q mod P <> 0) as Hnz.
        { intros Hz. rewrite Hz in HqP. rewrite HP2 in HqP at 1. lia. }
        symmetry. apply (Z.div_unique (q - 1) P (q / P) (q mod P - 1)); lia.
    + rewrite Hm. apply Z.odd_spec in Hodd as [k Hk].
      pose proof (Z.mod_pos_bound q 2 ltac:(lia)) as Hq2b.
      replace ((q / 2 + 1) * 2) with (q + 1) by lia. done.
Qed.

(** *** The conversions *)

(** Below 2^53 in absolute value, [ev_to_bin] is the integer quotient by
    10, rounded toward zero. *)
Lemma ev_to_bin_quot (e : Z) :
  Z.abs e < 9007199254740992 -> ev_to_bin e = Returned (e ÷ 10).
Proof.
  intros He. unfold ev_to_bin, true_div.
  change (10 =? 0) with false. cbv iota.
  destruct e as [|p|p]; [reflexivity| |].
  - destruct (div10_pos false p) as (m & e' & Hdiv & Hsh); [lia|].
    cbn [exact]. rewrite Hdiv. cbn [int_of_float cond_Zopp]. rewrite Hsh.
    by rewrite Z.quot_div_nonneg by lia.
  - destruct (div10_pos true p) as (m & e' & Hdiv & Hsh); [lia|].
    cbn [exact]. rewrite Hdiv. cbn [int_of_float cond_Zopp]. rewrite Hsh.
    change (Z.neg p) with (- Z.pos p). rewrite Z.quot_opp_l by lia.
    by rewrite Z.quot_div_nonneg by lia.
Qed.

Example ev_to_bin_25 : ev_to_bin 25 = Returned 2.
Proof. reflexivity. Qed.

Example ev_to_bin_minus_5 : ev_to_bin (-5) = Returned 0.
Proof. reflexivity. Qed.

(** C6, as stated, fails for negative values, where [int()] rounds toward
    zero and not down: the round trip of -15 is -10, not -20; and for
    values too large for a float to hold exactly: the round trip of
    [10 * (2^53 + 1)] is [10 * 2^53]. *)
Lemma round_trip_not_floor :
  round_trip (-15) = Returned (-10)
  /\ 10 * (-15 / 10) = -20
  /\ ev_to_bin (-15) ≠ Returned (-15 / 10)
  /\ (10 * (2 ^ 53 + 1)) mod 10 = 0
  /\ round_trip (10 * (2 ^ 53 + 1)) = Returned (10 * 2 ^ 53).
Proof. vm_compute. repeat split; congruence. Qed.

(** C6, amended. For an integer [e] with [|e| < 2^53]: [ev_to_bin(e)] is
    the quotient of [e] by 10 rounded toward zero, and the round trip
    [bin_to_ev(ev_to_bin(e))] is ten times that. So a multiple of 10 comes
    back unchanged; a non-negative [e] comes back as the nearest multiple
    of 10 not above it ([ev_to_bin] is then [floor(e / 10)]); a negative
    [e] that is not a multiple of 10 comes back as the nearest multiple of
    10 above it. *)
Theorem round_trip_truncates (e : Z) :
  Z.abs e < 9007199254740992 ->
  ev_to_bin e = Returned (e ÷ 10)
  /\ round_trip e = Returned (10 * (e ÷ 10))
  /\ (e mod 10 = 0 -> round_trip e = Returned e)
  /\ (0 <= e ->
      ev_to_bin e = Returned (e / 10)
      /\ round_trip e = Returned (e - e mod 10))
  /\ (e < 0 -> e mod 10 ≠ 0 ->
      ev_to_bin e = Returned (e / 10 + 1)
      /\ round_trip e = Returned (e - e mod 10 + 10)).
Proof.
  intros He. pose proof (ev_to_bin_quot e He) as Hq.
  unfold round_trip, bin_to_ev. rewrite Hq.
  pose proof (Z.quot_rem' e 10) as Hqr.
  pose proof (Z.div_mod e 10 ltac:(lia)) as Hdm.
  pose proof (Z.mod_pos_bound e 10 ltac:(lia)) as Hmb.
  split; [done|]. split; [f_equal; lia|].
  split; [|split].
  - intros Hm. f_equal.
    destruct (Z_le_gt_dec 0 e).
    + pose proof (Z.rem_bound_pos e 10 ltac:(lia) ltac:(lia)). lia.
    + pose proof (Z.rem_bound_pos_neg e 10 ltac:(lia) ltac:(lia)). lia.
  - intros Hpos.
    pose proof (Z.rem_bound_pos e 10 ltac:(lia) ltac:(lia)).
    split; f_equal; lia.
  - intros Hneg Hm.
    pose proof (Z.rem_bound_pos_neg e 10 ltac:(lia) ltac:(lia)).
    split; f_equal; lia.
Qed.

(** The theorem at work: 2500, 2507 and -15 eV. *)
Lemma round_trip_truncates_witness :
  round_trip 2500 = Returned 2500
  /\ round_trip 2507 = Returned 2500
  /\ round_trip (-15) = Returned (-10).
Proof.
  split; [|split].
  - destruct (round_trip_truncates 2500) as (_ & _ & Hmul & _);
      [simpl; lia|].
    apply Hmul. reflexivity.
  - destruct (round_trip_truncates 2507) as (_ & _ & _ & Hpos & _);
      [simpl; lia|].
    destruct Hpos as [_ Hrt]; [lia|]. exact Hrt.
  - destruct (round_trip_truncates (-15)) as (_ & _ & _ & _ & Hneg);
      [simpl; lia|].
    destruct Hneg as [_ Hrt]; [lia | done |]. exact Hrt.
Defined.

(** *** From bins to eV and back *)

(** X1. A bin number converted to eV and back is the bin number again: the
    product [10 * b] divides exactly, as long as it is below 2^53. *)
Theorem bin_round_trip (b : Z) :
  Z.abs b <= 900719925474099 ->
  ev_to_bin (bin_to_ev b) = Returned b.
Proof.
  intros Hb. unfold bin_to_ev. rewrite ev_to_bin_quot by lia.
  by rewrite Z.quot_mul.
Qed.

(** The theorem at work: bin 250 is 2500 eV is bin 250; and bin -3. *)
Lemma bin_round_trip_witness :
  ev_to_bin (bin_to_ev 250) = Returned 250
  /\ ev_to_bin (bin_to_ev (-3)) = Returned (-3).
Proof.
  split; apply bin_round_trip; simpl; lia.
Defined.

(** X2. [ev_to_bin] keeps the order of energies: a higher energy never lands
    in a lower bin. *)
Theorem ev_to_bin_monotone (e1 e2 : Z) :
  Z.abs e1 < 9007199254740992 -> Z.abs e2 < 9007199254740992 ->
  e1 <= e2 ->
  exists b1 b2,
    ev_to_bin e1 = Returned b1 /\ ev_to_bin e2 = Returned b2 /\ b1 <= b2.
Proof.
  intros H1 H2 Hle. exists (e1 ÷ 10), (e2 ÷ 10).
  rewrite !ev_to_bin_quot by done. split; [done|]. split; [done|].
  apply Z.quot_le_mono; lia.
Qed.

Lemma ev_to_bin_monotone_witness :
  exists b1 b2,
    ev_to_bin (-15) = Returned b1 /\ ev_to_bin 2507 = Returned b2 /\ b1 <= b2.
Proof.
  apply ev_to_bin_monotone; simpl; lia.
Defined.

End Conv.

(** ** [EvSignal]: a bin signal read and written in eV *)

Module EvSignal.

(** The signal [EvSignal] derives from, [getattr(parent, parent_attr)]:
    the bin number it holds and the values written to it so far. The
    signal is taken to hold the value last written. *)
Record bin_signal := {
  value : Z;
  puts : list Z
}.

(** [super().get()] and [super().put(v)] of the [DerivedSignal]: the read
    and the write of the signal it derives from. *)
Definition derived_get : M bin_signal Z := Py.gets value.
Definition derived_put (v : Z) : M bin_signal unit :=
  Py.modify (fun s => {| value := v; puts := puts s ++ [v] |}).

(** [EvSignal.get()] *)
Definition get : M bin_signal Z :=
  bin_ ← derived_get;
  mret (Conv.bin_to_ev bin_).

(** [EvSignal.put(ev_value)] *)
Definition put (ev_value : Z) : M bin_signal unit :=
  match Conv.ev_to_bin ev_value with
  | Returned bin_value => derived_put bin_value
  | Raised exc => Py.raise exc
  end.

(** X3. An energy written through the signal reads back as the multiple of 10
    toward zero: one write, of the bin [ev ÷ 10], reaches the bin signal. *)
Theorem put_then_get (ev_value : Z) (s : bin_signal) :
  Z.abs ev_value < 9007199254740992 ->
  (put ev_value;; get) s
  = (Returned (10 * (ev_value ÷ 10)),
     {| value := ev_value ÷ 10; puts := puts s ++ [ev_value ÷ 10] |}).
Proof.
  intros Hev. rewrite run_bind. unfold put.
  rewrite Conv.ev_to_bin_quot by done.
  cbn [derived_put Py.modify]. unfold get. rewrite run_bind.
  cbn [derived_get Py.gets value mret M_ret Py.ret]. unfold Conv.bin_to_ev.
  by rewrite Z.mul_comm.
Qed.

Lemma put_then_get_witness :
  (put 2507;; get) {| value := 0; puts := [] |}
  = (Returned 2500, {| value := 250; puts := [250] |}).
Proof.
  apply (put_then_get 2507 {| value := 0; puts := [] |}). simpl. lia.
Defined.

(** X4. Writing back the energy just read leaves the bin where it is: the
    write that reaches the bin signal is the value it holds. *)
Theorem get_then_put (s : bin_signal) :
  Z.abs (value s) <= 900719925474099 ->
  (ev ← get; put ev) s
  = (Returned tt, {| value := value s; puts := puts s ++ [value s] |}).
Proof.
  intros Hb. rewrite run_bind. unfold get. rewrite run_bind.
  cbn [derived_get Py.gets mret M_ret Py.ret]. unfold put.
  rewrite Conv.ev_to_bin_quot by (unfold Conv.bin_to_ev; lia).
  unfold Conv.bin_to_ev. by rewrite Z.quot_mul.
Qed.

Lemma get_then_put_witness :
  (ev ← get; put ev) {| value := 250; puts := [] |}
  = (Returned tt, {| value := 250; puts := [250] |}).
Proof.
  apply (get_then_put {| value := 250; puts := [] |}). simpl. lia.
Defined.

End EvSignal.

(** ** [McaRoi]: one region of interest of one channel *)

Module Roi.

(** The components of [McaRoi], by PV suffix. *)
Inductive signal := Name | MinX | SizeX | Total_RBV | Use.

#[global] Instance signal_eq_dec : EqDecision signal.
Proof. solve_decision. Defined.

(** One [signal.put(value)]: the PV prefix of the ROI, the component and
    the value written. *)
Record put_event := Put {
  put_prefix : string;
  put_signal : signal;
  put_value : Z
}.

#[global] Instance put_event_eq_dec : EqDecision put_event.
Proof. solve_decision. Defined.

(** An [McaRoi] instance together with the PVs behind its signals.
    [min_x], [size_x] hold what [min_x.get()], [size_x.get()] return.
    [use] is a [SignalWithRBV]: [use.put] writes the PV "Use" ([use_setpoint])
    and [use.get()] reads "Use_RBV" ([use_rbv]).
    [grandparent_channel_num] is [self.parent.parent.channel_num], absent
    when the ROI is not nested two levels below a channel. *)
Record McaRoi := {
  prefix : string;
  min_x : Z;
  size_x : Z;
  use_setpoint : Z;
  use_rbv : Z;
  roi_name_name : string;
  total_rbv_name : string;
  grandparent_channel_num : option Z
}.

(** The state a ROI method runs in: the ROI and the hardware writes so far. *)
Definition world : Type := McaRoi * list put_event.

(** What the IOC holds after a write. The IOC is taken to store the value
    as written and to report a written "Use" on "Use_RBV". *)
Definition store (sg : signal) (v : Z) (r : McaRoi) : McaRoi :=
  match sg with
  | MinX =>
      {| prefix := prefix r; min_x := v; size_x := size_x r;
         use_setpoint := use_setpoint r; use_rbv := use_rbv r;
         roi_name_name := roi_name_name r; total_rbv_name := total_rbv_name r;
         grandparent_channel_num := grandparent_channel_num r |}
  | SizeX =>
      {| prefix := prefix r; min_x := min_x r; size_x := v;
         use_setpoint := use_setpoint r; use_rbv := use_rbv r;
         roi_name_name := roi_name_name r; total_rbv_name := total_rbv_name r;
         grandparent_channel_num := grandparent_channel_num r |}
  | Use =>
      {| prefix := prefix r; min_x := min_x r; size_x := size_x r;
         use_setpoint := v; use_rbv := v;
         roi_name_name := roi_name_name r; total_rbv_name := total_rbv_name r;
         grandparent_channel_num := grandparent_channel_num r |}
  | Name | Total_RBV => r
  end.

(** [self.<sg>.put(v)] *)
Definition put (sg : signal) (v : Z) : M world unit :=
  Py.modify (fun w => (store sg v w.1, w.2 ++ [Put (prefix w.1) sg v])).

(** [self.min_x.get()], [self.size_x.get()], [self.use.get()] *)
Definition get_min_x : M world Z := Py.gets (fun w => min_x w.1).
Definition get_size_x : M world Z := Py.gets (fun w => size_x w.1).
Definition get_use : M world Z := Py.gets (fun w => use_rbv w.1).

(** [!=] on integers *)
Definition ne (a b : Z) : bool := negb (a =? b).

(** [any([...])] *)
Definition any (bs : list bool) : bool := existsb id bs.

(** [McaRoi.configure_roi(ev_min, ev_size)]. The arguments are integers, on
    which [int(...)] is the identity. The debug log line evaluates
    [self.parent.parent.channel_num] before anything is written. *)
Definition configure_roi (ev_min ev_size : Z) : M world unit :=
  let use_roi := 1 in
  cur_min ← get_min_x;
  cur_size ← get_size_x;
  cur_use ← get_use;
  let configuration_changed :=
    any [ne cur_min ev_min; ne cur_size ev_size; ne cur_use use_roi] in
  if configuration_changed then
    chan ← Py.gets (fun w => grandparent_channel_num w.1);
    match chan with
    | None => Py.raise (AttributeError "channel_num")
    | Some _ => mret tt
    end;;
    put MinX ev_min;;
    put SizeX ev_size;;
    put Use use_roi
  else
    mret tt.

(** [McaRoi.clear()]: it is enough to disable the ROI. *)
Definition clear : M world unit := put Use 0.

(** The ROI reads as already configured with [(ev_min, ev_size)], enabled. *)
Definition configured (ev_min ev_size : Z) (r : McaRoi) : Prop :=
  min_x r = ev_min /\ size_x r = ev_size /\ use_rbv r = 1.

#[global] Instance configured_dec a b r : Decision (configured a b r).
Proof. unfold configured. apply _. Defined.

Lemma changed_false_iff (ev_min ev_size : Z) (r : McaRoi) :
  any [ne (min_x r) ev_min; ne (size_x r) ev_size; ne (use_rbv r) 1] = false
  <-> configured ev_min ev_size r.
Proof.
  unfold any, ne, configured, id. simpl.
  rewrite !orb_false_iff, !negb_false_iff, !Z.eqb_eq. tauto.
Qed.

Lemma configure_roi_unchanged ev_min ev_size r tr :
  configured ev_min ev_size r ->
  configure_roi ev_min ev_size (r, tr) = (Returned tt, (r, tr)).
Proof.
  intros H%changed_false_iff.
  unfold configure_roi, get_min_x, get_size_x, get_use. munfold.
  cbn -[any]. by rewrite H.
Qed.

Lemma configure_roi_changed ev_min ev_size r tr c :
  ~ configured ev_min ev_size r ->
  grandparent_channel_num r = Some c ->
  configure_roi ev_min ev_size (r, tr) =
    (Returned tt,
     (store Use 1 (store SizeX ev_size (store MinX ev_min r)),
      tr ++ [Put (prefix r) MinX ev_min; Put (prefix r) SizeX ev_size;
             Put (prefix r) Use 1])).
Proof.
  intros Hn Hc.
  unfold configure_roi, get_min_x, get_size_x, get_use, put. munfold.
  cbn -[any]. destruct (any _) eqn:E.
  - cbn. rewrite Hc. cbn. rewrite ?Hc, <- !(assoc_L (++)). reflexivity.
  - apply changed_false_iff in E. done.
Qed.

Lemma configure_roi_orphan ev_min ev_size r tr :
  ~ configured ev_min ev_size r ->
  grandparent_channel_num r = None ->
  configure_roi ev_min ev_size (r, tr) =
    (Raised (AttributeError "channel_num"), (r, tr)).
Proof.
  intros Hn Hc.
  unfold configure_roi, get_min_x, get_size_x, get_use, put. munfold.
  cbn -[any]. destruct (any _) eqn:E.
  - cbn. by rewrite Hc.
  - apply changed_false_iff in E. done.
Qed.

Lemma configured_after ev_min ev_size r :
  configured ev_min ev_size (store Use 1 (store SizeX ev_size (store MinX ev_min r))).
Proof. by unfold configured. Qed.

(** C5. [configure_roi] writes to the hardware only when something changes:
    when the ROI already reads [(ev_min, ev_size)] and enabled, the call
    returns without any write and leaves the ROI as it is; otherwise (the ROI
    sitting in a channel, so that the log line can name it) it writes exactly
    [MinX], then [SizeX], then [Use := 1], in that order; and a second call
    with the same arguments, the IOC holding what was written, writes
    nothing. *)
Theorem configure_roi_idempotent_writes (ev_min ev_size : Z) (r : McaRoi)
    (tr : list put_event) :
  (configured ev_min ev_size r ->
     configure_roi ev_min ev_size (r, tr) = (Returned tt, (r, tr)))
  /\ (forall c, ~ configured ev_min ev_size r ->
        grandparent_channel_num r = Some c ->
        exists r',
          configure_roi ev_min ev_size (r, tr) =
            (Returned tt,
             (r', tr ++ [Put (prefix r) MinX ev_min;
                         Put (prefix r) SizeX ev_size;
                         Put (prefix r) Use 1]))
          /\ configured ev_min ev_size r')
  /\ (forall o w1, configure_roi ev_min ev_size (r, tr) = (o, w1) ->
        exists o2, configure_roi ev_min ev_size w1 = (o2, w1)
                   /\ (o = Returned tt -> o2 = Returned tt)).
Proof.
  split; [apply configure_roi_unchanged|]. split.
  - intros c Hn Hc. eexists. split.
    + by apply configure_roi_changed with (c := c).
    + apply configured_after.
  - intros o w1 Hrun.
    destruct (decide (configured ev_min ev_size r)) as [Hc|Hn].
    + rewrite configure_roi_unchanged in Hrun by done. simplify_eq.
      exists (Returned tt). by rewrite configure_roi_unchanged.
    + destruct (grandparent_channel_num r) as [c|] eqn:Hg.
      * rewrite (configure_roi_changed _ _ _ _ c) in Hrun by done. simplify_eq.
        exists (Returned tt). split; [|done].
        apply configure_roi_unchanged, configured_after.
      * rewrite configure_roi_orphan in Hrun by done. simplify_eq.
        exists (Raised (AttributeError "channel_num")).
        split; [|done]. by apply configure_roi_orphan.
Qed.

(** A ROI at rest below channel 1. *)
Definition idle_roi : McaRoi :=
  {| prefix := "MCA1ROI:1:"; min_x := 0; size_x := 0;
     use_setpoint := 0; use_rbv := 0;
     roi_name_name := "roi_name"; total_rbv_name := "total_rbv";
     grandparent_channel_num := Some 1 |}.

(** The theorem at work: the first [configure_roi(2000, 500)] writes three
    values, the second one nothing. *)
Lemma configure_roi_idempotent_writes_witness :
  exists r',
    configure_roi 2000 500 (idle_roi, [])
      = (Returned tt,
         (r', [Put "MCA1ROI:1:" MinX 2000; Put "MCA1ROI:1:" SizeX 500;
               Put "MCA1ROI:1:" Use 1]))
    /\ configure_roi 2000 500 (r', [])
       = (Returned tt, (r', [])).
Proof.
  destruct (proj1 (proj2 (configure_roi_idempotent_writes 2000 500 idle_roi []))
              1) as (r' & Hrun & Hconf).
  - unfold configured. simpl. lia.
  - reflexivity.
  - exists r'. split; [exact Hrun|].
    apply (proj1 (configure_roi_idempotent_writes 2000 500 r' [])), Hconf.
Defined.

(** *** A ROI outside a channel, and clearing *)

(** X5. A ROI that does not sit two levels below a channel has no
    [self.parent.parent.channel_num] for the log line: [configure_roi] then
    raises [AttributeError] before it writes anything whenever a setting has
    to change, and only returns when there is nothing to do. *)
Theorem configure_roi_needs_channel (ev_min ev_size : Z) (r : McaRoi)
    (tr : list put_event) :
  grandparent_channel_num r = None ->
  configure_roi ev_min ev_size (r, tr)
  = (if decide (configured ev_min ev_size r) then Returned tt
     else Raised (AttributeError "channel_num"),
     (r, tr)).
Proof.
  intros Hg. destruct (decide (configured ev_min ev_size r)).
  - by apply configure_roi_unchanged.
  - by apply configure_roi_orphan.
Qed.

(** A ROI created on its own, at rest. *)
Definition lone_roi : McaRoi :=
  {| prefix := "MCA1ROI:1:"; min_x := 0; size_x := 0;
     use_setpoint := 0; use_rbv := 0;
     roi_name_name := "roi_name"; total_rbv_name := "total_rbv";
     grandparent_channel_num := None |}.

Lemma configure_roi_needs_channel_witness :
  configure_roi 2000 500 (lone_roi, [])
  = (Raised (AttributeError "channel_num"), (lone_roi, [])).
Proof.
  apply (configure_roi_needs_channel 2000 500 lone_roi []). reflexivity.
Defined.

(** X6. [clear] writes [Use := 0] and nothing else, so the limits of the ROI
    survive it; [configure_roi] with these limits then finds the ROI
    disabled, writes all three settings again and leaves it configured. *)
Theorem clear_then_configure (r : McaRoi) (tr : list put_event) (c : Z) :
  grandparent_channel_num r = Some c ->
  exists r1 r2,
    clear (r, tr) = (Returned tt, (r1, tr ++ [Put (prefix r) Use 0]))
    /\ min_x r1 = min_x r /\ size_x r1 = size_x r /\ use_rbv r1 = 0
    /\ configure_roi (min_x r) (size_x r) (r1, tr ++ [Put (prefix r) Use 0])
       = (Returned tt,
          (r2, (tr ++ [Put (prefix r) Use 0])
               ++ [Put (prefix r) MinX (min_x r);
                   Put (prefix r) SizeX (size_x r);
                   Put (prefix r) Use 1]))
    /\ configured (min_x r) (size_x r) r2.
Proof.
  intros Hg. eexists (store Use 0 r), _. split; [reflexivity|].
  split; [done|]. split; [done|]. split; [done|]. split.
  - apply (configure_roi_changed (min_x r) (size_x r) (store Use 0 r) _ c).
    + unfold configured. cbn. intros (_ & _ & ?). done.
    + exact Hg.
  - apply configured_after.
Qed.

Lemma clear_then_configure_witness :
  exists r1 r2,
    clear (idle_roi, []) = (Returned tt, (r1, [Put "MCA1ROI:1:" Use 0]))
    /\ min_x r1 = 0 /\ size_x r1 = 0 /\ use_rbv r1 = 0
    /\ configure_roi 0 0 (r1, [Put "MCA1ROI:1:" Use 0])
       = (Returned tt,
          (r2, [Put "MCA1ROI:1:" Use 0; Put "MCA1ROI:1:" MinX 0;
                Put "MCA1ROI:1:" SizeX 0; Put "MCA1ROI:1:" Use 1]))
    /\ configured 0 0 r2.
Proof.
  apply (clear_then_configure idle_roi [] 1). reflexivity.
Defined.

End Roi.

(** ** Decimal formatting: what the f-strings produce *)

Module Fmt.

Lemma int_of_str_of_int (z : Z) : int_of_str (str_of_int z) = Some z.
Proof.
  unfold int_of_str, str_of_int. rewrite NilEmpty.isi.
  rewrite <- (DecimalZ.of_to z) at 2.
  destruct z as [|p|p]; simpl; [done| |];
    pose proof (DecimalPos.Unsigned.to_uint_nonnil p);
    by destruct (Pos.to_uint p).
Qed.

Lemma str_of_int_inj (a b : Z) : str_of_int a = str_of_int b -> a = b.
Proof.
  intros H. apply (f_equal int_of_str) in H.
  rewrite !int_of_str_of_int in H. by simplify_eq.
Qed.

Lemma int_of_str_format_02d (z : Z) : int_of_str (format_02d z) = Some z.
Proof.
  unfold format_02d. case_match eqn:Hlen; [|apply int_of_str_of_int].
  unfold int_of_str, str_of_int in *.
  destruct z as [|p|p]; [done| |].
  - cbn [Z.to_int NilEmpty.string_of_int NilEmpty.int_of_string
         NilEmpty.uint_of_string Ascii.eqb Bool.eqb].
    rewrite NilEmpty.usu. cbn [uint_of_char option_map].
    unfold Z.of_int, Z.of_uint. cbn [Pos.of_uint].
    by rewrite DecimalPos.Unsigned.of_to.
  - exfalso. simpl in Hlen.
    pose proof (DecimalPos.Unsigned.to_uint_nonnil p).
    by destruct (Pos.to_uint p).
Qed.

Lemma format_02d_inj (a b : Z) : format_02d a = format_02d b -> a = b.
Proof.
  intros H. apply (f_equal int_of_str) in H.
  rewrite !int_of_str_format_02d in H. by simplify_eq.
Qed.

Lemma append_assoc (a b c : string) : (a +:+ b) +:+ c = a +:+ b +:+ c.
Proof.
  induction a as [|x a IH]; [done|].
  change (String x ((a +:+ b) +:+ c) = String x (a +:+ b +:+ c)).
  by rewrite IH.
Qed.

Lemma substring_all (s : string) : String.substring 0 (String.length s) s = s.
Proof. induction s as [|x s IH]; simpl; [done|]. by rewrite IH. Qed.

End Fmt.

(** ** The memoised class builders *)

Module Builder.

(** The ophyd device classes the generated channel class is made of. *)
Inductive device_class := Sca | Mca | McaSum | McaRoi.

(** [Cpt(cls, suffix)], and an entry [(cls, suffix, dict())] of a
    [DynamicDeviceCpt] definition. *)
Record component := Cpt { cpt_class : device_class; cpt_suffix : string }.

(** The namespace of the class that [build_channel_class] creates. *)
Record channel_class := {
  class_name : string;
  channel_num : Z;
  sca : component;
  mca : component;
  mca_sum : component;
  mcarois : odict string component
}.

(** A base class of a generated detector class: [Xspress3Detector] itself
    or a class object handed in through [parent_classes]. Class objects
    are compared and hashed by identity, here their address. *)
Inductive base_class := Xspress3Detector | ClassAt (addr : nat).

(** The namespace of the class that [build_detector_class] creates: the
    default values of the soft signals and, per channel attribute, the
    address of its channel class. *)
Record detector_class := {
  det_class_name : string;
  bases : list base_class;
  external_trig : pyval;
  total_points : pyval;
  spectra_per_point : pyval;
  make_directories : pyval;
  rewindable : pyval;
  channels : odict string nat
}.

Inductive py_class :=
| ChannelClass (c : channel_class)
| DetectorClass (d : detector_class).

#[global] Instance device_class_eq_dec : EqDecision device_class.
Proof. solve_decision. Defined.
#[global] Instance component_eq_dec : EqDecision component.
Proof. solve_decision. Defined.
#[global] Instance base_class_eq_dec : EqDecision base_class.
Proof. solve_decision. Defined.

(** [range(a, b)] *)
Definition range (a b : Z) : list Z := seqZ a (b - a).

(** [{key(i): value(i) for i in xs}]: items are inserted in order, an item
    with a key already present replaces that key's value. *)
Definition dict_of {A V} (key : A -> string) (value : A -> V) (xs : list A)
  : odict string V :=
  foldl (fun d i => od_set (key i) (value i) d) [] xs.

(** [OrderedDict(items)] *)
Definition dict_of_items {V} (items : list (string * V)) : odict string V :=
  dict_of fst snd items.

Definition mcaroi_attr (mcaroi_i : Z) : string := "mcaroi" +:+ format_02d mcaroi_i.

(** The arguments of the [type(...)] call in [build_channel_class]. *)
Definition channel_class_body (channel_num roi_count : Z) : channel_class :=
  {| class_name :=
       "Xspress3Channel_" +:+ str_of_int channel_num +:+ "_with_"
         +:+ str_of_int roi_count +:+ "_rois";
     channel_num := channel_num;
     sca := Cpt Sca ("C" +:+ str_of_int channel_num +:+ "SCA:");
     mca := Cpt Mca ("MCA" +:+ str_of_int channel_num +:+ ":");
     mca_sum := Cpt McaSum ("MCA" +:+ str_of_int channel_num +:+ "SUM:");
     mcarois :=
       dict_of mcaroi_attr
         (fun mcaroi_i =>
            Cpt McaRoi ("MCA" +:+ str_of_int channel_num +:+ "ROI:"
                          +:+ str_of_int mcaroi_i +:+ ":"))
         (range 1 (roi_count + 1)) |}.

(** *** [functools.lru_cache]

    Used as a bare decorator, [functools.lru_cache] wraps the function in a
    cache of [maxsize = 128] entries, keyed by the call's positional and
    keyword arguments as they were passed. The cache is kept in recency
    order, most recently used first. *)
Section Lru.
Context {K V : Type} `{EqDecision K}.

Definition maxsize : nat := 128.

(** A hit moves the entry to the front. *)
Definition lru_touch (k : K) (c : list (K * V)) : list (K * V) :=
  match od_get k c with
  | Some v => (k, v) :: od_pop k c
  | None => c
  end.

(** After a miss the result is stored, unless the key appeared meanwhile;
    a full cache first drops its least recently used entry. *)
Definition lru_store (k : K) (v : V) (c : list (K * V)) : list (K * V) :=
  match od_get k c with
  | Some _ => c
  | None =>
      if (maxsize <=? length c)%nat then (k, v) :: removelast c
      else (k, v) :: c
  end.

End Lru.

(** How a call passes its arguments: the cache key of [f(a, b)] differs
    from that of [f(x=a, y=b)]. *)
Inductive call_style := Positional | Keyword.

(** A call of [build_channel_class] with integer arguments, both passed by
    position or both by keyword (in the order of the parameters). *)
Record channel_call := ChannelCall {
  chan_style : call_style;
  chan_channel_num : Z;
  chan_roi_count : Z
}.

(** What is passed for [parent_classes]: [None], a tuple of classes, or a
    list of classes. *)
Inductive parents_value :=
| NoParents
| ParentTuple (l : list nat)
| ParentList (l : list nat).

Inductive parents_arg :=
| Omitted
| ByPosition (v : parents_value)
| ByKeyword (v : parents_value).

(** A call of [build_detector_class] with integer counts passed by
    position. *)
Record detector_call := DetectorCall {
  det_channel_count : Z;
  det_roi_count : Z;
  det_parent_classes : parents_arg
}.

#[global] Instance call_style_eq_dec : EqDecision call_style.
Proof. solve_decision. Defined.
#[global] Instance channel_call_eq_dec : EqDecision channel_call.
Proof. solve_decision. Defined.
#[global] Instance parents_value_eq_dec : EqDecision parents_value.
Proof. solve_decision. Defined.
#[global] Instance parents_arg_eq_dec : EqDecision parents_arg.
Proof. solve_decision. Defined.
#[global] Instance detector_call_eq_dec : EqDecision detector_call.
Proof. solve_decision. Defined.

(** The interpreter state the builders work on: the class objects created
    so far (a class object's identity is its address in [heap]) and the
    caches of the two decorated functions. *)
Record interp := Interp {
  heap : list py_class;
  channel_cache : list (channel_call * nat);
  detector_cache : list (detector_call * nat)
}.

Definition init : interp := Interp [] [] [].

Definition set_channel_cache (c : list (channel_call * nat)) (st : interp) :=
  Interp (heap st) c (detector_cache st).
Definition set_detector_cache (c : list (detector_call * nat)) (st : interp) :=
  Interp (heap st) (channel_cache st) c.

(** [type(name, bases, namespace)]: a new class object. *)
Definition new_type (cls : py_class) : M interp nat :=
  fun st => (Returned (length (heap st)),
             Interp (heap st ++ [cls]) (channel_cache st) (detector_cache st)).

(** The wrapper [functools.lru_cache] puts around [user_function]. *)
Definition lru_cache {K} `{EqDecision K}
    (cache_of : interp -> list (K * nat))
    (set_cache : list (K * nat) -> interp -> interp)
    (user_function : K -> M interp nat) (key : K) : M interp nat :=
  c ← Py.gets cache_of;
  match od_get key c with
  | Some result =>
      Py.modify (fun st => set_cache (lru_touch key (cache_of st)) st);;
      mret result
  | None =>
      result ← user_function key;
      Py.modify (fun st => set_cache (lru_store key result (cache_of st)) st);;
      mret result
  end.

Definition build_channel_class : channel_call -> M interp nat :=
  lru_cache channel_cache set_channel_cache
    (fun k => new_type (ChannelClass
                 (channel_class_body (chan_channel_num k) (chan_roi_count k)))).

(** [for x in xs], collecting results *)
Fixpoint for_each {S A B} (f : A -> M S B) (xs : list A) : M S (list B) :=
  match xs with
  | [] => mret []
  | x :: xs' => y ← f x; ys ← for_each f xs'; mret (y :: ys)
  end.

Definition parents_value_of (a : parents_arg) : parents_value :=
  match a with
  | Omitted => NoParents
  | ByPosition v | ByKeyword v => v
  end.

(** The classes handed in through [parent_classes]; [None] stands for
    none. *)
Definition parent_classes_of (k : detector_call) : list nat :=
  match parents_value_of (det_parent_classes k) with
  | NoParents => []
  | ParentTuple l | ParentList l => l
  end.

(** The arguments of the [type(...)] call in [build_detector_class], the
    channel classes being built already. *)
Definition detector_namespace (k : detector_call) (chans : list (string * nat))
  : detector_class :=
  {| det_class_name :=
       "Xspress3Detector_" +:+ str_of_int (det_channel_count k) +:+ "channel_"
         +:+ str_of_int (det_roi_count k) +:+ "roi";
     bases := Xspress3Detector :: (ClassAt <$> parent_classes_of k);
     external_trig := PBool false;
     total_points := PInt (-1);
     spectra_per_point := PInt 1;
     make_directories := PBool false;
     rewindable := PBool false;
     channels := dict_of_items chans |}.

(** The body of [build_detector_class]: the namespace is evaluated first,
    which builds (or fetches) the channel classes in order, by keyword
    call; then the class is created. *)
Definition detector_class_body (k : detector_call) : M interp nat :=
  chans ← for_each
    (fun c =>
       cls ← build_channel_class (ChannelCall Keyword c (det_roi_count k));
       mret ("channel_" +:+ str_of_int c, cls))
    (range 1 (det_channel_count k + 1));
  new_type (DetectorClass (detector_namespace k chans)).

(** The cache key hashes each argument: a list is unhashable. *)
Definition build_detector_class (k : detector_call) : M interp nat :=
  match parents_value_of (det_parent_classes k) with
  | ParentList _ => Py.raise (TypeError "unhashable type: 'list'")
  | _ => lru_cache detector_cache set_detector_cache detector_class_body k
  end.

(** A call of one of the two builders, and a session of calls. *)
Inductive builder_call :=
| CallChannel (k : channel_call)
| CallDetector (k : detector_call).

Definition run_call (c : builder_call) : M interp nat :=
  match c with
  | CallChannel k => build_channel_class k
  | CallDetector k => build_detector_class k
  end.

(** The interpreter after a session; a call that raises leaves the caches
    as they are at that point and the session goes on. *)
Definition run_calls (cs : list builder_call) (st : interp) : interp :=
  foldl (fun st c => (run_call c st).2) st cs.

(** The keys a call may look up in the cache of [build_channel_class]. *)
Definition touched_channel_keys (c : builder_call) : list channel_call :=
  match c with
  | CallChannel k => [k]
  | CallDetector d =>
      (fun c => ChannelCall Keyword c (det_roi_count d))
        <$> range 1 (det_channel_count d + 1)
  end.

(** The keys a call may look up in the cache of [build_detector_class]. *)
Definition touched_detector_keys (c : builder_call) : list detector_call :=
  match c with
  | CallChannel _ => []
  | CallDetector d => [d]
  end.

(** Fewer than [maxsize] distinct keys other than [k] among [ks]. *)
Definition few_others {K} `{EqDecision K} (k : K) (ks : list K) : Prop :=
  (length (remove_dups (filter (fun k' => k' ≠ k) ks)) < maxsize)%nat.

(** The index [i] written with two decimal digits. *)
Definition two_digits (i : Z) : string :=
  String (ascii_of_nat (48 + Z.to_nat (i / 10)))
    (String (ascii_of_nat (48 + Z.to_nat (i mod 10))) EmptyString).

(** *** Facts about the cache as a recency list *)

Section LruFacts.
Context {K V : Type} `{EqDecision K}.
Implicit Types (k : K) (v : V) (c : list (K * V)) (S : list K).

(** The keys used more recently than [k]. *)
Fixpoint ahead k c : list K :=
  match c with
  | [] => []
  | (k', _) :: c' => if decide (k = k') then [] else k' :: ahead k c'
  end.

Definition lru_wf c : Prop := NoDup c.*1 /\ (length c <= maxsize)%nat.

(** [k] is cached with value [v], and only keys of [S] are ahead of it. *)
Definition kept k v S c : Prop :=
  lru_wf c /\ od_get k c = Some v /\ ahead k c ⊆ S.

Lemma od_get_None_keys k c : od_get k c = None <-> k ∉ c.*1.
Proof.
  induction c as [|[k0 v0] c IH]; simpl.
  - split; [intros _; apply not_elem_of_nil | done].
  - rewrite not_elem_of_cons. destruct (decide (k = k0)); [|tauto].
    split; [done | tauto].
Qed.

Lemma od_get_Some_keys k v c : od_get k c = Some v -> k ∈ c.*1.
Proof.
  intros Hg. destruct (decide (k ∈ c.*1)) as [|Hn]; [done|].
  apply od_get_None_keys in Hn. congruence.
Qed.

Lemma od_pop_keys_subseteq k c : (od_pop k c).*1 ⊆ c.*1.
Proof.
  induction c as [|[k0 v0] c IH]; simpl; [done|].
  destruct (decide (k = k0)); simpl.
  - by apply list_subseteq_cons.
  - intros x [->|Hx]%elem_of_cons; [left | right; by apply IH].
Qed.

Lemma od_pop_length k v c :
  od_get k c = Some v -> S (length (od_pop k c)) = length c.
Proof.
  induction c as [|[k0 v0] c IH]; simpl; [done|].
  destruct (decide (k = k0)); simpl; [done|]. intros Hg. by rewrite IH.
Qed.

Lemma ahead_pop_subseteq k k' c :
  k' ≠ k -> ahead k (od_pop k' c) ⊆ ahead k c.
Proof.
  intros Hkk. induction c as [|[k0 v0] c IH]; simpl; [done|].
  destruct (decide (k' = k0)) as [->|Hne]; simpl.
  - rewrite decide_False by done. by apply list_subseteq_cons.
  - destruct (decide (k = k0)); [done|].
    intros x [->|Hx]%elem_of_cons; [left | right; by apply IH].
Qed.

Lemma ahead_keys k c : ahead k c ⊆ c.*1.
Proof.
  induction c as [|[k0 v0] c IH]; simpl; [done|].
  destruct (decide (k = k0)); [apply list_subseteq_nil|].
  intros x [->|Hx]%elem_of_cons; [left | right; by apply IH].
Qed.

Lemma ahead_NoDup k c : NoDup c.*1 -> NoDup (ahead k c).
Proof.
  induction c as [|[k0 v0] c IH]; simpl; [done|].
  intros [Hnotin Hnd]%NoDup_cons.
  destruct (decide (k = k0)); [apply NoDup_nil_2|].
  apply NoDup_cons. split; [|by apply IH].
  intros Hin. by apply Hnotin, (ahead_keys k).
Qed.

Lemma ahead_length k v c :
  od_get k c = Some v -> (length (ahead k c) < length c)%nat.
Proof.
  induction c as [|[k0 v0] c IH]; simpl; [done|].
  destruct (decide (k = k0)); simpl; [lia|]. intros Hg.
  specialize (IH Hg). lia.
Qed.

Lemma removelast_cons {A} (x : A) (l : list A) :
  l ≠ [] -> removelast (x :: l) = x :: removelast l.
Proof. by destruct l. Qed.

Lemma removelast_keeps k v c :
  od_get k c = Some v ->
  (S (length (ahead k c)) < length c)%nat ->
  od_get k (removelast c) = Some v /\ ahead k (removelast c) = ahead k c.
Proof.
  induction c as [|[k0 v0] c IH]; [done|].
  intros Hg Hlen.
  assert (c ≠ []) as Hne.
  { intros ->. simpl in *. destruct (decide (k = k0)); simpl in *; lia. }
  rewrite removelast_cons by done.
  cbn [od_get ahead length] in *.
  destruct (decide (k = k0)); [done|].
  cbn [length] in Hlen. destruct IH as [IH1 IH2]; [done|lia|].
  by rewrite IH1, IH2.
Qed.

Lemma removelast_keys_NoDup c : NoDup c.*1 -> NoDup (removelast c).*1.
Proof.
  induction c as [|[k0 v0] c IH]; [done|].
  intros [Hnotin Hnd]%NoDup_cons. destruct c as [|e c']; [apply NoDup_nil_2|].
  change (removelast ((k0, v0) :: e :: c'))
    with ((k0, v0) :: removelast (e :: c')).
  rewrite fmap_cons. apply NoDup_cons. split; [|by apply IH].
  intros Hin. apply Hnotin. clear -Hin.
  revert e Hin. induction c' as [|e' c' IH']; intros e Hin.
  - simpl in Hin. by apply elem_of_nil in Hin.
  - change (removelast (e :: e' :: c')) with (e :: removelast (e' :: c')) in Hin.
    rewrite fmap_cons in Hin. apply elem_of_cons in Hin as [->|Hin].
    + left.
    + right. by apply IH'.
Qed.

Lemma removelast_length_pred c : length (removelast c) = pred (length c).
Proof.
  induction c as [|e c IH]; [done|]. destruct c as [|e' c']; [done|].
  change (removelast (e :: e' :: c')) with (e :: removelast (e' :: c')).
  cbn [length] in *. rewrite IH. done.
Qed.

Lemma removelast_keys_subseteq c : (removelast c).*1 ⊆ c.*1.
Proof.
  induction c as [|e c IH]; [done|]. destruct c as [|e' c'].
  - apply list_subseteq_nil.
  - change (removelast (e :: e' :: c')) with (e :: removelast (e' :: c')).
    rewrite !fmap_cons.
    intros x [->|Hx]%elem_of_cons; [left | right; by apply IH].
Qed.

Lemma lru_touch_wf k c : lru_wf c -> lru_wf (lru_touch k c).
Proof.
  intros [Hnd Hlen]. unfold lru_touch.
  destruct (od_get k c) as [v|] eqn:Hg; [|done]. split.
  - simpl. apply NoDup_cons. split; [|by apply od_pop_keys_NoDup].
    apply od_get_None_keys. by apply od_get_pop_eq.
  - simpl. rewrite (od_pop_length k v) by done. done.
Qed.

Lemma lru_store_wf k v c : lru_wf c -> lru_wf (lru_store k v c).
Proof.
  intros [Hnd Hlen]. unfold lru_store.
  destruct (od_get k c) as [v'|] eqn:Hg; [done|].
  apply od_get_None_keys in Hg.
  destruct (maxsize <=? length c)%nat eqn:Hfull.
  - apply Nat.leb_le in Hfull. split.
    + simpl. apply NoDup_cons. split; [|by apply removelast_keys_NoDup].
      intros Hin. by apply Hg, removelast_keys_subseteq.
    + simpl. rewrite removelast_length_pred. unfold maxsize in *. lia.
  - apply Nat.leb_gt in Hfull. split.
    + simpl. by apply NoDup_cons.
    + simpl. lia.
Qed.

Lemma kept_touch_same k v S c :
  lru_wf c -> od_get k c = Some v -> kept k v S (lru_touch k c).
Proof.
  intros Hwf Hg. split; [by apply lru_touch_wf|].
  unfold lru_touch. rewrite Hg. simpl. rewrite !decide_True by done.
  split; [done | apply list_subseteq_nil].
Qed.

Lemma kept_store_same k v S c :
  lru_wf c -> od_get k c = None -> kept k v S (lru_store k v c).
Proof.
  intros Hwf Hg. split; [by apply lru_store_wf|].
  unfold lru_store. rewrite Hg.
  destruct (maxsize <=? length c)%nat; simpl; rewrite !decide_True by done;
    (split; [done | apply list_subseteq_nil]).
Qed.

Lemma kept_touch_other k v S k' c :
  k' ≠ k -> k' ∈ S -> kept k v S c -> kept k v S (lru_touch k' c).
Proof.
  intros Hne Hin (Hwf & Hg & Hsub). split; [by apply lru_touch_wf|].
  unfold lru_touch. destruct (od_get k' c) as [v'|] eqn:Hg'; [|done].
  simpl. rewrite !decide_False by done. split.
  - by rewrite od_get_pop_ne.
  - intros x [->|Hx]%elem_of_cons; [done|].
    by apply Hsub, (ahead_pop_subseteq k k').
Qed.

Lemma kept_bound k v S c :
  kept k v S c -> (length (ahead k c) <= length (remove_dups S))%nat.
Proof.
  intros ([Hnd _] & _ & Hsub).
  apply submseteq_length, NoDup_submseteq; [by apply ahead_NoDup|].
  intros x Hx. apply elem_of_remove_dups. by apply Hsub.
Qed.

Lemma kept_store_other k v S k' v' c :
  k' ≠ k -> k' ∈ S -> (length (remove_dups S) < maxsize)%nat ->
  kept k v S c -> kept k v S (lru_store k' v' c).
Proof.
  intros Hne Hin Hfew Hk. pose proof Hk as (Hwf & Hg & Hsub).
  split; [by apply lru_store_wf|].
  unfold lru_store. destruct (od_get k' c) as [v0|] eqn:Hg'; [done|].
  assert (k' ∉ ahead k c) as Hfresh.
  { intros Hx%ahead_keys. by apply od_get_None_keys in Hg'. }
  assert (ahead k c ⊆ S) as Hsub' by done.
  assert (length (k' :: ahead k c) <= length (remove_dups S))%nat as Hlen.
  { apply submseteq_length, NoDup_submseteq.
    - apply NoDup_cons. split; [done|]. apply ahead_NoDup, Hwf.
    - intros x [->|Hx]%elem_of_cons; apply elem_of_remove_dups; auto. }
  simpl in Hlen.
  destruct (maxsize <=? length c)%nat eqn:Hfull.
  - apply Nat.leb_le in Hfull.
    destruct (removelast_keeps k v c) as [Hg2 Ha2]; [done|lia|].
    simpl. rewrite !decide_False by done. rewrite Hg2, Ha2. split; [done|].
    intros x [->|Hx]%elem_of_cons; auto.
  - simpl. rewrite !decide_False by done. split; [done|].
    intros x [->|Hx]%elem_of_cons; auto.
Qed.

End LruFacts.

(** *** The builders, step by step *)

Lemma build_channel_class_run (k : channel_call) (st : interp) :
  build_channel_class k st =
  match od_get k (channel_cache st) with
  | Some i =>
      (Returned i, set_channel_cache (lru_touch k (channel_cache st)) st)
  | None =>
      (Returned (length (heap st)),
       Interp (heap st ++ [ChannelClass (channel_class_body
                                           (chan_channel_num k)
                                           (chan_roi_count k))])
              (lru_store k (length (heap st)) (channel_cache st))
              (detector_cache st))
  end.
Proof.
  unfold build_channel_class, lru_cache, new_type. munfold. cbn.
  by destruct (od_get k (channel_cache st)).
Qed.

(** A property of the interpreter that every call of [build_channel_class]
    with a key in [T] keeps also survives the loop over the channels. *)
Lemma for_each_channel_preserves (P : interp -> Prop) (T : channel_call -> Prop)
    (roi_count : Z) (cs : list Z) (st : interp) :
  (forall k st, T k -> P st -> P (build_channel_class k st).2) ->
  Forall (fun c => T (ChannelCall Keyword c roi_count)) cs ->
  P st ->
  exists chans st',
    for_each (fun c =>
                cls ← build_channel_class (ChannelCall Keyword c roi_count);
                mret ("channel_" +:+ str_of_int c, cls)) cs st
    = (Returned chans, st') /\ P st'.
Proof.
  intros Hstep. revert st. induction cs as [|c cs IH]; intros st HT HP.
  - exists [], st. done.
  - apply Forall_cons in HT as [Hc HT].
    pose proof (Hstep _ st Hc HP) as HP1.
    pose proof (build_channel_class_run (ChannelCall Keyword c roi_count) st) as Hrun.
    destruct (build_channel_class (ChannelCall Keyword c roi_count) st)
      as [o st1] eqn:E.
    assert (exists i, o = Returned i) as [i ->].
    { destruct (od_get _ _); simplify_eq; eauto. }
    simpl in HP1. destruct (IH st1 HT HP1) as (chans & st' & Hfe & HP').
    exists (("channel_" +:+ str_of_int c, i) :: chans), st'. split; [|done].
    cbn [for_each]. rewrite !run_bind, E. cbn. rewrite run_bind, Hfe. done.
Qed.

Lemma build_detector_class_preserves (P : interp -> Prop)
    (T : channel_call -> Prop) (k : detector_call) (st : interp) :
  (forall k' st, T k' -> P st -> P (build_channel_class k' st).2) ->
  (forall st i, od_get k (detector_cache st) = Some i -> P st ->
     P (set_detector_cache (lru_touch k (detector_cache st)) st)) ->
  (forall st chans, od_get k (detector_cache st) = None -> P st ->
     P (Interp (heap st ++ [DetectorClass (detector_namespace k chans)])
               (channel_cache st)
               (lru_store k (length (heap st)) (detector_cache st)))) ->
  (forall k' st, od_get k (detector_cache st) = None ->
     od_get k (detector_cache (build_channel_class k' st).2) = None) ->
  Forall T (touched_channel_keys (CallDetector k)) ->
  P st -> P (build_detector_class k st).2.
Proof.
  intros Hchan Htouch Hstore Hframe HT HP.
  unfold build_detector_class.
  destruct (parents_value_of (det_parent_classes k)) eqn:Hpv; try done.
  all: unfold lru_cache; munfold; cbn.
  all: destruct (od_get k (detector_cache st)) as [i|] eqn:Hg; cbn;
    [by eapply Htouch|].
  all: unfold detector_class_body; rewrite !run_bind.
  all: destruct (for_each_channel_preserves
        (fun st' => P st' /\ od_get k (detector_cache st') = None) T
        (det_roi_count k) (range 1 (det_channel_count k + 1)) st)
      as (chans & st' & Hfe & HP' & Hg');
    [ intros k' st0 Hk' [? ?]; split; [by apply Hchan | by apply Hframe]
    | simpl in HT; rewrite Forall_fmap in HT; exact HT
    | done
    | ].
  all: rewrite Hfe; cbn; unfold set_detector_cache; cbn.
  all: by apply Hstore.
Qed.

Lemma build_channel_class_detector_cache (k : channel_call) (st : interp) :
  detector_cache (build_channel_class k st).2 = detector_cache st.
Proof.
  rewrite build_channel_class_run. by destruct (od_get k (channel_cache st)).
Qed.

(** A property of the channel cache alone that hits and stores with keys in
    [T] keep is kept by every builder call that touches keys in [T] only. *)
Definition cache_stable {K} `{EqDecision K} (P : list (K * nat) -> Prop)
    (T : K -> Prop) : Prop :=
  (forall k i c, T k -> od_get k c = Some i -> P c -> P (lru_touch k c))
  /\ (forall k i c, T k -> od_get k c = None -> P c -> P (lru_store k i c)).

Lemma build_channel_class_stable P T (k : channel_call) (st : interp) :
  cache_stable P T -> T k ->
  P (channel_cache st) -> P (channel_cache (build_channel_class k st).2).
Proof.
  intros [Ht Hs] Hk HP. rewrite build_channel_class_run.
  destruct (od_get k (channel_cache st)) as [i|] eqn:Hg; simpl; eauto.
Qed.

Lemma run_call_channel_stable P T (c : builder_call) (st : interp) :
  cache_stable P T -> Forall T (touched_channel_keys c) ->
  P (channel_cache st) -> P (channel_cache (run_call c st).2).
Proof.
  intros Hst HT HP. destruct c as [k|k]; simpl.
  - simpl in HT. rewrite Forall_singleton in HT.
    exact (build_channel_class_stable P T k st Hst HT HP).
  - apply (build_detector_class_preserves (fun st => P (channel_cache st)) T);
      try done.
    + intros k' st0 Hk' HP0.
      exact (build_channel_class_stable P T k' st0 Hst Hk' HP0).
    + intros k' st0 Hg. by rewrite build_channel_class_detector_cache.
Qed.

Lemma run_calls_channel_stable P T (cs : list builder_call) (st : interp) :
  cache_stable P T -> Forall T (cs ≫= touched_channel_keys) ->
  P (channel_cache st) -> P (channel_cache (run_calls cs st)).
Proof.
  intros Hst. revert st. induction cs as [|c cs IH]; intros st HT HP; [done|].
  rewrite bind_cons in HT. apply Forall_app in HT as [Hc HT].
  unfold run_calls. cbn [foldl]. apply IH; [done|].
  by eapply run_call_channel_stable.
Qed.

Lemma run_call_detector_stable P T (c : builder_call) (st : interp) :
  cache_stable P T -> Forall T (touched_detector_keys c) ->
  P (detector_cache st) -> P (detector_cache (run_call c st).2).
Proof.
  intros [Ht Hs] HT HP. destruct c as [k|k]; simpl.
  - by rewrite build_channel_class_detector_cache.
  - simpl in HT. rewrite Forall_singleton in HT.
    apply (build_detector_class_preserves
             (fun st => P (detector_cache st)) (fun _ => True)); try done.
    + intros k' st0 _ HP0. by rewrite build_channel_class_detector_cache.
    + intros st0 i Hg HP0. simpl. eauto.
    + intros st0 chans Hg HP0. simpl. eauto.
    + intros k' st0 Hg. by rewrite build_channel_class_detector_cache.
    + by apply Forall_true.
Qed.

Lemma run_calls_detector_stable P T (cs : list builder_call) (st : interp) :
  cache_stable P T -> Forall T (cs ≫= touched_detector_keys) ->
  P (detector_cache st) -> P (detector_cache (run_calls cs st)).
Proof.
  intros Hst. revert st. induction cs as [|c cs IH]; intros st HT HP; [done|].
  rewrite bind_cons in HT. apply Forall_app in HT as [Hc HT].
  unfold run_calls. cbn [foldl]. apply IH; [done|].
  by eapply run_call_detector_stable.
Qed.

Lemma lru_wf_stable {K} `{EqDecision K} :
  cache_stable (lru_wf (K := K) (V := nat)) (fun _ => True).
Proof.
  split; intros k i c _ _ Hwf; [by apply lru_touch_wf | by apply lru_store_wf].
Qed.

Lemma kept_stable {K} `{EqDecision K} (k : K) (i : nat) (S : list K) :
  (length (remove_dups S) < maxsize)%nat ->
  cache_stable (kept k i S) (fun k' => k' = k \/ k' ∈ S).
Proof.
  intros Hfew. split; intros k' i' c Hk' Hg Hkept.
  - destruct (decide (k' = k)) as [->|Hne].
    + destruct Hkept as (Hwf & Hg' & _). by apply kept_touch_same.
    + destruct Hk' as [?|Hin]; [done|]. by apply kept_touch_other.
  - destruct (decide (k' = k)) as [->|Hne].
    + destruct Hkept as (_ & Hg' & _). congruence.
    + destruct Hk' as [?|Hin]; [done|]. by apply kept_store_other.
Qed.

(** Every state of a session has well-formed caches. *)
Lemma run_calls_wf (cs : list builder_call) :
  lru_wf (channel_cache (run_calls cs init))
  /\ lru_wf (detector_cache (run_calls cs init)).
Proof.
  assert (lru_wf (V := nat) (K := channel_call) []) as Hc
    by (split; [apply NoDup_nil_2 | simpl; unfold maxsize; lia]).
  assert (lru_wf (V := nat) (K := detector_call) []) as Hd
    by (split; [apply NoDup_nil_2 | simpl; unfold maxsize; lia]).
  split.
  - apply (run_calls_channel_stable _ (fun _ => True)); [apply lru_wf_stable| |done].
    by apply Forall_true.
  - apply (run_calls_detector_stable _ (fun _ => True)); [apply lru_wf_stable| |done].
    by apply Forall_true.
Qed.

Lemma few_others_Forall {K} `{EqDecision K} (k : K) (ks : list K) :
  Forall (fun k' => k' = k \/ k' ∈ filter (fun k' => k' ≠ k) ks) ks.
Proof.
  apply Forall_forall. intros k' Hin.
  destruct (decide (k' = k)); [by left|]. right.
  by apply list_elem_of_filter.
Qed.

(** A channel class is handed out again as long as fewer than [maxsize]
    other keys were looked up since. *)
Lemma channel_class_reused (cs0 cs : list builder_call) (k : channel_call) :
  few_others k (cs ≫= touched_channel_keys) ->
  exists i st1 st3,
    build_channel_class k (run_calls cs0 init) = (Returned i, st1)
    /\ build_channel_class k (run_calls cs st1) = (Returned i, st3).
Proof.
  intros Hfew. set (S := filter (fun k' => k' ≠ k) (cs ≫= touched_channel_keys)).
  destruct (run_calls_wf cs0) as [Hwf _].
  set (st0 := run_calls cs0 init) in *.
  assert (exists i st1, build_channel_class k st0 = (Returned i, st1)
                        /\ kept k i S (channel_cache st1)) as (i & st1 & E1 & Hk).
  { rewrite build_channel_class_run.
    destruct (od_get k (channel_cache st0)) as [i|] eqn:Hg.
    - eexists _, _. split; [done|]. simpl. by apply kept_touch_same.
    - eexists _, _. split; [done|]. simpl. by apply kept_store_same. }
  exists i, st1. rewrite E1.
  assert (kept k i S (channel_cache (run_calls cs st1))) as (_ & Hg & _).
  { eapply run_calls_channel_stable; [by apply kept_stable| |done].
    apply few_others_Forall. }
  rewrite build_channel_class_run, Hg. eauto.
Qed.

(** The same for detector classes, for hashable arguments. *)
Lemma detector_class_reused (cs0 cs : list builder_call) (k : detector_call) :
  (forall l, parents_value_of (det_parent_classes k) ≠ ParentList l) ->
  few_others k (cs ≫= touched_detector_keys) ->
  exists i st1 st3,
    build_detector_class k (run_calls cs0 init) = (Returned i, st1)
    /\ build_detector_class k (run_calls cs st1) = (Returned i, st3).
Proof.
  intros Hhash Hfew.
  set (S := filter (fun k' => k' ≠ k) (cs ≫= touched_detector_keys)).
  destruct (run_calls_wf cs0) as [_ Hwf].
  set (st0 := run_calls cs0 init) in *.
  assert (forall st, build_detector_class k st
            = lru_cache detector_cache set_detector_cache detector_class_body k st)
    as Hbd.
  { intros st. unfold build_detector_class.
    destruct (parents_value_of (det_parent_classes k)) eqn:E; try done.
    by destruct (Hhash l). }
  assert (exists i st1, build_detector_class k st0 = (Returned i, st1)
                        /\ kept k i S (detector_cache st1)) as (i & st1 & E1 & Hk).
  { rewrite Hbd. unfold lru_cache. rewrite run_bind. cbn.
    destruct (od_get k (detector_cache st0)) as [i|] eqn:Hg.
    - eexists _, _. split; [done|]. simpl. by apply kept_touch_same.
    - unfold detector_class_body. rewrite !run_bind.
      destruct (for_each_channel_preserves
                  (fun st' => detector_cache st' = detector_cache st0)
                  (fun _ => True) (det_roi_count k)
                  (range 1 (det_channel_count k + 1)) st0)
        as (chans & st' & Hfe & Hdc);
        [ intros k' st _ <-; apply build_channel_class_detector_cache
        | by apply Forall_true | done | ].
      rewrite Hfe. cbn. eexists _, _. split; [done|]. simpl.
      rewrite Hdc. apply kept_store_same; [done|]. done. }
  exists i, st1. rewrite E1.
  assert (kept k i S (detector_cache (run_calls cs st1))) as (_ & Hg & _).
  { eapply run_calls_detector_stable; [by apply kept_stable| |done].
    apply few_others_Forall. }
  rewrite Hbd. unfold lru_cache. rewrite run_bind. cbn. rewrite Hg. cbn. eauto.
Qed.

(** *** What the heap holds for a cached class *)

Definition heap_ok (st : interp) : Prop :=
  (forall k i, od_get k (channel_cache st) = Some i ->
     heap st !! i = Some (ChannelClass (channel_class_body
                                          (chan_channel_num k)
                                          (chan_roi_count k))))
  /\ (forall k i, od_get k (detector_cache st) = Some i ->
        exists chans,
          heap st !! i = Some (DetectorClass (detector_namespace k chans))).

Section LruLookup.
Context {K V : Type} `{EqDecision K}.
Implicit Types (k : K) (v : V) (c : list (K * V)).

Lemma od_get_removelast k v c :
  od_get k (removelast c) = Some v -> od_get k c = Some v.
Proof.
  induction c as [|[k0 v0] c IH]; [done|].
  destruct (decide (c = [])) as [->|Hne]; [done|].
  rewrite removelast_cons by done. simpl.
  destruct (decide (k = k0)); [done | apply IH].
Qed.

Lemma od_get_lru_touch k k' v c :
  od_get k' (lru_touch k c) = Some v -> od_get k' c = Some v.
Proof.
  unfold lru_touch. destruct (od_get k c) as [v0|] eqn:Hg; [|done].
  simpl. destruct (decide (k' = k)) as [->|Hne]; [congruence|].
  by rewrite od_get_pop_ne.
Qed.

Lemma od_get_lru_store k k' v v' c :
  od_get k' (lru_store k v c) = Some v' ->
  (k' = k /\ v' = v /\ od_get k c = None) \/ od_get k' c = Some v'.
Proof.
  unfold lru_store. destruct (od_get k c) as [v0|] eqn:Hg; [by right|].
  destruct (maxsize <=? length c)%nat; simpl;
    (destruct (decide (k' = k)) as [->|Hne];
     [intros [= <-]; by left | intros Hr; right]); [|done].
  by apply od_get_removelast.
Qed.

End LruLookup.

Lemma run_calls_preserves (P : interp -> Prop) (cs : list builder_call)
    (st : interp) :
  (forall k st, P st -> P (build_channel_class k st).2) ->
  (forall k st i, od_get k (detector_cache st) = Some i -> P st ->
     P (set_detector_cache (lru_touch k (detector_cache st)) st)) ->
  (forall k st chans, od_get k (detector_cache st) = None -> P st ->
     P (Interp (heap st ++ [DetectorClass (detector_namespace k chans)])
               (channel_cache st)
               (lru_store k (length (heap st)) (detector_cache st)))) ->
  P st -> P (run_calls cs st).
Proof.
  intros Hchan Htouch Hstore. revert st.
  induction cs as [|c cs IH]; intros st HP; [done|].
  unfold run_calls. cbn [foldl]. apply IH.
  destruct c as [k|k]; simpl; [by apply Hchan|].
  apply (build_detector_class_preserves P (fun _ => True)); try done.
  - intros k' st0 _. apply Hchan.
  - apply Htouch.
  - apply Hstore.
  - intros k' st0 Hg. by rewrite build_channel_class_detector_cache.
  - by apply Forall_true.
Qed.

Lemma heap_ok_channel_step (k : channel_call) (st : interp) :
  heap_ok st -> heap_ok (build_channel_class k st).2.
Proof.
  intros [Hc Hd]. rewrite build_channel_class_run.
  destruct (od_get k (channel_cache st)) as [i|] eqn:Hg; simpl.
  - split; simpl; [|done].
    intros k' i' Hg'%od_get_lru_touch. by apply Hc.
  - split; simpl.
    + intros k' i' [(-> & -> & _)|Hg']%od_get_lru_store.
      * by rewrite lookup_app_r, Nat.sub_diag.
      * apply lookup_app_l_Some. by apply Hc.
    + intros k' i' Hg'. destruct (Hd _ _ Hg') as [chans Hh].
      exists chans. by apply lookup_app_l_Some.
Qed.

Lemma heap_ok_detector_touch (k : detector_call) (st : interp) :
  heap_ok st ->
  heap_ok (set_detector_cache (lru_touch k (detector_cache st)) st).
Proof.
  intros [Hc Hd]. split; simpl; [done|].
  intros k' i' Hg'%od_get_lru_touch. by apply Hd.
Qed.

Lemma heap_ok_detector_store (k : detector_call) (st : interp) chans :
  heap_ok st ->
  heap_ok (Interp (heap st ++ [DetectorClass (detector_namespace k chans)])
                  (channel_cache st)
                  (lru_store k (length (heap st)) (detector_cache st))).
Proof.
  intros [Hc Hd]. split; simpl.
  - intros k' i' Hg'. apply lookup_app_l_Some. by apply Hc.
  - intros k' i' [(-> & -> & _)|Hg']%od_get_lru_store.
    + exists chans. by rewrite lookup_app_r, Nat.sub_diag.
    + destruct (Hd _ _ Hg') as [chans' Hh].
      exists chans'. by apply lookup_app_l_Some.
Qed.

Lemma run_calls_heap_ok (cs : list builder_call) (st : interp) :
  heap_ok st -> heap_ok (run_calls cs st).
Proof.
  apply run_calls_preserves.
  - intros k st0. apply heap_ok_channel_step.
  - intros k st0 i _. apply heap_ok_detector_touch.
  - intros k st0 chans _. apply heap_ok_detector_store.
Qed.

Lemma heap_ok_init : heap_ok init.
Proof. split; intros k i; simpl; done. Qed.

(** Class objects are never dropped from the heap of the model. *)
Lemma build_channel_class_grows (k : channel_call) (st : interp) :
  heap st `prefix_of` heap (build_channel_class k st).2.
Proof.
  rewrite build_channel_class_run.
  destruct (od_get k (channel_cache st)); simpl; [done|].
  by apply prefix_app_r.
Qed.

Lemma run_calls_grows (cs : list builder_call) (st : interp) :
  heap st `prefix_of` heap (run_calls cs st).
Proof.
  apply (run_calls_preserves (fun st' => heap st `prefix_of` heap st')); [| | |done].
  - intros k st0 Hp. etrans; [done|]. apply build_channel_class_grows.
  - by intros k st0 i _ Hp.
  - intros k st0 chans _ Hp. simpl. etrans; [done|]. by apply prefix_app_r.
Qed.

Lemma build_channel_class_result (k : channel_call) (st st' : interp) (i : nat) :
  heap_ok st -> build_channel_class k st = (Returned i, st') ->
  heap st' !! i = Some (ChannelClass (channel_class_body
                                        (chan_channel_num k)
                                        (chan_roi_count k))).
Proof.
  intros [Hc _]. rewrite build_channel_class_run.
  destruct (od_get k (channel_cache st)) as [i0|] eqn:Hg; intros [= <- <-]; simpl.
  - by apply Hc.
  - by rewrite lookup_app_r, Nat.sub_diag.
Qed.

Lemma build_detector_class_result (k : detector_call) (st st' : interp) (i : nat) :
  heap_ok st -> build_detector_class k st = (Returned i, st') ->
  heap st `prefix_of` heap st'
  /\ exists chans,
       heap st' !! i = Some (DetectorClass (detector_namespace k chans)).
Proof.
  intros Hok. unfold build_detector_class.
  destruct (parents_value_of (det_parent_classes k)); try done.
  all: unfold lru_cache; rewrite run_bind; cbn.
  all: destruct (od_get k (detector_cache st)) as [i0|] eqn:Hg;
    [ intros [= <- <-]; split; [done|]; by apply Hok |].
  all: unfold detector_class_body; rewrite !run_bind.
  all: destruct (for_each_channel_preserves
        (fun st1 => heap st `prefix_of` heap st1) (fun _ => True)
        (det_roi_count k) (range 1 (det_channel_count k + 1)) st)
      as (chans & st1 & Hfe & Hp);
    [ intros k' st0 _ Hp; etrans; [done|]; apply build_channel_class_grows
    | by apply Forall_true | done | ].
  all: rewrite Hfe; cbn; intros [= <- <-]; simpl.
  all: split; [etrans; [done|]; by apply prefix_app_r|].
  all: exists chans; by rewrite lookup_app_r, Nat.sub_diag.
Qed.

(** *** Class names determine the shape *)

(** The characters of a formatted integer. *)
Definition numeric_char (a : ascii) : bool :=
  bool_decide (a ∈ ["-"; "0"; "1"; "2"; "3"; "4"; "5"; "6"; "7"; "8"; "9"]%char).

Fixpoint numeric (s : string) : bool :=
  match s with
  | EmptyString => true
  | String a s' => numeric_char a && numeric s'
  end.

Lemma str_of_int_numeric (z : Z) : numeric (str_of_int z) = true.
Proof.
  assert (forall d, numeric (NilEmpty.string_of_uint d) = true) as Hu
    by (induction d; simpl; done).
  unfold str_of_int. destruct (Z.to_int z); simpl; apply Hu.
Qed.

Lemma numeric_append_inj (s1 s2 t1 t2 : string) (a : ascii) :
  numeric s1 = true -> numeric s2 = true -> numeric_char a = false ->
  s1 +:+ String a t1 = s2 +:+ String a t2 -> s1 = s2 /\ t1 = t2.
Proof.
  revert s2. induction s1 as [|b s1 IH]; intros [|b2 s2]; simpl;
    intros H1 H2 Ha Heq.
  - by simplify_eq.
  - simplify_eq. apply andb_prop in H2 as [? ?]. congruence.
  - simplify_eq. apply andb_prop in H1 as [? ?]. congruence.
  - apply andb_prop in H1 as [? ?]. apply andb_prop in H2 as [? ?].
    injection Heq as Hb Htl. subst b2. destruct (IH s2) as [-> ->]; done.
Qed.

(** Cut an equation between two names at the character [a] that follows
    a formatted integer. *)
Ltac cut_name a :=
  simpl in *; simplify_eq;
  match goal with
  | H : (_ +:+ _)%string = (_ +:+ _)%string |- _ =>
      apply (numeric_append_inj _ _ _ _ a) in H as [? ?];
      [|apply str_of_int_numeric..|done]
  end.

Lemma channel_class_body_inj (c r c' r' : Z) :
  channel_class_body c r = channel_class_body c' r' -> c = c' /\ r = r'.
Proof.
  intros Heq. assert (c = c') as <- by exact (f_equal channel_num Heq).
  split; [done|]. apply (f_equal class_name) in Heq.
  cut_name "_"%char. simpl in *. simplify_eq. by apply Fmt.str_of_int_inj.
Qed.

Lemma ClassAt_fmap_inj (l l' : list nat) :
  ClassAt <$> l = ClassAt <$> l' -> l = l'.
Proof.
  revert l'. induction l as [|x l IH]; intros [|x' l']; simpl; try done.
  intros [= -> Hl]. f_equal. by apply IH.
Qed.

Lemma detector_namespace_inj (k k' : detector_call) chans chans' :
  detector_namespace k chans = detector_namespace k' chans' ->
  det_channel_count k = det_channel_count k'
  /\ det_roi_count k = det_roi_count k'
  /\ parent_classes_of k = parent_classes_of k'.
Proof.
  intros Heq. pose proof (f_equal det_class_name Heq) as Hn.
  pose proof (f_equal bases Heq) as Hb. clear Heq.
  assert (parent_classes_of k = parent_classes_of k') as Hp.
  { simpl in Hb. injection Hb as Hb. by apply ClassAt_fmap_inj. }
  clear Hb. cut_name "c"%char. cut_name "r"%char.
  split; [by apply Fmt.str_of_int_inj|]. split; [by apply Fmt.str_of_int_inj|].
  done.
Qed.

(** Calls with different shape arguments get different class objects. *)
Lemma channel_classes_distinct (cs0 cs : list builder_call)
    (k1 k2 : channel_call) (i j : nat) (st1 st3 : interp) :
  build_channel_class k1 (run_calls cs0 init) = (Returned i, st1) ->
  build_channel_class k2 (run_calls cs st1) = (Returned j, st3) ->
  (chan_channel_num k1, chan_roi_count k1)
    ≠ (chan_channel_num k2, chan_roi_count k2) ->
  i ≠ j.
Proof.
  intros E1 E2 Hne ->.
  pose proof (run_calls_heap_ok cs0 init heap_ok_init) as Hok0.
  pose proof (build_channel_class_result _ _ _ _ Hok0 E1) as H1.
  pose proof (heap_ok_channel_step k1 _ Hok0) as Hok1. rewrite E1 in Hok1.
  pose proof (run_calls_heap_ok cs _ Hok1) as Hok2.
  pose proof (build_channel_class_result _ _ _ _ Hok2 E2) as H2.
  assert (heap st1 `prefix_of` heap st3) as Hp.
  { etrans; [apply (run_calls_grows cs)|].
    pose proof (build_channel_class_grows k2 (run_calls cs st1)) as Hg.
    by rewrite E2 in Hg. }
  rewrite (prefix_lookup_Some _ _ _ _ H1 Hp) in H2.
  assert (channel_class_body (chan_channel_num k1) (chan_roi_count k1)
          = channel_class_body (chan_channel_num k2) (chan_roi_count k2)) as Hb
    by congruence.
  apply channel_class_body_inj in Hb as [? ?]. congruence.
Qed.

Lemma detector_classes_distinct (cs0 cs : list builder_call)
    (k1 k2 : detector_call) (i j : nat) (st1 st3 : interp) :
  build_detector_class k1 (run_calls cs0 init) = (Returned i, st1) ->
  build_detector_class k2 (run_calls cs st1) = (Returned j, st3) ->
  (det_channel_count k1, det_roi_count k1, parent_classes_of k1)
    ≠ (det_channel_count k2, det_roi_count k2, parent_classes_of k2) ->
  i ≠ j.
Proof.
  intros E1 E2 Hne ->.
  pose proof (run_calls_heap_ok cs0 init heap_ok_init) as Hok0.
  destruct (build_detector_class_result _ _ _ _ Hok0 E1) as (_ & ch1 & H1).
  assert (heap_ok st1) as Hok1.
  { change st1 with (Returned j, st1).2. rewrite <- E1.
    change (heap_ok (run_calls [CallDetector k1] (run_calls cs0 init))).
    by apply run_calls_heap_ok. }
  pose proof (run_calls_heap_ok cs _ Hok1) as Hok2.
  destruct (build_detector_class_result _ _ _ _ Hok2 E2) as (Hg & ch2 & H2).
  assert (heap st1 `prefix_of` heap st3) as Hp
    by (etrans; [apply (run_calls_grows cs)|done]).
  rewrite (prefix_lookup_Some _ _ _ _ H1 Hp) in H2.
  assert (detector_namespace k1 ch1 = detector_namespace k2 ch2) as Hb
    by congruence.
  apply detector_namespace_inj in Hb as (? & ? & ?). congruence.
Qed.

(** *** The ROI slots of a channel class *)

Lemma od_set_absent {V} (k : string) (v : V) (d : odict string V) :
  k ∉ d.*1 -> od_set k v d = d ++ [(k, v)].
Proof.
  induction d as [|[k0 v0] d IH]; simpl; [done|].
  intros [Hne Hnotin]%not_elem_of_cons.
  rewrite decide_False by done. by rewrite IH.
Qed.

Lemma dict_of_NoDup {A V} (key : A -> string) (value : A -> V) (xs : list A) :
  NoDup (key <$> xs) ->
  dict_of key value xs = (fun i => (key i, value i)) <$> xs.
Proof.
  unfold dict_of.
  assert (forall acc : odict string V,
            NoDup (acc.*1 ++ (key <$> xs)) ->
            foldl (fun d i => od_set (key i) (value i) d) acc xs
            = acc ++ ((fun i => (key i, value i)) <$> xs)) as Hgen.
  { induction xs as [|x xs IH]; intros acc Hnd; simpl.
    - by rewrite app_nil_r.
    - simpl in Hnd. rewrite od_set_absent.
      + rewrite IH.
        * by rewrite <- (assoc_L (++)).
        * rewrite fmap_app. simpl. by rewrite <- (assoc_L (++)).
      + apply NoDup_app in Hnd as (_ & Hdisj & _).
        intros Hin. apply (Hdisj _ Hin). left. }
  intros Hnd. by rewrite (Hgen []).
Qed.

Lemma mcaroi_attr_inj (a b : Z) : mcaroi_attr a = mcaroi_attr b -> a = b.
Proof.
  unfold mcaroi_attr. simpl. intros [= H]. by apply Fmt.format_02d_inj.
Qed.

Lemma mcarois_slots (c r : Z) :
  mcarois (channel_class_body c r)
  = (fun i => (mcaroi_attr i,
               Cpt McaRoi ("MCA" +:+ str_of_int c +:+ "ROI:"
                             +:+ str_of_int i +:+ ":")))
      <$> range 1 (r + 1).
Proof.
  unfold channel_class_body. cbn [mcarois]. apply dict_of_NoDup.
  apply NoDup_fmap_2_strong; [|apply NoDup_seqZ].
  intros a b _ _. apply mcaroi_attr_inj.
Qed.

(** Indices up to 99 are written with exactly two digits. *)
Lemma mcaroi_attr_two_digits (i : Z) :
  1 <= i <= 99 -> mcaroi_attr i = "mcaroi" +:+ two_digits i.
Proof.
  intros Hi.
  assert (Forall (fun i => mcaroi_attr i = "mcaroi" +:+ two_digits i)
                 (seqZ 1 99)) as Hall.
  { apply (bool_decide_unpack _). vm_compute. exact I. }
  rewrite Forall_forall in Hall. apply Hall.
  apply elem_of_seqZ. lia.
Qed.

Lemma channel_class_slots (c r i : Z) :
  0 <= r ->
  length (mcarois (channel_class_body c r)) = Z.to_nat r
  /\ (1 <= i <= r ->
      mcarois (channel_class_body c r) !! Z.to_nat (i - 1)
      = Some (mcaroi_attr i,
              Cpt McaRoi ("MCA" +:+ str_of_int c +:+ "ROI:"
                            +:+ str_of_int i +:+ ":"))).
Proof.
  intros Hr. rewrite mcarois_slots. unfold range. split.
  - rewrite length_fmap, length_seqZ. f_equal. lia.
  - intros Hi.
    apply (list_lookup_fmap_Some_2
             (fun i => (mcaroi_attr i,
                        Cpt McaRoi ("MCA" +:+ str_of_int c +:+ "ROI:"
                                      +:+ str_of_int i +:+ ":")))).
    apply lookup_seqZ. split; lia.
Qed.

(** *** The claim *)

(** 128 calls of [build_channel_class], channel numbers 2 to 129 with one
    ROI each. *)
Definition other_shapes : list builder_call :=
  (fun c => CallChannel (ChannelCall Positional c 1)) <$> seqZ 2 128.

(** C4, as stated, fails once the cache has turned over: the class for
    [(1, 1)] is built at address 0; after 128 calls with other shapes the
    same call builds a new class, at address 129. *)
Lemma build_channel_class_rebuilt_after_eviction :
  let k := ChannelCall Positional 1 1 in
  (build_channel_class k init).1 = Returned 0%nat
  /\ (build_channel_class k
        (run_calls other_shapes (build_channel_class k init).2)).1
     = Returned 129%nat.
Proof. vm_compute. done. Qed.

(** C4, amended. Both builders are memoised by the arguments as passed, in
    a cache of 128 entries: a call repeated with the same arguments, passed
    the same way, returns the identical class object provided fewer than
    128 distinct other argument tuples were looked up in that builder's
    cache in between (for the detector builder the parent classes must be
    hashable, that is, not a list); calls whose shape arguments differ
    return distinct class objects; and the class built for [(c, r)],
    [0 <= r], has exactly [r] ROI slots, the [i]-th one named
    ["mcaroi" + f"{i:02d}"], which for [i <= 99] is the two-digit,
    zero-padded index. *)
Theorem builders_memoized_while_cached :
  (forall (cs0 cs : list builder_call) (k : channel_call),
     few_others k (cs ≫= touched_channel_keys) ->
     exists i st1 st3,
       build_channel_class k (run_calls cs0 init) = (Returned i, st1)
       /\ build_channel_class k (run_calls cs st1) = (Returned i, st3))
  /\ (forall (cs0 cs : list builder_call) (k : detector_call),
        (forall l, parents_value_of (det_parent_classes k) ≠ ParentList l) ->
        few_others k (cs ≫= touched_detector_keys) ->
        exists i st1 st3,
          build_detector_class k (run_calls cs0 init) = (Returned i, st1)
          /\ build_detector_class k (run_calls cs st1) = (Returned i, st3))
  /\ (forall (cs0 cs : list builder_call) (k1 k2 : channel_call) i j st1 st3,
        build_channel_class k1 (run_calls cs0 init) = (Returned i, st1) ->
        build_channel_class k2 (run_calls cs st1) = (Returned j, st3) ->
        (chan_channel_num k1, chan_roi_count k1)
          ≠ (chan_channel_num k2, chan_roi_count k2) ->
        i ≠ j)
  /\ (forall (cs0 cs : list builder_call) (k1 k2 : detector_call) i j st1 st3,
        build_detector_class k1 (run_calls cs0 init) = (Returned i, st1) ->
        build_detector_class k2 (run_calls cs st1) = (Returned j, st3) ->
        (det_channel_count k1, det_roi_count k1, parent_classes_of k1)
          ≠ (det_channel_count k2, det_roi_count k2, parent_classes_of k2) ->
        i ≠ j)
  /\ (forall (cs0 : list builder_call) (k : channel_call),
        0 <= chan_roi_count k ->
        exists i st1 cls,
          build_channel_class k (run_calls cs0 init) = (Returned i, st1)
          /\ heap st1 !! i = Some (ChannelClass cls)
          /\ channel_num cls = chan_channel_num k
          /\ length (mcarois cls) = Z.to_nat (chan_roi_count k)
          /\ forall n, 1 <= n <= chan_roi_count k ->
               (exists cpt,
                  mcarois cls !! Z.to_nat (n - 1) = Some (mcaroi_attr n, cpt))
               /\ (n <= 99 -> mcaroi_attr n = "mcaroi" +:+ two_digits n)).
Proof.
  split; [exact channel_class_reused|].
  split; [exact detector_class_reused|].
  split; [exact channel_classes_distinct|].
  split; [exact detector_classes_distinct|].
  intros cs0 k Hr.
  pose proof (run_calls_heap_ok cs0 init heap_ok_init) as Hok.
  destruct (build_channel_class k (run_calls cs0 init)) as [o st1] eqn:E.
  assert (exists i, o = Returned i) as [i ->].
  { rewrite build_channel_class_run in E.
    destruct (od_get k _); simplify_eq; eauto. }
  exists i, st1, (channel_class_body (chan_channel_num k) (chan_roi_count k)).
  split; [done|]. split; [by eapply build_channel_class_result|].
  split; [done|].
  split; [by apply (channel_class_slots _ _ 0)|].
  intros n Hn. split.
  - eexists. by apply channel_class_slots.
  - intros Hn'. apply mcaroi_attr_two_digits. lia.
Qed.

(** The theorem at work: [(3, 4)], then [(3, 5)], then [(3, 4)] again. *)
Lemma builders_memoized_while_cached_witness :
  exists i st1 st3,
    build_channel_class (ChannelCall Positional 3 4) (run_calls [] init)
      = (Returned i, st1)
    /\ build_channel_class (ChannelCall Positional 3 4)
         (run_calls [CallChannel (ChannelCall Positional 3 5)] st1)
       = (Returned i, st3).
Proof.
  apply (proj1 builders_memoized_while_cached []
           [CallChannel (ChannelCall Positional 3 5)]
           (ChannelCall Positional 3 4)).
  unfold few_others, maxsize. simpl. lia.
Defined.

(** *** PV suffixes *)

Lemma numeric_append_cut (s1 s2 t1 t2 : string) (a1 a2 : ascii) :
  numeric s1 = true -> numeric s2 = true ->
  numeric_char a1 = false -> numeric_char a2 = false ->
  s1 +:+ String a1 t1 = s2 +:+ String a2 t2 -> s1 = s2 /\ a1 = a2 /\ t1 = t2.
Proof.
  revert s2. induction s1 as [|b s1 IH]; intros [|b2 s2]; simpl;
    intros H1 H2 Ha1 Ha2 Heq.
  - by simplify_eq.
  - simplify_eq. apply andb_prop in H2 as [? ?]. congruence.
  - simplify_eq. apply andb_prop in H1 as [? ?]. congruence.
  - apply andb_prop in H1 as [? ?]. apply andb_prop in H2 as [? ?].
    injection Heq as Hb Htl. subst b2.
    destruct (IH s2) as (-> & -> & ->); done.
Qed.

(** The PV suffixes of the components of a channel class: [sca], [mca],
    [mca_sum] and the ROIs. *)
Definition component_suffixes (cls : channel_class) : list string :=
  cpt_suffix (sca cls) :: cpt_suffix (mca cls) :: cpt_suffix (mca_sum cls)
    :: ((fun e : string * component => cpt_suffix e.2) <$> mcarois cls).

Definition roi_suffix (c i : Z) : string :=
  "MCA" +:+ str_of_int c +:+ "ROI:" +:+ str_of_int i +:+ ":".

Lemma component_suffixes_body (c r : Z) :
  component_suffixes (channel_class_body c r)
  = ("C" +:+ str_of_int c +:+ "SCA:") :: ("MCA" +:+ str_of_int c +:+ ":")
      :: ("MCA" +:+ str_of_int c +:+ "SUM:")
      :: (roi_suffix c <$> range 1 (r + 1)).
Proof.
  unfold component_suffixes. rewrite mcarois_slots.
  by rewrite <- list_fmap_compose.
Qed.

(** Compare two suffixes that start with the channel number. *)
Ltac cut_suffix H :=
  apply numeric_append_cut in H as (? & ? & ?);
  [|apply str_of_int_numeric..|done|done].

Lemma roi_suffix_inj (c i c' i' : Z) :
  roi_suffix c i = roi_suffix c' i' -> c = c' /\ i = i'.
Proof.
  unfold roi_suffix. intros H. injection H as H. cut_suffix H.
  simplify_eq. cut_suffix H1. split; by apply Fmt.str_of_int_inj.
Qed.

Lemma component_suffix_channel (c r : Z) (s : string) :
  s ∈ component_suffixes (channel_class_body c r) ->
  exists a t, numeric_char a = false
    /\ (s = "C" +:+ str_of_int c +:+ String a t
        \/ s = "MCA" +:+ str_of_int c +:+ String a t).
Proof.
  rewrite component_suffixes_body, !elem_of_cons, list_elem_of_fmap.
  intros [->|[->|[->|(i & -> & _)]]].
  - exists "S"%char, "CA:". split; [done|]. by left.
  - exists ":"%char, "". split; [done|]. by right.
  - exists "S"%char, "UM:". split; [done|]. by right.
  - exists "R"%char, ("OI:" +:+ str_of_int i +:+ ":"). split; [done|]. by right.
Qed.

(** X7. No two components of a channel share a PV, and no component of one
    channel shares a PV with a component of a channel of another number:
    the suffixes, which carry the channel number, are the only thing that
    tells the PVs of the channels apart. *)
Theorem component_suffixes_distinct (c r c' r' : Z) :
  NoDup (component_suffixes (channel_class_body c r))
  /\ (forall s, s ∈ component_suffixes (channel_class_body c r) ->
        s ∈ component_suffixes (channel_class_body c' r') -> c = c').
Proof.
  split.
  - rewrite component_suffixes_body. repeat apply NoDup_cons_2.
    + rewrite !elem_of_cons, list_elem_of_fmap.
      intros [H|[H|(i & H & _)]]; unfold roi_suffix in H; discriminate H.
    + rewrite !elem_of_cons, list_elem_of_fmap.
      intros [H|(i & H & _)]; unfold roi_suffix in H; injection H as H;
        cut_suffix H; done.
    + rewrite list_elem_of_fmap.
      intros (i & H & _). unfold roi_suffix in H. injection H as H.
      cut_suffix H. done.
    + apply NoDup_fmap_2_strong; [|apply NoDup_seqZ].
      intros a b _ _ H. by apply roi_suffix_inj in H as [_ ?].
  - intros s (a & t & Ha & Hs)%component_suffix_channel
             (a' & t' & Ha' & Hs')%component_suffix_channel.
    destruct Hs as [-> | ->], Hs' as [H | H];
      try discriminate H; injection H as H; cut_suffix H;
      by apply Fmt.str_of_int_inj.
Qed.

(** *** The channels of a detector class *)

(** The attribute of channel [c] in the [channels] definition. *)
Definition channel_attr (c : Z) : string := "channel_" +:+ str_of_int c.

(** The items of a [channels] definition for [n] channels of [r] ROIs:
    one per channel number, in order, each holding a channel class of the
    heap [h] with that number and [r] ROIs. *)
Definition channel_items (h : list py_class) (n r : Z)
    (chans : list (string * nat)) : Prop :=
  Forall2 (fun c e => e.1 = channel_attr c
                      /\ h !! e.2 = Some (ChannelClass (channel_class_body c r)))
          (range 1 (n + 1)) chans.

(** Every cached detector class has its channels on the heap. *)
Definition detectors_ok (st : interp) : Prop :=
  forall k i, od_get k (detector_cache st) = Some i ->
    exists chans,
      heap st !! i = Some (DetectorClass (detector_namespace k chans))
      /\ channel_items (heap st) (det_channel_count k) (det_roi_count k) chans.

Lemma channel_attr_inj (a b : Z) : channel_attr a = channel_attr b -> a = b.
Proof.
  unfold channel_attr. intros H. injection H as H.
  by apply Fmt.str_of_int_inj.
Qed.

Lemma channel_items_mono (h h' : list py_class) (n r : Z) chans :
  h `prefix_of` h' -> channel_items h n r chans -> channel_items h' n r chans.
Proof.
  intros Hp Hit. unfold channel_items in *.
  eapply Forall2_impl; [exact Hit|].
  intros c e [? Hl]. split; [done|]. by eapply prefix_lookup_Some.
Qed.

Lemma for_each_channel_items (r : Z) (cs : list Z) (st : interp) :
  heap_ok st ->
  exists chans st',
    for_each (fun c =>
                cls ← build_channel_class (ChannelCall Keyword c r);
                mret ("channel_" +:+ str_of_int c, cls)) cs st
    = (Returned chans, st')
    /\ heap_ok st'
    /\ heap st `prefix_of` heap st'
    /\ detector_cache st' = detector_cache st
    /\ Forall2 (fun c e => e.1 = channel_attr c
                  /\ heap st' !! e.2
                     = Some (ChannelClass (channel_class_body c r)))
               cs chans.
Proof.
  revert st. induction cs as [|c cs IH]; intros st Hok.
  - exists [], st. split; [done|]. split; [done|]. split; [done|].
    split; [done|]. constructor.
  - pose proof (heap_ok_channel_step (ChannelCall Keyword c r) st Hok) as Hok1.
    pose proof (build_channel_class_grows (ChannelCall Keyword c r) st) as Hp1.
    pose proof (build_channel_class_detector_cache
                  (ChannelCall Keyword c r) st) as Hd1.
    pose proof (build_channel_class_run (ChannelCall Keyword c r) st) as Hrun.
    destruct (build_channel_class (ChannelCall Keyword c r) st)
      as [o st1] eqn:E.
    assert (exists a, o = Returned a) as [a ->].
    { destruct (od_get _ _); simplify_eq; eauto. }
    pose proof (build_channel_class_result _ _ _ _ Hok E) as Ha.
    cbn [snd] in Hok1, Hp1, Hd1. cbn [chan_channel_num chan_roi_count] in Ha.
    destruct (IH st1 Hok1) as (chans & st' & Hfe & Hok' & Hp' & Hd' & Hall).
    exists (("channel_" +:+ str_of_int c, a) :: chans), st'.
    split; [|split; [done|split; [by etrans|split; [congruence|]]]].
    + cbn [for_each]. rewrite !run_bind, E. cbn. rewrite run_bind, Hfe. done.
    + constructor; [|done]. split; [done|]. cbn [snd].
      by eapply prefix_lookup_Some.
Qed.

Lemma detectors_ok_channel_step (k : channel_call) (st : interp) :
  detectors_ok st -> detectors_ok (build_channel_class k st).2.
Proof.
  intros Hd k' i. rewrite build_channel_class_detector_cache.
  intros Hg. destruct (Hd _ _ Hg) as (chans & Hh & Hit). exists chans.
  pose proof (build_channel_class_grows k st) as Hp. split.
  - by eapply prefix_lookup_Some.
  - by eapply channel_items_mono.
Qed.

Lemma build_detector_class_ok (k : detector_call) (st : interp) :
  heap_ok st -> detectors_ok st ->
  heap_ok (build_detector_class k st).2
  /\ detectors_ok (build_detector_class k st).2.
Proof.
  intros Hok Hd. unfold build_detector_class.
  destruct (parents_value_of (det_parent_classes k)); try done.
  all: unfold lru_cache; rewrite run_bind; cbn.
  all: destruct (od_get k (detector_cache st)) as [i0|] eqn:Hg; cbn;
    [ split; [by apply heap_ok_detector_touch|];
      intros k' i' Hg'%od_get_lru_touch; by apply Hd |].
  all: unfold detector_class_body; rewrite !run_bind.
  all: destruct (for_each_channel_items (det_roi_count k)
                   (range 1 (det_channel_count k + 1)) st Hok)
      as (chans & st1 & Hfe & Hok1 & Hp1 & Hd1 & Hall).
  all: rewrite Hfe; cbn; unfold set_detector_cache; munfold; cbn.
  all: split; [by apply heap_ok_detector_store|].
  all: intros k' i' [(-> & -> & _)|Hg']%od_get_lru_store; cbn.
  all: try (exists chans; split; [by rewrite lookup_app_r, Nat.sub_diag|];
            apply (channel_items_mono (heap st1)); [by apply prefix_app_r|];
            exact Hall).
  all: rewrite Hd1 in Hg'; destruct (Hd _ _ Hg') as (chans' & Hh & Hit);
    exists chans'; split;
    [ apply lookup_app_l_Some; by eapply prefix_lookup_Some
    | eapply channel_items_mono; [|exact Hit]; etrans; [exact Hp1|];
      by apply prefix_app_r ].
Qed.

Lemma run_calls_detectors_ok (cs : list builder_call) (st : interp) :
  heap_ok st -> detectors_ok st ->
  heap_ok (run_calls cs st) /\ detectors_ok (run_calls cs st).
Proof.
  revert st. induction cs as [|c cs IH]; intros st Hok Hd; [done|].
  unfold run_calls. cbn [foldl]. destruct c as [k|k]; cbn [run_call].
  - apply IH; [by apply heap_ok_channel_step|by apply detectors_ok_channel_step].
  - destruct (build_detector_class_ok k st Hok Hd). by apply IH.
Qed.

Lemma od_get_at {V} (k : string) (v : V) (d : odict string V) (n : nat) :
  NoDup d.*1 -> d !! n = Some (k, v) -> od_get k d = Some v.
Proof.
  revert n. induction d as [|[k0 v0] d IH]; intros n Hnd Hl; [done|].
  apply NoDup_cons in Hnd as [Hnotin Hnd]. cbn [od_get].
  destruct n as [|n]; cbn in Hl.
  - simplify_eq. by rewrite decide_True.
  - destruct (decide (k = k0)) as [->|Hne]; [|by eapply IH].
    exfalso. apply Hnotin. apply list_elem_of_lookup_2 in Hl.
    by apply (list_elem_of_fmap_2 fst) in Hl.
Qed.

Lemma channel_items_dict (h : list py_class) (n r : Z) chans :
  channel_items h n r chans -> dict_of_items chans = chans.
Proof.
  intros Hit. unfold dict_of_items.
  assert (chans.*1 = channel_attr <$> range 1 (n + 1)) as Hkeys.
  { unfold channel_items in Hit.
    induction Hit as [|c e cs es [He _] _ IH]; [done|].
    cbn. by rewrite He, IH. }
  rewrite dict_of_NoDup.
  - clear. induction chans as [|[a b] chans IH]; [done|]. cbn. by rewrite IH.
  - change (NoDup chans.*1). rewrite Hkeys.
    apply NoDup_fmap_2_strong; [|apply NoDup_seqZ].
    intros a b _ _. apply channel_attr_inj.
Qed.

(** X8. The class that [build_detector_class(n, r, ...)] returns, whether built
    by this call or found in the cache, defines the attributes [channel_1]
    to [channel_<n>] under [channels], in this order and no others; the
    attribute [channel_<c>] holds a channel class of channel number [c]
    with ROIs 1 to [r]. *)
Theorem detector_class_channels (cs0 : list builder_call) (k : detector_call)
    (i : nat) (st1 : interp) :
  build_detector_class k (run_calls cs0 init) = (Returned i, st1) ->
  exists d,
    heap st1 !! i = Some (DetectorClass d)
    /\ (channels d).*1 = channel_attr <$> range 1 (det_channel_count k + 1)
    /\ forall c, 1 <= c <= det_channel_count k ->
         exists a,
           od_get (channel_attr c) (channels d) = Some a
           /\ heap st1 !! a
              = Some (ChannelClass (channel_class_body c (det_roi_count k))).
Proof.
  intros Hrun.
  destruct (run_calls_detectors_ok cs0 init heap_ok_init) as [Hok Hd];
    [by intros k' i'|].
  destruct (build_detector_class_ok k (run_calls cs0 init) Hok Hd)
    as [Hok1 Hd1].
  rewrite Hrun in Hok1, Hd1. cbn [snd] in Hok1, Hd1.
  assert (od_get k (detector_cache st1) = Some i) as Hg.
  { revert Hrun. unfold build_detector_class.
    destruct (parents_value_of (det_parent_classes k)); try done.
    all: unfold lru_cache; rewrite run_bind; cbn.
    all: destruct (od_get k (detector_cache (run_calls cs0 init)))
           as [i0|] eqn:Hg0; cbn.
    all: try (intros [= <- <-]; cbn; unfold lru_touch; rewrite Hg0; cbn;
              by rewrite decide_True).
    all: unfold detector_class_body; rewrite !run_bind.
    all: destruct (for_each_channel_items (det_roi_count k)
                     (range 1 (det_channel_count k + 1))
                     (run_calls cs0 init) Hok)
        as (chans & st' & Hfe & _ & _ & Hd' & _).
    all: rewrite Hfe; cbn; intros [= <- <-]; cbn.
    all: unfold lru_store; rewrite Hd', Hg0.
    all: destruct (maxsize <=? _)%nat; cbn; by rewrite decide_True. }
  destruct (Hd1 _ _ Hg) as (chans & Hh & Hit).
  exists (detector_namespace k chans). split; [done|].
  change (channels (detector_namespace k chans)) with (dict_of_items chans).
  rewrite (channel_items_dict _ _ _ _ Hit).
  unfold channel_items in Hit. split.
  - clear -Hit. induction Hit as [|c e cs es [He _] _ IH]; [done|].
    cbn. by rewrite He, IH.
  - intros c Hc.
    assert (range 1 (det_channel_count k + 1) !! Z.to_nat (c - 1) = Some c)
      as Hl by (apply lookup_seqZ; lia).
    destruct (Forall2_lookup_l _ _ _ _ _ Hit Hl) as ([nm a] & Hla & Hnm & Ha).
    cbn [fst snd] in Hnm, Ha. subst nm. exists a. split; [|done].
    apply (od_get_at _ _ _ (Z.to_nat (c - 1))); [|done].
    assert (chans.*1 = channel_attr <$> range 1 (det_channel_count k + 1))
      as ->.
    { clear -Hit. induction Hit as [|c' e cs es [He _] _ IH]; [done|].
      cbn. by rewrite He, IH. }
    apply NoDup_fmap_2_strong; [|apply NoDup_seqZ].
    intros x y _ _. apply channel_attr_inj.
Qed.

(** The theorem at work: a detector class for 2 channels of 3 ROIs, built
    first of all; the channel classes are at addresses 0 and 1, the
    detector class at 2. *)
Lemma detector_class_channels_witness :
  let k := DetectorCall 2 3 Omitted in
  exists d,
    heap (build_detector_class k init).2 !! 2%nat = Some (DetectorClass d)
    /\ (channels d).*1 = channel_attr <$> range 1 (det_channel_count k + 1)
    /\ forall c, 1 <= c <= det_channel_count k ->
         exists a,
           od_get (channel_attr c) (channels d) = Some a
           /\ heap (build_detector_class k init).2 !! a
              = Some (ChannelClass (channel_class_body c (det_roi_count k))).
Proof.
  intros k.
  apply (detector_class_channels [] k 2 (build_detector_class k init).2).
  reflexivity.
Defined.

(** X9. The name of a detector class tells its channel and ROI counts and not
    its parents: two calls that differ in [parent_classes] only return two
    class objects, of different bases and of the same name. *)
Theorem detector_class_name_ignores_parents (cs0 cs : list builder_call)
    (k1 k2 : detector_call) (i j : nat) (st1 st3 : interp) :
  build_detector_class k1 (run_calls cs0 init) = (Returned i, st1) ->
  build_detector_class k2 (run_calls cs st1) = (Returned j, st3) ->
  det_channel_count k1 = det_channel_count k2 ->
  det_roi_count k1 = det_roi_count k2 ->
  parent_classes_of k1 ≠ parent_classes_of k2 ->
  exists d1 d2,
    heap st3 !! i = Some (DetectorClass d1)
    /\ heap st3 !! j = Some (DetectorClass d2)
    /\ i ≠ j
    /\ det_class_name d1 = det_class_name d2
    /\ bases d1 ≠ bases d2.
Proof.
  intros H1 H2 Hn Hr Hp.
  assert (i ≠ j) as Hij.
  { eapply (detector_classes_distinct cs0 cs k1 k2); [done..|]. congruence. }
  pose proof (run_calls_heap_ok cs0 init heap_ok_init) as Hok0.
  destruct (build_detector_class_result _ _ _ _ Hok0 H1)
    as (_ & chans1 & Hh1).
  pose proof (build_detector_class_ok k1 (run_calls cs0 init)) as Hok1.
  assert (heap_ok st1) as Hst1.
  { pose proof (run_calls_detectors_ok cs0 init heap_ok_init) as [? ?];
      [by intros ? ?|].
    destruct Hok1 as [Hok1 _]; [done..|]. by rewrite H1 in Hok1. }
  pose proof (run_calls_heap_ok cs st1 Hst1) as Hok2.
  destruct (build_detector_class_result _ _ _ _ Hok2 H2)
    as (Hp2 & chans2 & Hh2).
  exists (detector_namespace k1 chans1), (detector_namespace k2 chans2).
  split.
  { eapply prefix_lookup_Some; [|exact Hp2].
    eapply prefix_lookup_Some; [exact Hh1|]. apply run_calls_grows. }
  split; [done|]. split; [done|]. split.
  - cbn [det_class_name detector_namespace]. by rewrite Hn, Hr.
  - cbn [bases detector_namespace]. intros [= Hb].
    by apply ClassAt_fmap_inj in Hb.
Qed.

(** The theorem at work: the same counts with two different mixin
    classes. *)
Lemma detector_class_name_ignores_parents_witness :
  let k1 := DetectorCall 1 1 (ByPosition (ParentTuple [7%nat])) in
  let k2 := DetectorCall 1 1 (ByPosition (ParentTuple [8%nat])) in
  exists d1 d2,
    heap (build_detector_class k2 (build_detector_class k1 init).2).2 !! 1%nat
      = Some (DetectorClass d1)
    /\ heap (build_detector_class k2 (build_detector_class k1 init).2).2 !! 2%nat
       = Some (DetectorClass d2)
    /\ 1%nat ≠ 2%nat
    /\ det_class_name d1 = det_class_name d2
    /\ bases d1 ≠ bases d2.
Proof.
  intros k1 k2.
  apply (detector_class_name_ignores_parents [] [] k1 k2 1 2
           (build_detector_class k1 init).2
           (build_detector_class k2 (build_detector_class k1 init).2).2);
    [reflexivity | reflexivity | reflexivity | reflexivity | done].
Defined.

(** *** Channel classes and the cache *)

Lemma remove_dups_length {A} `{EqDecision A} (l : list A) :
  (length (remove_dups l) <= length l)%nat.
Proof.
  apply submseteq_length, NoDup_submseteq; [apply NoDup_remove_dups|].
  intros x. by rewrite elem_of_remove_dups.
Qed.

Lemma build_channel_class_cached (k : channel_call) (st : interp) :
  lru_wf (channel_cache st) ->
  exists a,
    (build_channel_class k st).1 = Returned a
    /\ forall S, kept k a S (channel_cache (build_channel_class k st).2).
Proof.
  intros Hwf. rewrite build_channel_class_run.
  destruct (od_get k (channel_cache st)) as [a|] eqn:Hg; cbn.
  - exists a. split; [done|]. intros S. by apply kept_touch_same.
  - eexists. split; [done|]. intros S. by apply kept_store_same.
Qed.

(** The loop of [build_detector_class] over at most [maxsize] channels
    leaves every channel class it got in the cache. *)
Lemma for_each_caches (r : Z) (cs : list Z) (st : interp) :
  lru_wf (channel_cache st) -> NoDup cs -> (length cs <= maxsize)%nat ->
  exists chans st',
    for_each (fun c =>
                cls ← build_channel_class (ChannelCall Keyword c r);
                mret ("channel_" +:+ str_of_int c, cls)) cs st
    = (Returned chans, st')
    /\ lru_wf (channel_cache st')
    /\ Forall2 (fun c e =>
                  od_get (ChannelCall Keyword c r) (channel_cache st')
                  = Some e.2) cs chans.
Proof.
  revert st. induction cs as [|c cs IH]; intros st Hwf Hnd Hlen.
  - exists [], st. split; [done|]. split; [done|]. constructor.
  - apply NoDup_cons in Hnd as [Hc Hnd]. cbn [length] in Hlen.
    destruct (build_channel_class_cached (ChannelCall Keyword c r) st Hwf)
      as (a & Ha & Hkept).
    destruct (build_channel_class (ChannelCall Keyword c r) st)
      as [o st1] eqn:E. cbn [fst snd] in Ha, Hkept. subst o.
    set (later := (fun c' => ChannelCall Keyword c' r) <$> cs).
    specialize (Hkept later).
    destruct (IH st1) as (chans & st' & Hfe & Hwf' & Hall);
      [apply Hkept | done | lia |].
    destruct (for_each_channel_preserves
                (fun st0 => kept (ChannelCall Keyword c r) a later
                              (channel_cache st0))
                (fun k' => k' = ChannelCall Keyword c r \/ k' ∈ later)
                r cs st1) as (chans2 & st2 & Hfe2 & Hkept2).
    + intros k' st0 Hk' HP.
      apply (build_channel_class_stable
               (kept (ChannelCall Keyword c r) a later)
               (fun k' => k' = ChannelCall Keyword c r \/ k' ∈ later));
        [|done|done].
      apply kept_stable. pose proof (remove_dups_length later) as Hrd.
      assert (length later = length cs) as Hl
        by (unfold later; apply length_fmap).
      lia.
    + apply Forall_forall. intros c' Hc'. right. unfold later.
      by apply (list_elem_of_fmap_2 (fun c0 => ChannelCall Keyword c0 r)).
    + done.
    + rewrite Hfe in Hfe2. injection Hfe2 as <- <-.
      exists (("channel_" +:+ str_of_int c, a) :: chans), st'.
      split; [|split; [done|]].
      * cbn [for_each]. rewrite !run_bind, E. cbn. rewrite run_bind, Hfe. done.
      * constructor; [|done]. cbn [snd]. by destruct Hkept2 as (_ & ? & _).
Qed.

(** X10. The channel classes of a detector class are the ones the cache of
    [build_channel_class] hands out: right after a detector class of at
    most 128 channels has been built, the call
    [build_channel_class(channel_num=c, roi_count=r)] returns the very class
    object under [channel_<c>]. *)
Theorem detector_channels_are_cached (cs0 : list builder_call)
    (k : detector_call) (i : nat) (st1 : interp) (c : Z) :
  od_get k (detector_cache (run_calls cs0 init)) = None ->
  det_channel_count k <= 128 ->
  build_detector_class k (run_calls cs0 init) = (Returned i, st1) ->
  1 <= c <= det_channel_count k ->
  exists d a st2,
    heap st1 !! i = Some (DetectorClass d)
    /\ od_get (channel_attr c) (channels d) = Some a
    /\ build_channel_class (ChannelCall Keyword c (det_roi_count k)) st1
       = (Returned a, st2).
Proof.
  intros Hmiss Hn Hrun Hc.
  pose proof (run_calls_heap_ok cs0 init heap_ok_init) as Hok.
  destruct (run_calls_wf cs0) as [Hwf _].
  set (st0 := run_calls cs0 init) in *.
  destruct (for_each_channel_items (det_roi_count k)
              (range 1 (det_channel_count k + 1)) st0 Hok)
    as (chans & st' & Hfe & Hok' & Hp' & Hd' & Hitems).
  destruct (for_each_caches (det_roi_count k)
              (range 1 (det_channel_count k + 1)) st0 Hwf)
    as (chans2 & st2 & Hfe2 & _ & Hcached).
  { apply NoDup_seqZ. }
  { unfold range. rewrite length_seqZ. unfold maxsize. lia. }
  rewrite Hfe in Hfe2. injection Hfe2 as <- <-.
  assert (st1 = Interp (heap st' ++ [DetectorClass (detector_namespace k chans)])
                  (channel_cache st')
                  (lru_store k (length (heap st')) (detector_cache st'))
          /\ i = length (heap st')) as [-> ->].
  { revert Hrun. unfold build_detector_class.
    destruct (parents_value_of (det_parent_classes k)); try done.
    all: unfold lru_cache; rewrite run_bind; cbn.
    all: rewrite Hmiss; unfold detector_class_body; rewrite !run_bind.
    all: rewrite Hfe; cbn; unfold set_detector_cache; munfold; cbn.
    all: by intros [= <- <-]. }
  assert (range 1 (det_channel_count k + 1) !! Z.to_nat (c - 1) = Some c)
    as Hl by (apply lookup_seqZ; lia).
  destruct (Forall2_lookup_l _ _ _ _ _ Hitems Hl) as ([nm a] & Hla & Hnm & _).
  destruct (Forall2_lookup_l _ _ _ _ _ Hcached Hl) as (e & Hla' & Ha).
  rewrite Hla in Hla'. injection Hla' as <-. cbn [fst snd] in Hnm, Ha. subst nm.
  exists (detector_namespace k chans), a. eexists.
  split; [cbn [heap]; by rewrite lookup_app_r, Nat.sub_diag|]. split.
  - change (channels (detector_namespace k chans)) with (dict_of_items chans).
    rewrite (channel_items_dict (heap st') (det_channel_count k)
               (det_roi_count k)) by exact Hitems.
    apply (od_get_at _ _ _ (Z.to_nat (c - 1))); [|done].
    assert (chans.*1 = channel_attr <$> range 1 (det_channel_count k + 1))
      as ->.
    { clear -Hitems. unfold channel_items in Hitems.
      induction Hitems as [|c' e cs es [He _] _ IH]; [done|].
      cbn. by rewrite He, IH. }
    apply NoDup_fmap_2_strong; [|apply NoDup_seqZ].
    intros x y _ _. apply channel_attr_inj.
  - rewrite build_channel_class_run. cbn [channel_cache]. by rewrite Ha.
Qed.

Lemma detector_channels_are_cached_witness :
  let k := DetectorCall 2 3 Omitted in
  exists d a st2,
    heap (build_detector_class k init).2 !! 2%nat = Some (DetectorClass d)
    /\ od_get (channel_attr 2) (channels d) = Some a
    /\ build_channel_class (ChannelCall Keyword 2 (det_roi_count k))
         (build_detector_class k init).2
       = (Returned a, st2).
Proof.
  intros k.
  apply (detector_channels_are_cached [] k 2 (build_detector_class k init).2 2).
  - reflexivity.
  - simpl. lia.
  - reflexivity.
  - simpl. lia.
Defined.

(** X11. The cache keys a call by how it passes its arguments: after
    [build_channel_class(c, r)], the call
    [build_channel_class(channel_num=c, roi_count=r)] looks up another key
    and, when that key is not cached, builds a second class object; the two
    classes are equal in name and content, and they are two objects. *)
Theorem call_style_splits_the_cache (cs0 : list builder_call) (c r : Z)
    (i j : nat) (st1 st2 : interp) :
  od_get (ChannelCall Keyword c r) (channel_cache (run_calls cs0 init)) = None ->
  build_channel_class (ChannelCall Positional c r) (run_calls cs0 init)
    = (Returned i, st1) ->
  build_channel_class (ChannelCall Keyword c r) st1 = (Returned j, st2) ->
  i ≠ j
  /\ heap st2 !! i = Some (ChannelClass (channel_class_body c r))
  /\ heap st2 !! j = Some (ChannelClass (channel_class_body c r)).
Proof.
  intros Hmiss H1 H2.
  pose proof (run_calls_heap_ok cs0 init heap_ok_init) as Hok.
  pose proof (build_channel_class_result _ _ _ _ Hok H1) as Hi.
  pose proof (heap_ok_channel_step (ChannelCall Positional c r) _ Hok) as Hok1.
  rewrite H1 in Hok1. cbn [snd] in Hok1.
  pose proof (build_channel_class_result _ _ _ _ Hok1 H2) as Hj.
  cbn [chan_channel_num chan_roi_count] in Hi, Hj.
  assert (od_get (ChannelCall Keyword c r) (channel_cache st1) = None) as Hmiss1.
  { revert H1. rewrite build_channel_class_run.
    destruct (od_get (ChannelCall Positional c r) _) as [i0|] eqn:Hg;
      intros [= <- <-]; cbn [channel_cache set_channel_cache].
    - destruct (od_get _ (lru_touch _ _)) as [v|] eqn:Hv; [|done].
      apply od_get_lru_touch in Hv. congruence.
    - destruct (od_get _ (lru_store _ _ _)) as [v|] eqn:Hv; [|done].
      apply od_get_lru_store in Hv as [(? & _)|Hv]; [done|congruence]. }
  assert (j = length (heap st1)
          /\ heap st2 = heap st1 ++ [ChannelClass (channel_class_body c r)])
    as [-> Hh2].
  { revert H2. rewrite build_channel_class_run, Hmiss1.
    by intros [= <- <-]. }
  split; [|split; [|done]].
  - apply lookup_lt_Some in Hi. lia.
  - rewrite Hh2. by apply lookup_app_l_Some.
Qed.

Lemma call_style_splits_the_cache_witness :
  let st1 := (build_channel_class (ChannelCall Positional 3 4) init).2 in
  let st2 := (build_channel_class (ChannelCall Keyword 3 4) st1).2 in
  0%nat ≠ 1%nat
  /\ heap st2 !! 0%nat = Some (ChannelClass (channel_class_body 3 4))
  /\ heap st2 !! 1%nat = Some (ChannelClass (channel_class_body 3 4)).
Proof.
  intros st1 st2.
  apply (call_style_splits_the_cache [] 3 4 0 1 st1 st2); reflexivity.
Defined.

(** *** Two detector classes of the same ROI count *)

Lemma for_each_app {S A B} (f : A -> M S B) (l1 l2 : list A) (s : S) :
  for_each f (l1 ++ l2) s
  = match for_each f l1 s with
    | (Returned ys, s1) =>
        match for_each f l2 s1 with
        | (Returned zs, s2) => (Returned (ys ++ zs), s2)
        | (Raised e, s2) => (Raised e, s2)
        end
    | (Raised e, s1) => (Raised e, s1)
    end.
Proof.
  revert s. induction l1 as [|x l1 IH]; intros s.
  - cbn [app for_each mret M_ret Py.ret].
    by destruct (for_each f l2 s) as [[zs|e] s2].
  - cbn [app for_each]. rewrite !run_bind.
    destruct (f x s) as [[y|e] s0]; [|done].
    rewrite !run_bind, IH.
    destruct (for_each f l1 s0) as [[ys|e] s1]; [|done].
    cbn [mret M_ret Py.ret].
    by destruct (for_each f l2 s1) as [[zs|e] s2].
Qed.

Lemma lru_touch_lookup {K V} `{EqDecision K} (k k' : K) (v : V)
    (c : list (K * V)) :
  od_get k c = Some v -> od_get k' (lru_touch k c) = od_get k' c.
Proof.
  intros Hg. unfold lru_touch. rewrite Hg. cbn [od_get].
  destruct (decide (k' = k)) as [->|Hne]; [done|]. by apply od_get_pop_ne.
Qed.

(** Over channels whose classes are all cached, the loop of
    [build_detector_class] takes each class from the cache and builds
    none. *)
Lemma for_each_hits (r : Z) (cs : list Z) (f : Z -> nat) (st : interp) :
  (forall c, c ∈ cs ->
     od_get (ChannelCall Keyword c r) (channel_cache st) = Some (f c)) ->
  exists st',
    for_each (fun c =>
                cls ← build_channel_class (ChannelCall Keyword c r);
                mret ("channel_" +:+ str_of_int c, cls)) cs st
    = (Returned ((fun c => ("channel_" +:+ str_of_int c, f c)) <$> cs), st')
    /\ heap st' = heap st
    /\ detector_cache st' = detector_cache st
    /\ forall k, od_get k (channel_cache st') = od_get k (channel_cache st).
Proof.
  revert st. induction cs as [|c cs IH]; intros st Hall.
  - by exists st.
  - assert (od_get (ChannelCall Keyword c r) (channel_cache st) = Some (f c))
      as Hc by (apply Hall; by left).
    pose proof (build_channel_class_run (ChannelCall Keyword c r) st) as Hrun.
    rewrite Hc in Hrun.
    destruct (IH (set_channel_cache
                    (lru_touch (ChannelCall Keyword c r) (channel_cache st))
                    st)) as (st' & Hfe & Hh & Hd & Hk).
    { intros c' Hc'. cbn [channel_cache set_channel_cache].
      rewrite (lru_touch_lookup _ _ (f c)) by done. apply Hall. by right. }
    exists st'. split; [|split; [done|split; [done|]]].
    + cbn [for_each fmap list_fmap]. rewrite !run_bind, Hrun. cbn.
      rewrite run_bind, Hfe. done.
    + intros k. rewrite Hk. cbn [channel_cache set_channel_cache].
      by apply (lru_touch_lookup _ _ (f c)).
Qed.

(** What a call of [build_detector_class] that finds nothing in its own
    cache does. *)
Lemma build_detector_class_miss (k : detector_call) (st0 st1 : interp)
    (i : nat) :
  heap_ok st0 ->
  od_get k (detector_cache st0) = None ->
  build_detector_class k st0 = (Returned i, st1) ->
  exists chans st',
    for_each (fun c =>
                cls ← build_channel_class
                        (ChannelCall Keyword c (det_roi_count k));
                mret ("channel_" +:+ str_of_int c, cls))
             (range 1 (det_channel_count k + 1)) st0
    = (Returned chans, st')
    /\ heap st0 `prefix_of` heap st'
    /\ channel_items (heap st') (det_channel_count k) (det_roi_count k) chans
    /\ heap st1 = heap st' ++ [DetectorClass (detector_namespace k chans)]
    /\ channel_cache st1 = channel_cache st'
    /\ i = length (heap st').
Proof.
  intros Hok Hmiss Hrun.
  destruct (for_each_channel_items (det_roi_count k)
              (range 1 (det_channel_count k + 1)) st0 Hok)
    as (chans & st' & Hfe & Hok' & Hp' & Hd' & Hitems).
  exists chans, st'. split; [done|]. split; [done|]. split; [done|].
  revert Hrun. unfold build_detector_class.
  destruct (parents_value_of (det_parent_classes k)); try done.
  all: unfold lru_cache; rewrite run_bind; cbn.
  all: rewrite Hmiss; unfold detector_class_body; rewrite !run_bind.
  all: rewrite Hfe; cbn; unfold set_detector_cache; munfold; cbn.
  all: by intros [= <- <-].
Qed.

Lemma channel_items_lookup (h : list py_class) (n r c : Z)
    (chans : list (string * nat)) (a : nat) :
  channel_items h n r chans ->
  chans !! Z.to_nat (c - 1) = Some (channel_attr c, a) ->
  od_get (channel_attr c) (dict_of_items chans) = Some a.
Proof.
  intros Hitems Hl. rewrite (channel_items_dict h n r) by exact Hitems.
  apply (od_get_at _ _ _ (Z.to_nat (c - 1))); [|done].
  assert (chans.*1 = channel_attr <$> range 1 (n + 1)) as ->.
  { clear -Hitems. unfold channel_items in Hitems.
    induction Hitems as [|c' e cs es [He _] _ IH]; [done|].
    cbn. by rewrite He, IH. }
  apply NoDup_fmap_2_strong; [|apply NoDup_seqZ].
  intros x y _ _. apply channel_attr_inj.
Qed.

(** X12. Two detector classes of the same ROI count, built one after the
    other, share their channel classes: the class under [channel_<c>] is
    the same object in both, for every channel number [c] that both have.
    (The first has at most 128 channels, so that its channel classes are
    all in the cache when the second is built.) *)
Theorem detectors_share_channel_classes (cs0 : list builder_call)
    (k1 k2 : detector_call) (i j : nat) (st1 st2 : interp) (c : Z) :
  od_get k1 (detector_cache (run_calls cs0 init)) = None ->
  det_channel_count k1 <= 128 ->
  build_detector_class k1 (run_calls cs0 init) = (Returned i, st1) ->
  od_get k2 (detector_cache st1) = None ->
  det_roi_count k2 = det_roi_count k1 ->
  build_detector_class k2 st1 = (Returned j, st2) ->
  1 <= c -> c <= det_channel_count k1 -> c <= det_channel_count k2 ->
  exists d1 d2 a,
    heap st2 !! i = Some (DetectorClass d1)
    /\ heap st2 !! j = Some (DetectorClass d2)
    /\ i ≠ j
    /\ od_get (channel_attr c) (channels d1) = Some a
    /\ od_get (channel_attr c) (channels d2) = Some a.
Proof.
  intros Hmiss1 Hn1 Hrun1 Hmiss2 Hr Hrun2 Hc Hc1 Hc2.
  destruct (run_calls_detectors_ok cs0 init heap_ok_init) as [Hok0 Hd0];
    [by intros ? ?|].
  destruct (run_calls_wf cs0) as [Hwf0 _].
  set (st0 := run_calls cs0 init) in *.
  destruct (build_detector_class_miss k1 st0 st1 i Hok0 Hmiss1 Hrun1)
    as (chans1 & st1' & Hfe1 & Hp1 & Hitems1 & Hh1 & Hcc1 & ->).
  destruct (for_each_caches (det_roi_count k1)
              (range 1 (det_channel_count k1 + 1)) st0 Hwf0)
    as (chans & st' & Hfe & _ & Hcached).
  { apply NoDup_seqZ. }
  { unfold range. rewrite length_seqZ. unfold maxsize. lia. }
  rewrite Hfe1 in Hfe. injection Hfe as <- <-.
  destruct (build_detector_class_ok k1 st0 Hok0 Hd0) as [Hok1 _].
  rewrite Hrun1 in Hok1. cbn [snd] in Hok1.
  destruct (build_detector_class_miss k2 st1 st2 j Hok1 Hmiss2 Hrun2)
    as (chans2 & st2' & Hfe2 & Hp2 & Hitems2 & Hh2 & _ & ->).
  assert (length (heap st1') < length (heap st2'))%nat as Hlt.
  { apply prefix_length in Hp2. rewrite Hh1, length_app in Hp2.
    cbn in Hp2. lia. }
  (* the first [c] channels of the second class come from the cache *)
  set (f := fun c' : Z =>
              default 0%nat
                (od_get (ChannelCall Keyword c' (det_roi_count k1))
                   (channel_cache st1))).
  assert (forall c', 1 <= c' <= det_channel_count k1 ->
            exists a, chans1 !! Z.to_nat (c' - 1) = Some (channel_attr c', a)
                      /\ od_get (ChannelCall Keyword c' (det_roi_count k1))
                           (channel_cache st1) = Some a) as Hfirst.
  { intros c' Hc'.
    assert (range 1 (det_channel_count k1 + 1) !! Z.to_nat (c' - 1) = Some c')
      as Hl by (apply lookup_seqZ; lia).
    destruct (Forall2_lookup_l _ _ _ _ _ Hitems1 Hl)
      as ([nm a] & Hla & Hnm & _).
    destruct (Forall2_lookup_l _ _ _ _ _ Hcached Hl) as (e & Hla' & Ha).
    rewrite Hla in Hla'. injection Hla' as <-. cbn [fst snd] in Hnm, Ha.
    subst nm. exists a. split; [done|]. by rewrite Hcc1. }
  assert (range 1 (det_channel_count k2 + 1)
          = range 1 (c + 1) ++ range (c + 1) (det_channel_count k2 + 1))
    as Hsplit.
  { unfold range. replace (det_channel_count k2 + 1 - 1)
      with ((c + 1 - 1) + (det_channel_count k2 + 1 - (c + 1))) by lia.
    rewrite seqZ_app by lia. do 2 f_equal; lia. }
  rewrite Hr, Hsplit, for_each_app in Hfe2.
  destruct (for_each_hits (det_roi_count k1) (range 1 (c + 1)) f st1)
    as (st1h & Hhits & _).
  { intros c' Hc'%elem_of_seqZ. unfold f.
    destruct (Hfirst c') as (a & _ & ->); [lia|done]. }
  rewrite Hhits in Hfe2.
  destruct (for_each _ (range (c + 1) (det_channel_count k2 + 1)) st1h)
    as [[zs|e] s2]; [|done].
  injection Hfe2 as <- <-.
  destruct (Hfirst c) as (a & Hl1 & Ha); [lia|].
  exists (detector_namespace k1 chans1), (detector_namespace k2
            (((fun c0 => ("channel_" +:+ str_of_int c0, f c0))
                <$> range 1 (c + 1)) ++ zs)), a.
  split; [|split; [|split; [lia|split]]].
  - rewrite Hh2. apply lookup_app_l_Some.
    eapply prefix_lookup_Some; [|exact Hp2].
    rewrite Hh1. by rewrite lookup_app_r, Nat.sub_diag.
  - rewrite Hh2. by rewrite lookup_app_r, Nat.sub_diag.
  - change (channels (detector_namespace k1 chans1))
      with (dict_of_items chans1).
    by eapply channel_items_lookup.
  - change (channels (detector_namespace k2 ?x)) with (dict_of_items x).
    eapply channel_items_lookup; [exact Hitems2|].
    apply lookup_app_l_Some.
    assert (f c = a) as <- by (unfold f; by rewrite Ha).
    apply (list_lookup_fmap_Some_2
             (fun c0 => ("channel_" +:+ str_of_int c0, f c0))).
    apply lookup_seqZ. lia.
Qed.

Lemma detectors_share_channel_classes_witness :
  let k1 := DetectorCall 2 3 Omitted in
  let k2 := DetectorCall 4 3 Omitted in
  let st1 := (build_detector_class k1 init).2 in
  let st2 := (build_detector_class k2 st1).2 in
  exists d1 d2 a,
    heap st2 !! 2%nat = Some (DetectorClass d1)
    /\ heap st2 !! 5%nat = Some (DetectorClass d2)
    /\ 2%nat ≠ 5%nat
    /\ od_get (channel_attr 2) (channels d1) = Some a
    /\ od_get (channel_attr 2) (channels d2) = Some a.
Proof.
  intros k1 k2 st1 st2.
  apply (detectors_share_channel_classes [] k1 k2 2 5 st1 st2 2);
    try reflexivity; simpl; lia.
Defined.

End Builder.

(** ** [Xspress3ChannelBase]: a channel and its ROIs *)

Module Channel.
Import Roi.

(** A channel instance: its number and the ROI devices below
    [self.mcarois], by attribute name. *)
Record Xspress3Channel := {
  channel_num : Z;
  mcarois : odict string McaRoi
}.

Definition world : Type := Xspress3Channel * list put_event.

(** The first argument of [set_roi]: an index, or an [McaRoi] instance,
    given here by the attribute under which the channel holds it. *)
Inductive index_or_roi :=
| Index (i : Z)
| RoiObject (attr : string).

(** Run a method of the ROI [getattr(self.mcarois, attr)]. *)
Definition on_roi {A} (attr : string) (m : M Roi.world A) : M world A :=
  fun w =>
    match od_get attr (mcarois w.1) with
    | None => (Raised (AttributeError attr), w)
    | Some roi =>
        let '(o, (roi', tr')) := m (roi, w.2) in
        (o, ({| channel_num := channel_num w.1;
                mcarois := od_set attr roi' (mcarois w.1) |}, tr'))
    end.

(** [roi_name_format] and [roi_total_name_format] *)
Definition roi_name_format (chan : Z) (roi_name : string) : string :=
  "Det" +:+ str_of_int chan +:+ "_" +:+ roi_name.
Definition roi_total_name_format (chan : Z) (roi_name : string) : string :=
  "Det" +:+ str_of_int chan +:+ "_" +:+ roi_name +:+ "_total".

(** [roi.roi_name.name = ...; roi.total_rbv.name = ...] *)
Definition rename (roi_name total_name : string) : M Roi.world unit :=
  Py.modify (fun w =>
    ({| prefix := prefix w.1; min_x := min_x w.1; size_x := size_x w.1;
        use_setpoint := use_setpoint w.1; use_rbv := use_rbv w.1;
        roi_name_name := roi_name; total_rbv_name := total_name;
        grandparent_channel_num := grandparent_channel_num w.1 |}, w.2)).

(** [Xspress3ChannelBase.set_roi(index_or_roi, *, ev_min, ev_size, name)] *)
Definition set_roi (ior : index_or_roi) (ev_min ev_size : Z)
    (name : option string) : M world unit :=
  attr ← match ior with
         | RoiObject attr => mret attr
         | Index index =>
             if index <=? 0
             then Py.raise (ValueError "MCAROI index starts from 1")
             else mret (Builder.mcaroi_attr index)
         end;
  on_roi attr (configure_roi ev_min ev_size);;
  match name with
  | None => mret tt
  | Some name =>
      chan ← Py.gets (fun w => channel_num w.1);
      let roi_name := roi_name_format chan name in
      on_roi attr (rename roi_name (roi_total_name_format chan roi_name))
  end.

(** The ROI device created for the slot [attr] of a channel named [name]:
    [pv] is its PV prefix and [pvs] gives what the IOC holds for it at the
    start ([MinX], [SizeX], [Use]). *)
Definition new_roi (name : string) (chan : Z) (pvs : string -> Z * Z * Z)
    (attr pv : string) : McaRoi :=
  {| Roi.prefix := pv;
     min_x := (pvs pv).1.1;
     size_x := (pvs pv).1.2;
     use_setpoint := (pvs pv).2;
     use_rbv := (pvs pv).2;
     roi_name_name := name +:+ "_mcarois_" +:+ attr +:+ "_roi_name";
     total_rbv_name := name +:+ "_mcarois_" +:+ attr +:+ "_total_rbv";
     grandparent_channel_num := Some chan |}.

(** An instance of a class made by [build_channel_class]: one ROI device
    per slot of the class, at the PV prefix of the slot. *)
Definition new_channel (cls : Builder.channel_class) (name prefix : string)
    (pvs : string -> Z * Z * Z) : Xspress3Channel :=
  {| channel_num := Builder.channel_num cls;
     mcarois :=
       (fun e : string * Builder.component =>
          (e.1, new_roi name (Builder.channel_num cls) pvs e.1
                  (prefix +:+ Builder.cpt_suffix e.2)))
       <$> Builder.mcarois cls |}.

(** The channel after [configure_roi] ran on the slot [attr]. *)
Definition with_roi (attr : string) (roi : McaRoi) (ch : Xspress3Channel) :=
  {| channel_num := channel_num ch; mcarois := od_set attr roi (mcarois ch) |}.

Lemma set_roi_nonpositive (i ev_min ev_size : Z) (name : option string)
    (w : world) :
  i <= 0 ->
  set_roi (Index i) ev_min ev_size name w
  = (Raised (ValueError "MCAROI index starts from 1"), w).
Proof.
  intros Hi. unfold set_roi. rewrite run_bind.
  by rewrite (proj2 (Z.leb_le i 0) Hi).
Qed.

Lemma set_roi_missing (i ev_min ev_size : Z) (name : option string)
    (w : world) :
  1 <= i -> od_get (Builder.mcaroi_attr i) (mcarois w.1) = None ->
  set_roi (Index i) ev_min ev_size name w
  = (Raised (AttributeError (Builder.mcaroi_attr i)), w).
Proof.
  intros Hi Hg. unfold set_roi. rewrite run_bind.
  rewrite (proj2 (Z.leb_gt i 0)) by lia. cbn [mret M_ret Py.ret].
  rewrite run_bind. unfold on_roi at 1. by rewrite Hg.
Qed.

Lemma set_roi_configures (i ev_min ev_size : Z) (ch : Xspress3Channel)
    (tr : list put_event) (roi : McaRoi) :
  1 <= i -> od_get (Builder.mcaroi_attr i) (mcarois ch) = Some roi ->
  set_roi (Index i) ev_min ev_size None (ch, tr)
  = let '(o, (roi', tr')) := configure_roi ev_min ev_size (roi, tr) in
    (o, (with_roi (Builder.mcaroi_attr i) roi' ch, tr')).
Proof.
  intros Hi Hg. unfold set_roi. rewrite run_bind.
  rewrite (proj2 (Z.leb_gt i 0)) by lia. cbn [mret M_ret Py.ret].
  rewrite run_bind. unfold on_roi. cbn [fst snd]. rewrite Hg.
  destruct (configure_roi ev_min ev_size (roi, tr)) as [[[]|e] [roi' tr']]; done.
Qed.

Lemma od_get_lookup {V} (k : string) (v : V) (d : odict string V) (n : nat) :
  NoDup d.*1 -> d !! n = Some (k, v) -> od_get k d = Some v.
Proof.
  revert n. induction d as [|[k0 v0] d IH]; intros n Hnd Hl; [done|].
  apply NoDup_cons in Hnd as [Hnotin Hnd]. simpl.
  destruct n as [|n]; simpl in Hl.
  - simplify_eq. by rewrite decide_True.
  - destruct (decide (k = k0)) as [->|Hne]; [|by eapply IH].
    exfalso. apply Hnotin. apply list_elem_of_lookup_2 in Hl.
    apply (list_elem_of_fmap_2 fst) in Hl. done.
Qed.

Lemma new_channel_mcarois (c r : Z) (name prefix : string) pvs :
  mcarois (new_channel (Builder.channel_class_body c r) name prefix pvs)
  = (fun i => (Builder.mcaroi_attr i,
               new_roi name c pvs (Builder.mcaroi_attr i)
                 (prefix +:+ "MCA" +:+ str_of_int c +:+ "ROI:"
                    +:+ str_of_int i +:+ ":")))
      <$> Builder.range 1 (r + 1).
Proof.
  unfold new_channel. cbn [mcarois]. rewrite Builder.mcarois_slots.
  by rewrite <- list_fmap_compose.
Qed.

(** The slots of a built channel: index [i] finds the [i]-th ROI device,
    that of PV prefix ["MCA<c>ROI:<i>:"], exactly when [1 <= i <= r]. *)
Lemma new_channel_slot (c r i : Z) (name prefix : string) pvs :
  let ch := new_channel (Builder.channel_class_body c r) name prefix pvs in
  let roi := new_roi name c pvs (Builder.mcaroi_attr i)
               (prefix +:+ "MCA" +:+ str_of_int c +:+ "ROI:"
                  +:+ str_of_int i +:+ ":") in
  (1 <= i <= r ->
     mcarois ch !! Z.to_nat (i - 1) = Some (Builder.mcaroi_attr i, roi)
     /\ od_get (Builder.mcaroi_attr i) (mcarois ch) = Some roi)
  /\ (r < i -> od_get (Builder.mcaroi_attr i) (mcarois ch) = None).
Proof.
  intros ch roi. subst ch roi. rewrite new_channel_mcarois.
  set (f := fun i : Z => (Builder.mcaroi_attr i, _)).
  assert (NoDup (f <$> Builder.range 1 (r + 1)).*1) as Hnd.
  { rewrite <- list_fmap_compose.
    apply NoDup_fmap_2_strong; [|apply NoDup_seqZ].
    intros a b _ _. apply Builder.mcaroi_attr_inj. }
  split.
  - intros Hi.
    assert ((f <$> Builder.range 1 (r + 1)) !! Z.to_nat (i - 1) = Some (f i))
      as Hl.
    { apply list_lookup_fmap_Some_2, lookup_seqZ. split; lia. }
    split; [exact Hl|]. by eapply od_get_lookup.
  - intros Hr. apply Builder.od_get_None_keys.
    rewrite <- list_fmap_compose. intros Hin.
    apply list_elem_of_fmap in Hin as (j & Hj & Hin).
    apply Builder.mcaroi_attr_inj in Hj as <-.
    apply elem_of_seqZ in Hin. lia.
Qed.

Lemma set_roi_named (i ev_min ev_size : Z) (name : string)
    (ch : Xspress3Channel) (tr : list put_event) (roi : McaRoi) :
  1 <= i -> od_get (Builder.mcaroi_attr i) (mcarois ch) = Some roi ->
  exists ch',
    set_roi (Index i) ev_min ev_size (Some name) (ch, tr)
    = ((configure_roi ev_min ev_size (roi, tr)).1,
       (ch', (configure_roi ev_min ev_size (roi, tr)).2.2)).
Proof.
  intros Hi Hg. unfold set_roi. rewrite run_bind.
  rewrite (proj2 (Z.leb_gt i 0)) by lia. cbn [mret M_ret Py.ret].
  rewrite run_bind. unfold on_roi at 1. cbn [fst snd]. rewrite Hg.
  destruct (configure_roi ev_min ev_size (roi, tr)) as [[[]|e] [roi' tr']];
    [|by eexists].
  rewrite run_bind. cbn [Py.gets fst snd]. unfold on_roi, rename, Py.modify.
  cbn [fst snd mcarois]. rewrite od_get_set_eq. cbn. by eexists.
Qed.

(** C9. [set_roi] with an index [i <= 0] raises [ValueError] and leaves the
    channel and the hardware as they are: nothing is written. With
    [i >= 1] it looks up the slot ["mcaroi" + f"{i:02d}"] and, the slot
    being there, runs that ROI's [configure_roi]: outcome and hardware
    writes are those of [configure_roi] on that ROI. On a channel built for
    [r] ROIs the slot of [1 <= i <= r] is the [i]-th ROI device. *)
Theorem set_roi_index_checked (i ev_min ev_size : Z) (name : option string)
    (ch : Xspress3Channel) (tr : list put_event) :
  (i <= 0 ->
     set_roi (Index i) ev_min ev_size name (ch, tr)
     = (Raised (ValueError "MCAROI index starts from 1"), (ch, tr)))
  /\ (1 <= i ->
      forall roi, od_get (Builder.mcaroi_attr i) (mcarois ch) = Some roi ->
        (exists ch',
           set_roi (Index i) ev_min ev_size name (ch, tr)
           = ((configure_roi ev_min ev_size (roi, tr)).1,
              (ch', (configure_roi ev_min ev_size (roi, tr)).2.2)))
        /\ set_roi (Index i) ev_min ev_size None (ch, tr)
           = ((configure_roi ev_min ev_size (roi, tr)).1,
              (with_roi (Builder.mcaroi_attr i)
                 (configure_roi ev_min ev_size (roi, tr)).2.1 ch,
               (configure_roi ev_min ev_size (roi, tr)).2.2)))
  /\ (forall c r cname prefix pvs,
        ch = new_channel (Builder.channel_class_body c r) cname prefix pvs ->
        1 <= i <= r ->
        exists roi,
          mcarois ch !! Z.to_nat (i - 1) = Some (Builder.mcaroi_attr i, roi)
          /\ od_get (Builder.mcaroi_attr i) (mcarois ch) = Some roi).
Proof.
  split; [apply set_roi_nonpositive|]. split.
  - intros Hi roi Hg.
    assert (set_roi (Index i) ev_min ev_size None (ch, tr)
            = ((configure_roi ev_min ev_size (roi, tr)).1,
               (with_roi (Builder.mcaroi_attr i)
                  (configure_roi ev_min ev_size (roi, tr)).2.1 ch,
                (configure_roi ev_min ev_size (roi, tr)).2.2))) as Hnone.
    { rewrite (set_roi_configures i ev_min ev_size ch tr roi) by done.
      by destruct (configure_roi ev_min ev_size (roi, tr)) as [o [roi' tr']]. }
    split; [|done]. destruct name as [nm|]; [by apply set_roi_named|].
    eexists. exact Hnone.
  - intros c r cname prefix pvs -> Hi. eexists.
    by apply (new_channel_slot c r i cname prefix pvs).
Qed.

(** A channel with two ROIs, both at rest. *)
Definition two_roi_channel : Xspress3Channel :=
  new_channel (Builder.channel_class_body 1 2) "xs_channel_1" "XF:XSP3:"
    (fun _ => (0, 0, 0)).

(** The theorem at work: index 0 raises and writes nothing; index 2
    configures the second ROI with three writes. *)
Lemma set_roi_index_checked_witness :
  set_roi (Index 0) 2000 500 None (two_roi_channel, [])
    = (Raised (ValueError "MCAROI index starts from 1"), (two_roi_channel, []))
  /\ (set_roi (Index 2) 2000 500 None (two_roi_channel, [])).2.2
     = [Put "XF:XSP3:MCA1ROI:2:" MinX 2000;
        Put "XF:XSP3:MCA1ROI:2:" SizeX 500;
        Put "XF:XSP3:MCA1ROI:2:" Use 1].
Proof.
  split.
  - apply (proj1 (set_roi_index_checked 0 2000 500 None two_roi_channel [])).
    lia.
  - destruct (proj2 (proj2 (set_roi_index_checked 2 2000 500 None
                              two_roi_channel []))
                1 2 "xs_channel_1" "XF:XSP3:" (fun _ => (0, 0, 0)) eq_refl)
      as (roi & Hl & Hg); [lia|].
    destruct (proj1 (proj2 (set_roi_index_checked 2 2000 500 None
                              two_roi_channel [])) ltac:(lia) roi Hg)
      as [_ ->].
    vm_compute in Hl. injection Hl as <-. reflexivity.
Defined.

(** *** Names, bounds and what [set_roi] leaves alone *)

(** [configure_roi] changes settings, never the identity of the ROI. *)
Lemma configure_roi_identity (ev_min ev_size : Z) (w : Roi.world) :
  let r' := (configure_roi ev_min ev_size w).2.1 in
  Roi.prefix r' = Roi.prefix w.1
  /\ roi_name_name r' = roi_name_name w.1
  /\ total_rbv_name r' = total_rbv_name w.1
  /\ grandparent_channel_num r' = grandparent_channel_num w.1.
Proof.
  destruct w as [r tr]. cbn zeta.
  destruct (decide (configured ev_min ev_size r)) as [Hc|Hn].
  - by rewrite configure_roi_unchanged.
  - destruct (grandparent_channel_num r) as [c|] eqn:Hg.
    + by rewrite (configure_roi_changed _ _ _ _ c).
    + by rewrite configure_roi_orphan.
Qed.

(** The slot [set_roi] works on. *)
Definition slot_of (ior : index_or_roi) : string :=
  match ior with
  | Index i => Builder.mcaroi_attr i
  | RoiObject attr => attr
  end.

Lemma od_set_present_keys {V} (k : string) (v v0 : V) (d : odict string V) :
  od_get k d = Some v0 -> (od_set k v d).*1 = d.*1.
Proof.
  induction d as [|[k' v'] d IH]; simpl; [done|].
  destruct (decide (k = k')) as [->|Hne]; simpl; [done|].
  intros H. f_equal. by apply IH.
Qed.

Lemma on_roi_frame {A} (attr : string) (m : M Roi.world A) (w : world) :
  let w' := (on_roi attr m w).2 in
  channel_num w'.1 = channel_num w.1
  /\ (mcarois w'.1).*1 = (mcarois w.1).*1
  /\ forall attr', attr' ≠ attr ->
       od_get attr' (mcarois w'.1) = od_get attr' (mcarois w.1).
Proof.
  destruct w as [ch tr]. unfold on_roi. cbn [fst snd].
  destruct (od_get attr (mcarois ch)) as [roi|] eqn:Hg; [|done].
  destruct (m (roi, tr)) as [o [roi' tr']]. cbn [fst snd channel_num mcarois].
  split; [done|]. split; [by eapply od_set_present_keys|].
  intros attr' Hne. by rewrite od_get_set_ne.
Qed.

(** X13. [set_roi] works on one slot: the channel keeps its number, its slots
    and their order, and every ROI other than the addressed one is as it was
    before the call, whether the call returns or raises. *)
Theorem set_roi_touches_one_slot (ior : index_or_roi) (ev_min ev_size : Z)
    (name : option string) (w : world) :
  let w' := (set_roi ior ev_min ev_size name w).2 in
  channel_num w'.1 = channel_num w.1
  /\ (mcarois w'.1).*1 = (mcarois w.1).*1
  /\ forall attr, attr ≠ slot_of ior ->
       od_get attr (mcarois w'.1) = od_get attr (mcarois w.1).
Proof.
  cbn zeta. unfold set_roi. rewrite run_bind.
  assert (forall attr,
            attr = slot_of ior ->
            let w' := ((on_roi attr (configure_roi ev_min ev_size);;
                        match name with
                        | None => mret tt
                        | Some name =>
                            chan ← Py.gets (fun w => channel_num w.1);
                            let roi_name := roi_name_format chan name in
                            on_roi attr
                              (rename roi_name
                                 (roi_total_name_format chan roi_name))
                        end) w).2 in
            channel_num w'.1 = channel_num w.1
            /\ (mcarois w'.1).*1 = (mcarois w.1).*1
            /\ forall attr', attr' ≠ attr ->
                 od_get attr' (mcarois w'.1) = od_get attr' (mcarois w.1))
    as Hbody.
  { intros attr _. cbn zeta. rewrite run_bind.
    pose proof (on_roi_frame attr (configure_roi ev_min ev_size) w) as H1.
    cbn zeta in H1.
    destruct (on_roi attr (configure_roi ev_min ev_size) w) as [[[]|e] w1];
      cbn [snd] in H1 |- *; [|exact H1].
    destruct name as [nm|]; [|exact H1].
    rewrite run_bind. cbn [Py.gets].
    pose proof (on_roi_frame attr
                  (rename (roi_name_format (channel_num w1.1) nm)
                     (roi_total_name_format (channel_num w1.1)
                        (roi_name_format (channel_num w1.1) nm))) w1) as H2.
    cbn zeta in H2. destruct H1 as (Hn1 & Hk1 & Ho1), H2 as (Hn2 & Hk2 & Ho2).
    split; [congruence|]. split; [congruence|].
    intros attr' Hne. rewrite Ho2, Ho1; done. }
  destruct ior as [i|attr].
  - destruct (i <=? 0); [done|]. cbn [mret M_ret Py.ret].
    by apply Hbody.
  - cbn [mret M_ret Py.ret]. by apply Hbody.
Qed.

(** X14. On a channel built for [r] ROIs, an index beyond [r] finds no slot:
    [set_roi] raises [AttributeError] for the attribute ["mcaroi" +
    f"{i:02d}"] and writes nothing. *)
Theorem set_roi_beyond_roi_count (c r i ev_min ev_size : Z)
    (name : option string) (cname prefix : string) (pvs : string -> Z * Z * Z)
    (tr : list put_event) :
  1 <= i -> r < i ->
  let ch := new_channel (Builder.channel_class_body c r) cname prefix pvs in
  set_roi (Index i) ev_min ev_size name (ch, tr)
  = (Raised (AttributeError (Builder.mcaroi_attr i)), (ch, tr)).
Proof.
  intros Hi Hr ch. apply set_roi_missing; [done|].
  by apply (new_channel_slot c r i cname prefix pvs).
Qed.

Lemma set_roi_beyond_roi_count_witness :
  set_roi (Index 3) 2000 500 None (two_roi_channel, [])
  = (Raised (AttributeError "mcaroi03"), (two_roi_channel, [])).
Proof.
  apply (set_roi_beyond_roi_count 1 2 3 2000 500 None "xs_channel_1"
           "XF:XSP3:" (fun _ => (0, 0, 0)) []); lia.
Defined.

(** X15. With a name, a [set_roi] that configures its ROI renames two of its
    signals: [roi_name] becomes ["Det<c>_<name>"], and [total_rbv] is
    formatted from that formatted name, ["Det<c>_Det<c>_<name>_total"].
    Without a name both keep theirs. The settings are those
    [configure_roi] left. *)
Theorem set_roi_names (i ev_min ev_size : Z) (name : option string)
    (ch : Xspress3Channel) (tr tr1 : list put_event) (roi roi1 : McaRoi) :
  1 <= i ->
  od_get (Builder.mcaroi_attr i) (mcarois ch) = Some roi ->
  configure_roi ev_min ev_size (roi, tr) = (Returned tt, (roi1, tr1)) ->
  exists ch' roi',
    set_roi (Index i) ev_min ev_size name (ch, tr) = (Returned tt, (ch', tr1))
    /\ od_get (Builder.mcaroi_attr i) (mcarois ch') = Some roi'
    /\ roi_name_name roi'
       = match name with
         | None => roi_name_name roi
         | Some n => "Det" +:+ str_of_int (channel_num ch) +:+ "_" +:+ n
         end
    /\ total_rbv_name roi'
       = match name with
         | None => total_rbv_name roi
         | Some n =>
             "Det" +:+ str_of_int (channel_num ch) +:+ "_Det"
               +:+ str_of_int (channel_num ch) +:+ "_" +:+ n +:+ "_total"
         end
    /\ min_x roi' = min_x roi1 /\ size_x roi' = size_x roi1
    /\ use_rbv roi' = use_rbv roi1.
Proof.
  intros Hi Hg Hconf.
  pose proof (configure_roi_identity ev_min ev_size (roi, tr)) as Hid.
  cbn zeta in Hid. rewrite Hconf in Hid. cbn [fst snd] in Hid.
  destruct Hid as (_ & Hnm & Htot & _).
  unfold set_roi. rewrite run_bind.
  rewrite (proj2 (Z.leb_gt i 0)) by lia. cbn [mret M_ret Py.ret].
  rewrite run_bind. unfold on_roi at 1. cbn [fst snd]. rewrite Hg, Hconf.
  destruct name as [n|].
  - rewrite run_bind. cbn [Py.gets fst snd channel_num].
    unfold on_roi, rename, Py.modify. cbn [fst snd mcarois].
    rewrite od_get_set_eq. eexists _, _. split; [reflexivity|].
    cbn [mcarois]. rewrite od_get_set_eq. split; [reflexivity|].
    cbn [roi_name_name total_rbv_name min_x size_x use_rbv].
    split; [reflexivity|]. split; [|done].
    unfold roi_total_name_format, roi_name_format.
    by rewrite !Fmt.append_assoc.
  - cbn [mret M_ret Py.ret]. eexists _, _. split; [reflexivity|].
    cbn [mcarois]. rewrite od_get_set_eq. by split.
Qed.

Lemma set_roi_names_witness :
  exists ch' roi',
    set_roi (Index 2) 2000 500 (Some "Fe") (two_roi_channel, [])
    = (Returned tt,
       (ch', [Put "XF:XSP3:MCA1ROI:2:" MinX 2000;
              Put "XF:XSP3:MCA1ROI:2:" SizeX 500;
              Put "XF:XSP3:MCA1ROI:2:" Use 1]))
    /\ od_get "mcaroi02" (mcarois ch') = Some roi'
    /\ roi_name_name roi' = "Det1_Fe"
    /\ total_rbv_name roi' = "Det1_Det1_Fe_total".
Proof.
  destruct (set_roi_names 2 2000 500 (Some "Fe") two_roi_channel [] _
              _ _ ltac:(lia) eq_refl eq_refl)
    as (ch' & roi' & Hrun & Hget & Hnm & Htot & _).
  exists ch', roi'. split; [exact Hrun|]. split; [exact Hget|].
  split; [exact Hnm | exact Htot].
Defined.

End Channel.

(** ** [XspressTrigger]: the trigger mixin *)

Module Trigger.

(** [ophyd.device.Staged] *)
Inductive Staged := no | yes | partially.

#[global] Instance Staged_eq_dec : EqDecision Staged.
Proof. solve_decision. Defined.

(** What the mixin does to its collaborators. A [DeviceStatus] object is
    known by its address. *)
Inductive event :=
| AcquirePut (v : Z) (wait : bool)          (* self._acquisition_signal.put *)
| Dispatch (name : string) (time : Z)       (* self.dispatch(ch.name, t) *)
| Finished (status : nat).                  (* status._finished() *)

(** The device: [_status] is [None] or the pending [DeviceStatus];
    [attrs] gives, for an attribute of the device, the [.name] of the
    component behind it; [next_status] is the address the next
    [DeviceStatus] is created at. *)
Record device := {
  _staged : Staged;
  _status : option nat;
  _abs_trigger_count : Z;
  read_attrs : list string;
  attrs : odict string string;
  next_status : nat;
  trace : list event
}.

(** The device after more events. *)
Definition add_trace (d : device) (es : list event) : device :=
  {| _staged := _staged d; _status := _status d;
     _abs_trigger_count := _abs_trigger_count d;
     read_attrs := read_attrs d; attrs := attrs d;
     next_status := next_status d; trace := trace d ++ es |}.

Definition emit (e : event) : M device unit :=
  Py.modify (fun d => add_trace d [e]).

(** [self._status = DeviceStatus(self)] *)
Definition new_status : M device nat :=
  fun d => (Returned (next_status d),
            {| _staged := _staged d; _status := Some (next_status d);
               _abs_trigger_count := _abs_trigger_count d;
               read_attrs := read_attrs d; attrs := attrs d;
               next_status := S (next_status d); trace := trace d |}).

(** [self._abs_trigger_count += 1] *)
Definition count_trigger : M device unit :=
  Py.modify (fun d =>
    {| _staged := _staged d; _status := _status d;
       _abs_trigger_count := _abs_trigger_count d + 1;
       read_attrs := read_attrs d; attrs := attrs d;
       next_status := next_status d; trace := trace d |}).

(** [x == n] for a Python value [x] and an integer literal [n]: booleans
    compare as 0 and 1, strings and [None] are never equal to a number. *)
Definition eq_int (x : pyval) (n : Z) : bool :=
  match x with
  | PInt z => z =? n
  | PBool b => (if b then 1 else 0) =? n
  | PStr _ | PNone => false
  end.

(** [XspressTrigger._acquire_changed(value, old_value)]: the callback of
    the acquire signal. *)
Definition _acquire_changed (value old_value : pyval) : M device unit :=
  st ← Py.gets _status;
  match st with
  | None => mret tt
  | Some status =>
      if eq_int old_value 1 && eq_int value 0
      then emit (Finished status) (* an acquisition just finished *)
      else mret tt
  end.

(** ["." in s] *)
Fixpoint has_dot (s : string) : bool :=
  match s with
  | EmptyString => false
  | String a s' => bool_decide (a = "."%char) || has_dot s'
  end.

Section WithDispatch.

(** [self.dispatch(name, time)] is ophyd's; whether it raises for a name is
    left open. *)
Variable dispatch_raises : string -> option exn.

Definition dispatch (name : string) (time : Z) : M device unit :=
  match dispatch_raises name with
  | Some e => Py.raise e
  | None => emit (Dispatch name time)
  end.

(** The loop over [self.read_attrs] in [trigger]. *)
Fixpoint dispatch_channels (sns : list string) (trigger_time : Z)
  : M device unit :=
  match sns with
  | [] => mret tt
  | sn :: sns' =>
      (if String.prefix "channel" sn && negb (has_dot sn) then
         d ← Py.get;
         match od_get sn (attrs d) with
         | None => Py.raise (AttributeError sn)
         | Some ch_name => dispatch ch_name trigger_time
         end
       else mret tt);;
      dispatch_channels sns' trigger_time
  end.

(** [XspressTrigger.trigger()]; [trigger_time] is what [time.time()]
    returns. *)
Definition trigger (trigger_time : Z) : M device nat :=
  d ← Py.get;
  if decide (_staged d ≠ yes) then Py.raise (RuntimeError "not staged")
  else
    status ← new_status;
    emit (AcquirePut 1 false);;
    dispatch_channels (read_attrs d) trigger_time;;
    count_trigger;;
    mret status.

(** The channel attributes [trigger] dispatches for. *)
Definition channel_attrs (d : device) : list string :=
  filter (fun sn => String.prefix "channel" sn && negb (has_dot sn) = true)
         (read_attrs d).

(** Every channel attribute resolves and its dispatch returns. *)
Definition dispatch_ok (d : device) : Prop :=
  Forall (fun sn => exists ch_name,
            od_get sn (attrs d) = Some ch_name
            /\ dispatch_raises ch_name = None)
         (channel_attrs d).

End WithDispatch.

(** The callback run over a history of changes [(old_value, value)] of the
    acquire signal. *)
Fixpoint acquire_changes (changes : list (pyval * pyval)) : M device unit :=
  match changes with
  | [] => mret tt
  | (old_value, value) :: rest =>
      _acquire_changed value old_value;; acquire_changes rest
  end.

(** A strict falling edge: previous value 1, new value 0. *)
Definition falling (change : pyval * pyval) : bool :=
  eq_int change.1 1 && eq_int change.2 0.

(** The events [trigger] adds for the channels. *)
Definition dispatched (d : device) (trigger_time : Z) : list event :=
  (fun sn => Dispatch (default EmptyString (od_get sn (attrs d))) trigger_time)
    <$> channel_attrs d.

Lemma add_trace_nil (d : device) : add_trace d [] = d.
Proof. destruct d. unfold add_trace. simpl. by rewrite app_nil_r. Qed.

Lemma add_trace_app (d : device) (es es' : list event) :
  add_trace (add_trace d es) es' = add_trace d (es ++ es').
Proof. unfold add_trace. simpl. by rewrite (assoc_L (++)). Qed.

Lemma dispatch_channels_ok (dr : string -> option exn) (sns : list string)
    (t : Z) (d : device) :
  Forall (fun sn => exists ch_name,
            od_get sn (attrs d) = Some ch_name /\ dr ch_name = None)
         (filter (fun sn => String.prefix "channel" sn && negb (has_dot sn) = true)
                 sns) ->
  dispatch_channels dr sns t d
  = (Returned tt,
     add_trace d
       ((fun sn => Dispatch (default EmptyString (od_get sn (attrs d))) t)
          <$> filter (fun sn => String.prefix "channel" sn
                                && negb (has_dot sn) = true) sns)).
Proof.
  revert d. induction sns as [|sn sns IH]; intros d Hok.
  - simpl. by rewrite add_trace_nil.
  - cbn [dispatch_channels]. rewrite run_bind.
    rewrite filter_cons in Hok |- *.
    destruct (decide (String.prefix "channel" sn && negb (has_dot sn) = true))
      as [Hc|Hc].
    + rewrite Hc. apply Forall_cons in Hok as [(nm & Hg & Hdr) Hok].
      rewrite run_bind. cbn [Py.get]. rewrite Hg. unfold dispatch. rewrite Hdr.
      cbn [emit Py.modify]. rewrite (IH (add_trace d [Dispatch nm t])) by done.
      rewrite add_trace_app. cbn [attrs add_trace fmap list_fmap].
      by rewrite Hg.
    + apply not_true_is_false in Hc. rewrite Hc.
      cbn [mret M_ret Py.ret]. by apply IH.
Qed.

(** The loop over the channels only adds dispatches to the trace. *)
Lemma dispatch_channels_frame (dr : string -> option exn) (sns : list string)
    (t : Z) (d : device) :
  exists es,
    (dispatch_channels dr sns t d).2 = add_trace d es
    /\ Forall (fun e => exists name, e = Dispatch name t) es.
Proof.
  revert d. induction sns as [|sn sns IH]; intros d.
  - exists []. by rewrite add_trace_nil.
  - cbn [dispatch_channels]. rewrite run_bind.
    destruct (String.prefix "channel" sn && negb (has_dot sn)).
    + rewrite run_bind. cbn [Py.get].
      destruct (od_get sn (attrs d)) as [nm|].
      * unfold dispatch. destruct (dr nm) as [e|].
        -- exists []. by rewrite add_trace_nil.
        -- cbn [emit Py.modify].
           destruct (IH (add_trace d [Dispatch nm t])) as (es & Hes & Hall).
           exists (Dispatch nm t :: es). rewrite Hes, add_trace_app.
           split; [done|]. apply Forall_cons. eauto.
      * exists []. by rewrite add_trace_nil.
    + cbn [mret M_ret Py.ret]. apply IH.
Qed.


(** A staged device reading two channels. *)
Definition staged_device : device :=
  {| _staged := yes; _status := None; _abs_trigger_count := 0;
     read_attrs := ["channel1"; "channel2"; "hdf5.array_counter"];
     attrs := [("channel1", "xs_channel1"); ("channel2", "xs_channel2")];
     next_status := 0; trace := [] |}.





Lemma acquire_changed_pending (value old_value : pyval) (d : device) (s : nat) :
  _status d = Some s ->
  _acquire_changed value old_value d
  = (Returned tt,
     if falling (old_value, value) then add_trace d [Finished s] else d).
Proof.
  intros Hs. unfold _acquire_changed. rewrite run_bind. cbn [Py.gets].
  rewrite Hs. unfold falling. cbn [fst snd].
  by destruct (eq_int old_value 1 && eq_int value 0).
Qed.

Lemma acquire_changes_pending (changes : list (pyval * pyval)) (d : device)
    (s : nat) :
  _status d = Some s ->
  acquire_changes changes d
  = (Returned tt,
     add_trace d ((fun _ => Finished s) <$> filter (fun c => falling c = true) changes)).
Proof.
  revert d. induction changes as [|[ov v] cs IH]; intros d Hs.
  - simpl. by rewrite add_trace_nil.
  - cbn [acquire_changes]. rewrite run_bind, (acquire_changed_pending _ _ _ s Hs).
    rewrite filter_cons.
    destruct (decide (falling (ov, v) = true)) as [Hf|Hf].
    + rewrite Hf. rewrite IH by done. by rewrite add_trace_app.
    + apply not_true_is_false in Hf. rewrite Hf. by apply IH.
Qed.

(** [d'] is [d] but for its trace. *)
Definition same_but_trace (d d' : device) : Prop :=
  _staged d' = _staged d
  /\ _status d' = _status d
  /\ _abs_trigger_count d' = _abs_trigger_count d
  /\ read_attrs d' = read_attrs d
  /\ attrs d' = attrs d
  /\ next_status d' = next_status d.

(** C7, as stated, fails: the callback does not ask whether the status in
    [_status] is still unresolved, and it does not empty the slot when it
    resolves the status. After one [trigger()], the first falling edge of
    the acquire signal resolves the status; at the second falling edge no
    future is pending any more, and yet the callback calls [_finished()]
    on the same status again. *)
Lemma finished_status_is_resolved_again :
  exists d1 d2 d3,
    trigger (fun _ => None) 1000 staged_device = (Returned 0%nat, d1)
    /\ acquire_changes [(PInt 0, PInt 1); (PInt 1, PInt 0)] d1
       = (Returned tt, d2)
    /\ trace d2 = trace d1 ++ [Finished 0%nat]
    /\ _status d2 = Some 0%nat
    /\ acquire_changes [(PInt 0, PInt 1); (PInt 1, PInt 0)] d2
       = (Returned tt, d3)
    /\ trace d3 = trace d1 ++ [Finished 0%nat; Finished 0%nat].
Proof.
  eexists _, _, _. split; [reflexivity|]. split; [reflexivity|].
  split; [reflexivity|]. split; [reflexivity|]. split; reflexivity.
Qed.

(** C7, amended. The callback of the acquire signal: with [_status]
    empty it returns and changes nothing, whatever the values; with a
    status in [_status], a change from 1 to 0 calls the [_finished()] of
    that status once and changes nothing else, the status staying in
    [_status]; any other change does nothing at all. So over a history of
    changes the status in [_status] is resolved once for each falling
    edge, be it resolved already or not. *)
Theorem acquire_changed_resolves_on_falling_edge (value old_value : pyval)
    (d : device) :
  (_status d = None ->
     _acquire_changed value old_value d = (Returned tt, d))
  /\ (forall s, _status d = Some s -> falling (old_value, value) = true ->
        exists d',
          _acquire_changed value old_value d = (Returned tt, d')
          /\ trace d' = trace d ++ [Finished s]
          /\ same_but_trace d d')
  /\ (forall s, _status d = Some s -> falling (old_value, value) = false ->
        _acquire_changed value old_value d = (Returned tt, d))
  /\ (forall s changes, _status d = Some s ->
        exists d',
          acquire_changes changes d = (Returned tt, d')
          /\ trace d'
             = trace d
               ++ replicate
                    (length (filter (fun c => falling c = true) changes))
                    (Finished s)
          /\ same_but_trace d d').
Proof.
  split; [|split; [|split]].
  - intros Hs. unfold _acquire_changed. rewrite run_bind. cbn [Py.gets].
    by rewrite Hs.
  - intros s Hs Hf. rewrite (acquire_changed_pending _ _ _ s Hs), Hf.
    eexists. split; [reflexivity|]. split; [reflexivity|].
    by unfold same_but_trace.
  - intros s Hs Hf. by rewrite (acquire_changed_pending _ _ _ s Hs), Hf.
  - intros s changes Hs. rewrite (acquire_changes_pending _ _ s Hs).
    eexists. split; [reflexivity|]. split; [|by unfold same_but_trace].
    cbn [trace add_trace]. f_equal.
    induction (filter _ changes) as [|c cs IH]; [done|].
    simpl. f_equal. exact IH.
Qed.

(** The theorem at work: a status is in [_status]; the acquire signal
    goes 0 -> 1 and then 1 -> 0; [_finished()] is called once. *)
Lemma acquire_changed_resolves_on_falling_edge_witness :
  let d := {| _staged := yes; _status := Some 0%nat; _abs_trigger_count := 1;
              read_attrs := []; attrs := []; next_status := 1;
              trace := [AcquirePut 1 false] |} in
  (exists d',
     _acquire_changed (PInt 0) (PInt 1) d = (Returned tt, d')
     /\ trace d' = [AcquirePut 1 false; Finished 0%nat])
  /\ (exists d',
        acquire_changes [(PInt 0, PInt 1); (PInt 1, PInt 0)] d
        = (Returned tt, d')
        /\ trace d' = [AcquirePut 1 false; Finished 0%nat]).
Proof.
  intros d. split.
  - destruct (proj1 (proj2 (acquire_changed_resolves_on_falling_edge
                              (PInt 0) (PInt 1) d)) 0%nat eq_refl eq_refl)
      as (d' & Hrun & Htr & _).
    exists d'. split; [exact Hrun|exact Htr].
  - destruct (proj2 (proj2 (proj2 (acquire_changed_resolves_on_falling_edge
                                     PNone PNone d)))
                0%nat [(PInt 0, PInt 1); (PInt 1, PInt 0)] eq_refl)
      as (d' & Hrun & Htr & _).
    exists d'. split; [exact Hrun|exact Htr].
Defined.

(** *** Triggers in sequence, and triggers that fail *)

(** The device after a [trigger] that returns. *)
Definition triggered (d : device) (trigger_time : Z) : device :=
  {| _staged := _staged d; _status := Some (next_status d);
     _abs_trigger_count := _abs_trigger_count d + 1;
     read_attrs := read_attrs d; attrs := attrs d;
     next_status := S (next_status d);
     trace := trace d ++ AcquirePut 1 false :: dispatched d trigger_time |}.

Lemma trigger_run (dr : string -> option exn) (t : Z) (d : device) :
  _staged d = yes -> dispatch_ok dr d ->
  trigger dr t d = (Returned (next_status d), triggered d t).
Proof.
  intros Hs Hok. unfold trigger. rewrite run_bind. cbn [Py.get].
  rewrite decide_False by (intros Hn; by apply Hn).
  rewrite run_bind. cbn [new_status]. rewrite run_bind.
  cbn [emit Py.modify]. rewrite run_bind.
  rewrite dispatch_channels_ok by exact Hok.
  rewrite run_bind. cbn [count_trigger Py.modify mret M_ret Py.ret].
  unfold triggered. cbn. by rewrite <- (assoc_L (++)).
Qed.

Lemma triggered_dispatch_ok (dr : string -> option exn) (t : Z) (d : device) :
  dispatch_ok dr d -> dispatch_ok dr (triggered d t).
Proof. done. Qed.

(** [trigger()] called once per element of [times]. *)
Fixpoint triggers (dr : string -> option exn) (times : list Z)
  : M device (list nat) :=
  match times with
  | [] => mret []
  | t :: times' =>
      status ← trigger dr t;
      statuses ← triggers dr times';
      mret (status :: statuses)
  end.

Lemma triggers_run (dr : string -> option exn) (times : list Z) (d : device) :
  _staged d = yes -> dispatch_ok dr d ->
  exists d',
    triggers dr times d
    = (Returned (seq (next_status d) (length times)), d')
    /\ _staged d' = yes
    /\ dispatch_ok dr d'
    /\ _abs_trigger_count d'
       = _abs_trigger_count d + Z.of_nat (length times)
    /\ next_status d' = (next_status d + length times)%nat
    /\ _status d'
       = match times with
         | [] => _status d
         | _ => Some (next_status d + length times - 1)%nat
         end.
Proof.
  revert d. induction times as [|t times IH]; intros d Hs Hok.
  - exists d. cbn [triggers length seq mret M_ret Py.ret].
    split; [done|]. split; [done|]. split; [done|]. split; [cbn; lia|].
    split; [lia|done].
  - destruct (IH (triggered d t)) as (d' & Hrun & Hs' & Hok' & Hc & Hn & Hst);
      [done|by apply triggered_dispatch_ok|].
    exists d'. cbn [triggers]. rewrite run_bind, trigger_run by done.
    rewrite run_bind, Hrun. cbn [mret M_ret Py.ret seq length].
    cbn [triggered next_status _abs_trigger_count _status] in Hn, Hc, Hst.
    split; [done|]. split; [done|]. split; [done|].
    split; [lia|]. split; [lia|].
    destruct times as [|t' times]; cbn [length] in *.
    + rewrite Hst. f_equal. lia.
    + rewrite Hst. f_equal. lia.
Qed.

(** X16. Each [trigger] on a staged device returns a status object of its own,
    and [_abs_trigger_count] counts the triggers: after [n] of them it has
    grown by [n]. *)
Theorem triggers_are_counted (dr : string -> option exn) (times : list Z)
    (d : device) :
  _staged d = yes -> dispatch_ok dr d ->
  exists statuses d',
    triggers dr times d = (Returned statuses, d')
    /\ length statuses = length times
    /\ NoDup statuses
    /\ _abs_trigger_count d'
       = _abs_trigger_count d + Z.of_nat (length times).
Proof.
  intros Hs Hok.
  destruct (triggers_run dr times d Hs Hok) as (d' & Hrun & _ & _ & Hc & _).
  exists (seq (next_status d) (length times)), d'.
  split; [done|]. split; [by rewrite length_seq|]. split; [apply NoDup_seq|done].
Qed.

Lemma staged_device_dispatch_ok : dispatch_ok (fun _ => None) staged_device.
Proof.
  unfold dispatch_ok.
  change (channel_attrs staged_device) with ["channel1"; "channel2"].
  repeat (apply Forall_cons; split; [eexists; split; reflexivity|]).
  apply Forall_nil_2.
Qed.

Lemma triggers_are_counted_witness :
  exists statuses d',
    triggers (fun _ => None) [1000; 1001; 1002] staged_device
    = (Returned statuses, d')
    /\ length statuses = 3%nat
    /\ NoDup statuses
    /\ _abs_trigger_count d' = 0 + 3.
Proof.
  apply (triggers_are_counted (fun _ => None) [1000; 1001; 1002]
           staged_device eq_refl staged_device_dispatch_ok).
Defined.

(** X17. Only the status of the latest [trigger] can be resolved: after one or
    more triggers, every falling edge of the acquire signal finishes the
    status that the last of them returned; the statuses of the earlier
    triggers are never finished. *)
Theorem latest_trigger_is_resolved (dr : string -> option exn)
    (times : list Z) (t : Z) (changes : list (pyval * pyval)) (d : device) :
  _staged d = yes -> dispatch_ok dr d ->
  exists earlier s d1 d2,
    triggers dr (times ++ [t]) d = (Returned (earlier ++ [s]), d1)
    /\ (s ∉ earlier)
    /\ acquire_changes changes d1 = (Returned tt, d2)
    /\ trace d2
       = trace d1
         ++ replicate (length (filter (fun c => falling c = true) changes))
              (Finished s).
Proof.
  intros Hs Hok.
  destruct (triggers_run dr (times ++ [t]) d Hs Hok)
    as (d1 & Hrun & _ & _ & _ & _ & Hst).
  rewrite length_app in Hrun, Hst. cbn [length] in Hrun, Hst.
  exists (seq (next_status d) (length times)),
         (next_status d + length times)%nat, d1.
  assert (_status d1 = Some (next_status d + length times)%nat) as Hst1.
  { destruct (times ++ [t]) eqn:E; [by destruct times|].
    rewrite Hst. f_equal. lia. }
  rewrite (acquire_changes_pending changes d1 _ Hst1). eexists.
  split; [|split; [|split; [reflexivity|]]].
  - rewrite Hrun. by rewrite seq_app.
  - rewrite elem_of_seq. lia.
  - cbn [trace add_trace]. f_equal.
    induction (filter _ changes) as [|c cs IH]; [done|].
    cbn. f_equal. exact IH.
Qed.

Lemma latest_trigger_is_resolved_witness :
  exists earlier s d1 d2,
    triggers (fun _ => None) ([1000] ++ [1001]) staged_device
    = (Returned (earlier ++ [s]), d1)
    /\ (s ∉ earlier)
    /\ acquire_changes [(PInt 0, PInt 1); (PInt 1, PInt 0)] d1
       = (Returned tt, d2)
    /\ trace d2
       = trace d1
         ++ replicate
              (length (filter (fun c => falling c = true)
                         [(PInt 0, PInt 1); (PInt 1, PInt 0)]))
              (Finished s).
Proof.
  apply (latest_trigger_is_resolved (fun _ => None) [1000] 1001
           [(PInt 0, PInt 1); (PInt 1, PInt 0)] staged_device eq_refl
           staged_device_dispatch_ok).
Defined.

(** X18. A [trigger] that fails after the staged check (a channel attribute
    that is missing, a dispatch that raises) has already replaced
    [_status] by a new status object and written 1 to the acquire signal;
    what it has not done is count the trigger. *)
Theorem failed_trigger_has_started (dr : string -> option exn) (t : Z)
    (d d' : device) (e : exn) :
  _staged d = yes ->
  trigger dr t d = (Raised e, d') ->
  _status d' = Some (next_status d)
  /\ _abs_trigger_count d' = _abs_trigger_count d
  /\ exists es,
       trace d' = trace d ++ AcquirePut 1 false :: es
       /\ Forall (fun ev => exists name, ev = Dispatch name t) es.
Proof.
  intros Hs. unfold trigger. rewrite run_bind. cbn [Py.get].
  rewrite decide_False by (intros Hn; by apply Hn).
  rewrite run_bind. cbn [new_status]. rewrite run_bind.
  cbn [emit Py.modify]. rewrite run_bind.
  set (d1 := add_trace _ _).
  destruct (dispatch_channels_frame dr (read_attrs d) t d1) as (es & Hes & Hall).
  destruct (dispatch_channels dr (read_attrs d) t d1) as [[[]|e'] d2].
  - rewrite run_bind. cbn [count_trigger Py.modify mret M_ret Py.ret]. done.
  - intros [= <- <-]. cbn [snd] in Hes. subst d2 d1. cbn.
    split; [done|]. split; [done|]. exists es. split; [|done].
    by rewrite <- (assoc_L (++)).
Qed.

(** A staged device whose second channel attribute does not resolve. *)
Definition half_wired_device : device :=
  {| _staged := yes; _status := None; _abs_trigger_count := 4;
     read_attrs := ["channel1"; "channel2"];
     attrs := [("channel1", "xs_channel1")];
     next_status := 0; trace := [] |}.

Lemma failed_trigger_has_started_witness :
  _status (trigger (fun _ => None) 1000 half_wired_device).2 = Some 0%nat
  /\ _abs_trigger_count (trigger (fun _ => None) 1000 half_wired_device).2 = 4
  /\ exists es,
       trace (trigger (fun _ => None) 1000 half_wired_device).2
       = [] ++ AcquirePut 1 false :: es
       /\ Forall (fun ev => exists name, ev = Dispatch name 1000) es.
Proof.
  apply (failed_trigger_has_started (fun _ => None) 1000 half_wired_device
           (trigger (fun _ => None) 1000 half_wired_device).2
           (AttributeError "channel2") eq_refl).
  reflexivity.
Defined.

(** *** Staging and unstaging the mixin *)

(** What the mixin asks of the acquire signal about its callback:
    [subscribe(self._acquire_changed)] and
    [clear_sub(self._acquire_changed)]. *)
Inductive hook := Subscribe | ClearSub.

(** The mixin: the device, and its requests to the acquire signal. *)
Record mixin := {
  dev : device;
  hooks : list hook
}.

(** A method of the device, run on the mixin. *)
Definition on_dev {A} (m : M device A) : M mixin A :=
  fun x => let '(o, d') := m (dev x) in (o, {| dev := d'; hooks := hooks x |}).

Definition request (h : hook) : M mixin unit :=
  Py.modify (fun x => {| dev := dev x; hooks := hooks x ++ [h] |}).

(** [self._abs_trigger_count = 0] and [self._status = None] *)
Definition reset_count (d : device) : device :=
  {| _staged := _staged d; _status := _status d; _abs_trigger_count := 0;
     read_attrs := read_attrs d; attrs := attrs d;
     next_status := next_status d; trace := trace d |}.
Definition drop_status (d : device) : device :=
  {| _staged := _staged d; _status := None;
     _abs_trigger_count := _abs_trigger_count d;
     read_attrs := read_attrs d; attrs := attrs d;
     next_status := next_status d; trace := trace d |}.

Section WithBase.

(** [super().stage()] and [super().unstage()] are ophyd's: what they do to
    the device, and whether they raise, is left open. *)
Variables base_stage base_unstage : M device unit.

(** [XspressTrigger.stage()] *)
Definition stage : M mixin unit :=
  on_dev (Py.modify reset_count);;
  request Subscribe;;
  on_dev base_stage.

(** [XspressTrigger.unstage()] *)
Definition unstage : M mixin unit :=
  ret ← on_dev base_unstage;
  request ClearSub;;
  on_dev (Py.modify drop_status);;
  mret ret.

End WithBase.

Lemma acquire_changes_idle (changes : list (pyval * pyval)) (d : device) :
  _status d = None -> acquire_changes changes d = (Returned tt, d).
Proof.
  intros Hs. induction changes as [|[ov v] cs IH]; [done|].
  cbn [acquire_changes]. rewrite run_bind. unfold _acquire_changed at 1.
  rewrite run_bind. cbn [Py.gets]. rewrite Hs. exact IH.
Qed.

(** X19. [unstage] calls [super().unstage()] first. When that returns, the
    callback is cleared from the acquire signal and [_status] is dropped,
    so that a change of the acquire signal that still arrives resolves
    nothing. When it raises, the exception goes through and neither has
    happened: the callback stays subscribed and [_status] is as
    [super().unstage()] left it. *)
Theorem unstage_silences_callback (base_unstage : M device unit) (x : mixin) :
  match base_unstage (dev x) with
  | (Returned _, d1) =>
      unstage base_unstage x
      = (Returned tt, {| dev := drop_status d1; hooks := hooks x ++ [ClearSub] |})
      /\ forall changes,
           acquire_changes changes (drop_status d1)
           = (Returned tt, drop_status d1)
  | (Raised e, d1) =>
      unstage base_unstage x = (Raised e, {| dev := d1; hooks := hooks x |})
  end.
Proof.
  destruct (base_unstage (dev x)) as [[[]|e] d1] eqn:E.
  - split; [|intros changes; by apply acquire_changes_idle].
    unfold unstage. rewrite run_bind. unfold on_dev. by rewrite E.
  - unfold unstage. rewrite run_bind. unfold on_dev. by rewrite E.
Qed.

Lemma stage_run (base_stage : M device unit) (x : mixin) :
  stage base_stage x
  = ((base_stage (reset_count (dev x))).1,
     {| dev := (base_stage (reset_count (dev x))).2;
        hooks := hooks x ++ [Subscribe] |}).
Proof.
  unfold stage. munfold. unfold on_dev, request, Py.modify.
  cbn [dev hooks]. destruct (base_stage (reset_count (dev x))) as [o d1].
  reflexivity.
Qed.

(** X20. [stage] puts the trigger count back to 0 before it does anything
    else. With a [super().stage()] that returns, stages the device and
    leaves the count alone, the count after [stage] and [n] triggers is [n],
    whatever it was before; the callback has been subscribed once. *)
Theorem stage_restarts_trigger_count (base_stage : M device unit)
    (dr : string -> option exn) (times : list Z) (x : mixin) (d1 : device) :
  base_stage (reset_count (dev x)) = (Returned tt, d1) ->
  _staged d1 = yes -> _abs_trigger_count d1 = 0 -> dispatch_ok dr d1 ->
  exists statuses x',
    (stage base_stage;; on_dev (triggers dr times)) x = (Returned statuses, x')
    /\ length statuses = length times
    /\ _abs_trigger_count (dev x') = Z.of_nat (length times)
    /\ hooks x' = hooks x ++ [Subscribe].
Proof.
  intros Hbase Hs Hc Hok.
  destruct (triggers_run dr times d1 Hs Hok) as (d' & Hrun & _ & _ & Hc' & _).
  exists (seq (next_status d1) (length times)),
         {| dev := d'; hooks := hooks x ++ [Subscribe] |}.
  rewrite run_bind, stage_run, Hbase. cbn [fst snd]. unfold on_dev.
  cbn [dev hooks]. rewrite Hrun.
  split; [done|]. split; [by rewrite length_seq|]. split; [|done].
  cbn [dev]. lia.
Qed.

(** A device that has been used: unstaged, 7 triggers counted. *)
Definition used_mixin : mixin :=
  {| dev := {| _staged := no; _status := None; _abs_trigger_count := 7;
               read_attrs := ["channel1"; "channel2"];
               attrs := [("channel1", "xs_channel1");
                         ("channel2", "xs_channel2")];
               next_status := 7; trace := [] |};
     hooks := [] |}.

(** A [super().stage()] that stages the device and returns. *)
Definition staging (d : device) : outcome unit * device :=
  (Returned tt,
   {| _staged := yes; _status := _status d;
      _abs_trigger_count := _abs_trigger_count d;
      read_attrs := read_attrs d; attrs := attrs d;
      next_status := next_status d; trace := trace d |}).

Lemma stage_restarts_trigger_count_witness :
  exists statuses x',
    (stage staging;; on_dev (triggers (fun _ => None) [1000; 1001])) used_mixin
    = (Returned statuses, x')
    /\ length statuses = 2%nat
    /\ _abs_trigger_count (dev x') = 2
    /\ hooks x' = [Subscribe].
Proof.
  apply (stage_restarts_trigger_count staging (fun _ => None) [1000; 1001]
           used_mixin (staging (reset_count (dev used_mixin))).2
           eq_refl eq_refl eq_refl).
  unfold dispatch_ok.
  change (channel_attrs _) with ["channel1"; "channel2"].
  repeat (apply Forall_cons; split; [eexists; split; reflexivity|]).
  apply Forall_nil_2.
Defined.

End Trigger.

(** ** [Xspress3FileStore]: staging, unstaging and datum generation *)

Module FileStore.

(** The signals the plugin reads, writes or stages: its own components, those
    of the camera ([self.cam....]), and whatever else the base classes put
    into [stage_sigs]. *)
Inductive signal :=
| blocking_callbacks | enable | compression | file_template
| num_capture | num_capture_calc | num_capture_calc_disable
| auto_save | capture
| cam_acquire | cam_num_images | cam_trigger_mode | cam_erase
| other_signal (name : string).

#[global] Instance signal_eq_dec : EqDecision signal.
Proof. solve_decision. Defined.

(** [time.sleep(0.1)] in the unstage poll, [time.sleep(self._config_time)]
    at the end of [stage]. *)
Inductive delay := PollInterval | ConfigTime.

(** What the plugin does to its collaborators. [Put s v wait] is
    [s.put(v)], with [wait=...] when the call says so: a hardware write. *)
Inductive event :=
| Put (s : signal) (v : pyval) (wait : option bool)
| Warning (msg : string)
| Sleep (d : delay)
| MakeDirs (path : string)
| BaseStage (sigs : odict signal pyval)       (* super().stage() *)
| BaseUnstage                                 (* super().unstage() *)
| GenerateResource                            (* self._generate_resource({}) *)
| BaseGenerateDatum (key : string) (timestamp : Z)
    (datum_kwargs : odict string pyval).      (* super().generate_datum *)

#[global] Instance delay_eq_dec : EqDecision delay.
Proof. solve_decision. Defined.
#[global] Instance event_eq_dec : EqDecision event.
Proof. solve_decision. Defined.

Definition is_put (e : event) : bool :=
  match e with Put _ _ _ => true | _ => false end.

(** The hardware writes among some events. *)
Definition hardware_writes (es : list event) : list event :=
  filter (fun e => is_put e = true) es.

(** The plugin with what it reads from its parent detector: the soft
    signals [external_trig], [total_points], [spectra_per_point],
    [make_directories], the read-back of [cam.num_images], the trigger
    mixin's [_abs_trigger_count], and per attribute [channelN] of the
    parent the [.name] of that channel. *)
Record plugin := {
  external_trig : pyval;
  total_points : Z;
  spectra_per_point : Z;
  make_directories : pyval;
  cam_num_images_rbv : Z;
  _abs_trigger_count : Z;
  parent_attrs : odict string string;
  stage_sigs : odict signal pyval;
  channels : list Z;
  mds_keys : gmap Z string;
  trace : list event
}.

(** What the collaborators answer during one call. *)
Record env := {
  write_path : string;                 (* from super().make_filename() *)
  base_stage_raises : option exn;      (* super().stage() *)
  file_path_exists : bool;             (* self.file_path_exists.get() *)
  file_path : string;                  (* self.file_path.get() *)
  base_unstage_raises : option exn;    (* super().unstage() *)
  handler_interrupted : option nat
  (* a second KeyboardInterrupt, arriving while the except block of
     unstage runs: after that many of its two statements *)
}.

Definition with_trace (es : list event) (p : plugin) : plugin :=
  {| external_trig := external_trig p; total_points := total_points p;
     spectra_per_point := spectra_per_point p;
     make_directories := make_directories p;
     cam_num_images_rbv := cam_num_images_rbv p;
     _abs_trigger_count := _abs_trigger_count p;
     parent_attrs := parent_attrs p; stage_sigs := stage_sigs p;
     channels := channels p; mds_keys := mds_keys p;
     trace := trace p ++ es |}.

Definition with_stage_sigs (f : odict signal pyval -> odict signal pyval)
    (p : plugin) : plugin :=
  {| external_trig := external_trig p; total_points := total_points p;
     spectra_per_point := spectra_per_point p;
     make_directories := make_directories p;
     cam_num_images_rbv := cam_num_images_rbv p;
     _abs_trigger_count := _abs_trigger_count p;
     parent_attrs := parent_attrs p; stage_sigs := f (stage_sigs p);
     channels := channels p; mds_keys := mds_keys p;
     trace := trace p |}.

Definition with_mds_key (n : Z) (key : string) (p : plugin) : plugin :=
  {| external_trig := external_trig p; total_points := total_points p;
     spectra_per_point := spectra_per_point p;
     make_directories := make_directories p;
     cam_num_images_rbv := cam_num_images_rbv p;
     _abs_trigger_count := _abs_trigger_count p;
     parent_attrs := parent_attrs p; stage_sigs := stage_sigs p;
     channels := channels p; mds_keys := <[n := key]> (mds_keys p);
     trace := trace p |}.

Definition emit (e : event) : M plugin unit := Py.modify (with_trace [e]).

(** [self.stage_sigs[s] = v] and [self.stage_sigs.pop(s, None)] *)
Definition set_stage_sig (s : signal) (v : pyval) : M plugin unit :=
  Py.modify (with_stage_sigs (od_set s v)).
Definition pop_stage_sig (s : signal) : M plugin unit :=
  Py.modify (with_stage_sigs (od_pop s)).

(** Truth value of a Python object in [if x:]. *)
Definition truthy (v : pyval) : bool :=
  match v with
  | PBool b => b
  | PInt z => negb (z =? 0)
  | PStr s => negb (String.eqb s "")
  | PNone => false
  end.

(** [Xspress3FileStore.make_filename()] *)
Definition make_filename (e : env) : M plugin unit :=
  md ← Py.gets make_directories;
  if truthy md then emit (MakeDirs (write_path e)) else mret tt.

(** [super().stage()]: ophyd applies [stage_sigs], in order. *)
Definition base_stage (e : env) : M plugin unit :=
  sigs ← Py.gets stage_sigs;
  emit (BaseStage sigs);;
  match base_stage_raises e with
  | Some exc => Py.raise exc
  | None => mret tt
  end.

(** [Xspress3FileStore.stage()] *)
Definition stage (e : env) : M plugin unit :=
  (* if should external trigger *)
  external_trig_reading ← Py.gets external_trig;
  (* really force it to stop acquiring *)
  emit (Put cam_acquire (PInt 0) (Some true));;
  total_points_reading ← Py.gets total_points;
  if total_points_reading <? 1
  then Py.raise (RuntimeError "You must set the total points")
  else
    spec_per_point ← Py.gets spectra_per_point;
    let total_capture := total_points_reading * spec_per_point in
    (* stop previous acquisition *)
    set_stage_sig cam_acquire (PInt 0);;
    (* re-order the stage signals and disable the calc record *)
    pop_stage_sig num_capture;;
    pop_stage_sig cam_num_images;;
    set_stage_sig num_capture_calc_disable (PInt 1);;
    (if truthy external_trig_reading then
       set_stage_sig cam_trigger_mode (PStr "TTL Veto Only");;
       set_stage_sig cam_num_images (PInt total_capture)
     else
       set_stage_sig cam_trigger_mode (PStr "Internal");;
       set_stage_sig cam_num_images (PInt spec_per_point));;
    set_stage_sig auto_save (PStr "No");;
    make_filename e;;
    (* erasing old spectra *)
    emit (Put cam_erase (PInt 1) (Some true));;
    (* this must be set after self.cam.num_images *)
    set_stage_sig num_capture (PInt total_capture);;
    (* actually apply the stage_sigs *)
    base_stage e;;
    if negb (file_path_exists e)
    then Py.raise (IOError ("Path " +:+ file_path e
                              +:+ " does not exits on IOC!! Please Check"))
    else
      emit GenerateResource;;
      (* this gets auto turned off at the end *)
      emit (Put capture (PInt 1) None);;
      emit (Sleep ConfigTime).

(** *** Unstaging *)

(** One turn of the poll loop as the environment decides it: what
    [self.capture.get()] returned and whether a [KeyboardInterrupt] arrives
    during the [time.sleep] of that turn; or a [KeyboardInterrupt] arriving
    during the [get] itself; or one arriving in a turn in which the flag
    reads 1, after the sleep of that turn: before the next [get] or, when
    the loop gives up in that turn, after [done] of the three statements of
    the branch that gives up. An interrupt arriving elsewhere in the [try]
    block has the effects of one of these. *)
Inductive poll :=
| Reads (v : Z) (interrupted_in_sleep : bool)
| InterruptedGet
| InterruptedAfterSleep (done : nat).

Definition waiting_msg : string := "Still capturing data .... waiting.".
Definition giving_up_msg : string := "Still capturing data .... giving up.".
Definition interrupted_msg : string := "Still capturing data .... interrupted.".
Definition check_frames_msg (num_images : Z) : string :=
  "Check that the xspress3 is configured to take the right number of frames "
  +:+ "(it is trying to take " +:+ str_of_int num_images +:+ ")".

(** The branch [if i > 150] of the loop, up to its [break]. *)
Definition giving_up (frames_msg : string) : list event :=
  [Warning giving_up_msg; Warning frames_msg; Put capture (PInt 0) None].

(** The [while self.capture.get() == 1] loop of [unstage], from the turn
    with counter [i] on: the events it produces and how it ends. [polls n]
    decides turn number [n]; [frames_msg] is the warning that names
    [cam.num_images]. The loop is bounded by its counter; [fuel] bounds the
    recursion. *)
Fixpoint wait_capture (frames_msg : string) (polls : nat -> poll) (fuel : nat)
    (i : Z) : option (outcome unit * list event) :=
  match fuel with
  | O => None
  | S fuel' =>
      match polls (Z.to_nat i) with
      | InterruptedGet => Some (Raised KeyboardInterrupt, [])
      | InterruptedAfterSleep done =>
          let i := i + 1 in
          let warned :=
            if i mod 50 =? 0 then [Warning waiting_msg] else [] in
          Some (Raised KeyboardInterrupt,
                warned ++ Sleep PollInterval
                  :: (if i >? 150 then firstn done (giving_up frames_msg)
                      else []))
      | Reads v interrupted_in_sleep =>
          if v =? 1 then
            let i := i + 1 in
            let warned :=
              if i mod 50 =? 0 then [Warning waiting_msg] else [] in
            if interrupted_in_sleep then Some (Raised KeyboardInterrupt, warned)
            else if i >? 150 then
              Some (Returned tt,
                    warned ++ [Sleep PollInterval;
                               Warning giving_up_msg;
                               Warning frames_msg;
                               Put capture (PInt 0) None])
            else
              match wait_capture frames_msg polls fuel' i with
              | Some (o, es) => Some (o, warned ++ Sleep PollInterval :: es)
              | None => None
              end
          else Some (Returned tt, [])
      end
  end.

(** The [except KeyboardInterrupt] block of [unstage]. *)
Definition handler : list event :=
  [Put capture (PInt 0) None; Warning interrupted_msg].

(** [Xspress3FileStore.unstage()]: the loop inside [try], the handler of
    [KeyboardInterrupt], then [super().unstage()]. A [KeyboardInterrupt]
    that arrives while the handler runs is not caught: it ends [unstage]
    before [super().unstage()] is reached. [None] would mean that the fuel
    did not suffice. *)
Definition unstage (e : env) (polls : nat -> poll) (p : plugin)
  : option (outcome unit * plugin) :=
  match wait_capture (check_frames_msg (cam_num_images_rbv p)) polls 151 0 with
  | None => None
  | Some (Returned _, es) =>
      Some (match base_unstage_raises e with
            | Some exc => Raised exc
            | None => Returned tt
            end, with_trace (es ++ [BaseUnstage]) p)
  | Some (Raised KeyboardInterrupt, es) =>
      match handler_interrupted e with
      | Some done =>
          Some (Raised KeyboardInterrupt,
                with_trace (es ++ firstn done handler) p)
      | None =>
          Some (match base_unstage_raises e with
                | Some exc => Raised exc
                | None => Returned tt
                end, with_trace ((es ++ handler) ++ [BaseUnstage]) p)
      end
  | Some (Raised exc, es) => Some (Raised exc, with_trace es p)
  end.

(** *** Datum generation *)

(** [self.channels], as [__init__] computes it from the parent's
    [component_names]. *)
Definition channels_of (component_names : list string) : list Z :=
  Builder.range 1
    (Z.of_nat (length (filter (fun n => String.prefix "chan" n = true)
                              component_names)) + 1).

(** [next((f"channel{j}", j) for j in js
          if getattr(self.parent, f"channel{j}").name == key)] *)
Fixpoint find_channel (key : string) (js : list Z) : M plugin (string * Z) :=
  match js with
  | [] => Py.raise StopIteration
  | j :: js' =>
      attrs ← Py.gets parent_attrs;
      match od_get ("channel" +:+ str_of_int j) attrs with
      | None => Py.raise (AttributeError ("channel" +:+ str_of_int j))
      | Some name =>
          if decide (name = key) then mret ("channel" +:+ str_of_int j, j)
          else find_channel key js'
      end
  end.

(** [s[7:]] *)
Definition from_7 (s : string) : string :=
  String.substring 7 (String.length s - 7) s.

(** [Xspress3FileStore.generate_datum(key, timestamp, datum_kwargs)] *)
Definition generate_datum (key : string) (timestamp : Z)
    (datum_kwargs : odict string pyval) : M plugin unit :=
  js ← Py.gets channels;
  found ← find_channel key js;
  frame ← Py.gets _abs_trigger_count;
  channel ← match int_of_str (from_7 found.1) with
            | Some c => mret c
            | None => Py.raise (ValueError "invalid literal for int()")
            end;
  let datum_kwargs :=
    od_set "channel" (PInt channel) (od_set "frame" (PInt frame) datum_kwargs) in
  Py.modify (with_mds_key found.2 key);;
  emit (BaseGenerateDatum key timestamp datum_kwargs).

(** *** Staging: facts *)

Ltac od_simpl :=
  repeat first
    [ rewrite od_get_set_eq
    | rewrite od_get_set_ne by done
    | rewrite od_get_pop_ne by done ].

(** What [stage] does to [stage_sigs] once it has passed its check. *)
Definition restage (p : plugin) (sigs : odict signal pyval)
  : odict signal pyval :=
  let total_capture := total_points p * spectra_per_point p in
  let sigs :=
    od_set num_capture_calc_disable (PInt 1)
      (od_pop cam_num_images
         (od_pop num_capture (od_set cam_acquire (PInt 0) sigs))) in
  let sigs :=
    if truthy (external_trig p)
    then od_set cam_num_images (PInt total_capture)
           (od_set cam_trigger_mode (PStr "TTL Veto Only") sigs)
    else od_set cam_num_images (PInt (spectra_per_point p))
           (od_set cam_trigger_mode (PStr "Internal") sigs) in
  od_set num_capture (PInt total_capture) (od_set auto_save (PStr "No") sigs).

(** The staged signals after the check. *)
Definition staged_sigs (p : plugin) : odict signal pyval :=
  restage p (stage_sigs p).

(** The events of [stage] up to and including [super().stage()]. *)
Definition staging_events (e : env) (p : plugin) : list event :=
  [Put cam_acquire (PInt 0) (Some true)]
  ++ (if truthy (make_directories p) then [MakeDirs (write_path e)] else [])
  ++ [Put cam_erase (PInt 1) (Some true); BaseStage (staged_sigs p)].

Lemma with_trace_app (es es' : list event) (p : plugin) :
  with_trace es' (with_trace es p) = with_trace (es ++ es') p.
Proof. unfold with_trace. simpl. by rewrite (assoc_L (++)). Qed.

(** Run the next statement of a method on a state given by its fields. *)
Ltac meval :=
  cbn [Py.gets Py.get Py.modify Py.raise Py.ret mret M_ret emit set_stage_sig
       pop_stage_sig with_trace with_stage_sigs external_trig total_points
       spectra_per_point make_directories cam_num_images_rbv
       _abs_trigger_count parent_attrs stage_sigs channels mds_keys trace
       negb].
Ltac mstep := rewrite run_bind; meval.

Lemma stage_unset (e : env) (p : plugin) :
  total_points p < 1 ->
  stage e p
  = (Raised (RuntimeError "You must set the total points"),
     with_trace [Put cam_acquire (PInt 0) (Some true)] p).
Proof.
  intros Hlt. unfold stage. do 3 mstep.
  by rewrite (proj2 (Z.ltb_lt _ 1) Hlt).
Qed.

Lemma with_stage_sigs_trace f (es : list event) (p : plugin) :
  with_stage_sigs f (with_trace es p) = with_trace es (with_stage_sigs f p).
Proof. reflexivity. Qed.

Lemma with_stage_sigs_compose f g (p : plugin) :
  with_stage_sigs g (with_stage_sigs f p)
  = with_stage_sigs (fun sigs => g (f sigs)) p.
Proof. reflexivity. Qed.

Lemma stage_set (e : env) (p : plugin) :
  1 <= total_points p ->
  stage e p
  = (match base_stage_raises e with
     | Some exc => Raised exc
     | None =>
         if file_path_exists e then Returned tt
         else Raised (IOError ("Path " +:+ file_path e
                                 +:+ " does not exits on IOC!! Please Check"))
     end,
     with_trace
       (staging_events e p
        ++ match base_stage_raises e with
           | Some _ => []
           | None =>
               if file_path_exists e
               then [GenerateResource; Put capture (PInt 1) None;
                     Sleep ConfigTime]
               else []
           end)
       (with_stage_sigs (restage p) p)).
Proof.
  intros Hge. unfold stage, staging_events, staged_sigs, restage.
  do 3 mstep. rewrite (proj2 (Z.ltb_ge _ 1) Hge). do 5 mstep.
  destruct (truthy (external_trig p)); repeat mstep.
  all: unfold make_filename, base_stage; repeat mstep.
  all: destruct (truthy (make_directories p)); meval; repeat mstep.
  all: destruct (base_stage_raises e) as [exc|]; meval; repeat mstep.
  all: try destruct (file_path_exists e); meval; repeat mstep.
  all: unfold emit, Py.modify, Py.raise.
  all: rewrite ?with_stage_sigs_trace, ?with_trace_app, ?with_stage_sigs_trace,
         ?with_stage_sigs_compose.
  all: cbn [app]; reflexivity.
Qed.

(** [num_images] is applied before [num_capture], as the comment in
    [stage] requires: in the staged signals the former comes first. *)
Lemma stage_orders_num_capture_after_num_images (p : plugin) :
  NoDup (stage_sigs p).*1 ->
  exists i j,
    od_index cam_num_images (staged_sigs p) = Some i
    /\ od_index num_capture (staged_sigs p) = Some j
    /\ (i < j)%nat.
Proof.
  intros Hnd. unfold staged_sigs, restage.
  set (s0 := od_set num_capture_calc_disable (PInt 1)
               (od_pop cam_num_images
                  (od_pop num_capture
                     (od_set cam_acquire (PInt 0) (stage_sigs p))))).
  assert (NoDup s0.*1) as Hnd0.
  { by apply od_set_keys_NoDup, od_pop_keys_NoDup, od_pop_keys_NoDup,
      od_set_keys_NoDup. }
  assert (od_get cam_num_images s0 = None) as Himg.
  { unfold s0. rewrite od_get_set_ne by done.
    by apply od_get_pop_eq, od_pop_keys_NoDup, od_set_keys_NoDup. }
  assert (od_get num_capture s0 = None) as Hcap.
  { unfold s0. rewrite od_get_set_ne, od_get_pop_ne by done.
    by apply od_get_pop_eq, od_set_keys_NoDup. }
  assert (forall m v,
            exists i j,
              od_index cam_num_images
                (od_set num_capture (PInt (total_points p * spectra_per_point p))
                   (od_set auto_save (PStr "No")
                      (od_set cam_num_images v (od_set cam_trigger_mode m s0))))
              = Some i
              /\ od_index num_capture
                   (od_set num_capture
                      (PInt (total_points p * spectra_per_point p))
                      (od_set auto_save (PStr "No")
                         (od_set cam_num_images v
                            (od_set cam_trigger_mode m s0))))
                 = Some j
              /\ (i < j)%nat) as Hgen.
  { intros m v.
    set (s1 := od_set cam_trigger_mode m s0).
    assert (od_get cam_num_images s1 = None) as Himg1
      by (unfold s1; by rewrite od_get_set_ne).
    set (s2 := od_set cam_num_images v s1).
    assert (od_index cam_num_images s2 = Some (length s1)) as Hi2
      by (by apply od_index_set_absent).
    set (s3 := od_set auto_save (PStr "No") s2).
    assert (od_index cam_num_images s3 = Some (length s1)) as Hi3
      by (by apply od_index_set_present).
    assert (od_get num_capture s3 = None) as Hcap3.
    { unfold s3, s2, s1. by rewrite !od_get_set_ne. }
    exists (length s1), (length s3). split; [|split].
    - by apply od_index_set_present.
    - by apply od_index_set_absent.
    - by apply (od_index_lt cam_num_images s3). }
  destruct (truthy (external_trig p)); apply Hgen.
Qed.

(** C1, as stated, fails: with [total_points] at its default of -1,
    [stage] raises the configuration error after it has written 0 to
    [cam.acquire]. *)
Definition unset_plugin : plugin :=
  {| external_trig := PBool false; total_points := -1; spectra_per_point := 1;
     make_directories := PBool false; cam_num_images_rbv := 1;
     _abs_trigger_count := 0; parent_attrs := [];
     stage_sigs := [(blocking_callbacks, PInt 1); (enable, PInt 1);
                    (compression, PStr "zlib");
                    (file_template, PStr "%s%s_%6.6d.h5")];
     channels := []; mds_keys := ∅; trace := [] |}.

Definition quiet_env : env :=
  {| write_path := "/data/"; base_stage_raises := None;
     file_path_exists := true; file_path := "/data/";
     base_unstage_raises := None; handler_interrupted := None |}.

Lemma stage_unset_writes_cam_acquire :
  (stage quiet_env unset_plugin).1
    = Raised (RuntimeError "You must set the total points")
  /\ hardware_writes (trace (stage quiet_env unset_plugin).2)
     = [Put cam_acquire (PInt 0) (Some true)].
Proof. split; reflexivity. Qed.

(** C1, amended. When [total_points] reads a value below 1 (the default
    -1 included), [stage] raises [RuntimeError("You must set the total
    points")]; before that it has performed exactly one hardware write, the
    blocking [cam.acquire.put(0)] that stops the acquisition, and nothing
    else: the staged signals and the rest of the plugin are unchanged. *)
Theorem stage_unset_stops_acquisition_only (e : env) (p : plugin) :
  total_points p < 1 ->
  exists p',
    stage e p = (Raised (RuntimeError "You must set the total points"), p')
    /\ trace p' = trace p ++ [Put cam_acquire (PInt 0) (Some true)]
    /\ stage_sigs p' = stage_sigs p
    /\ mds_keys p' = mds_keys p.
Proof.
  intros Hlt. rewrite stage_unset by done. by eexists.
Qed.

Lemma stage_unset_stops_acquisition_only_witness :
  exists p',
    stage quiet_env unset_plugin
      = (Raised (RuntimeError "You must set the total points"), p')
    /\ trace p' = trace unset_plugin ++ [Put cam_acquire (PInt 0) (Some true)]
    /\ stage_sigs p' = stage_sigs unset_plugin
    /\ mds_keys p' = mds_keys unset_plugin.
Proof.
  apply (stage_unset_stops_acquisition_only quiet_env unset_plugin).
  simpl. lia.
Defined.

(** C3. With [total_points = p >= 1] and [spectra_per_point = s], [stage]
    stages [num_capture = p * s]; with external triggering requested it
    stages the trigger mode "TTL Veto Only" and [cam.num_images = p * s],
    otherwise the trigger mode "Internal" and [cam.num_images = s]. These
    are the values [super().stage()] is called with, and those of a stage
    that returns. *)
Theorem stage_sets_frame_counts (e : env) (p : plugin) :
  1 <= total_points p ->
  let total_capture := total_points p * spectra_per_point p in
  let sigs := stage_sigs (stage e p).2 in
  od_get num_capture sigs = Some (PInt total_capture)
  /\ (truthy (external_trig p) = true ->
      od_get cam_trigger_mode sigs = Some (PStr "TTL Veto Only")
      /\ od_get cam_num_images sigs = Some (PInt total_capture))
  /\ (truthy (external_trig p) = false ->
      od_get cam_trigger_mode sigs = Some (PStr "Internal")
      /\ od_get cam_num_images sigs = Some (PInt (spectra_per_point p)))
  /\ BaseStage sigs ∈ trace (stage e p).2
  /\ ((stage e p).1 = Returned tt ->
      base_stage_raises e = None /\ file_path_exists e = true).
Proof.
  intros Hge total_capture sigs. subst sigs. rewrite stage_set by done.
  cbn [snd fst stage_sigs with_trace with_stage_sigs trace].
  split; [|split; [|split; [|split]]].
  - unfold restage. by od_simpl.
  - intros Ht. unfold restage. rewrite Ht. by od_simpl.
  - intros Ht. unfold restage. rewrite Ht. by od_simpl.
  - apply elem_of_app. right. apply elem_of_app. left.
    unfold staging_events. apply elem_of_app. right. apply elem_of_app. right.
    apply elem_of_cons. right. apply list_elem_of_here.
  - destruct (base_stage_raises e); [done|].
    by destruct (file_path_exists e).
Qed.

(** The spec's example: 5 points of 3 spectra, external trigger. *)
Definition five_by_three : plugin :=
  {| external_trig := PBool true; total_points := 5; spectra_per_point := 3;
     make_directories := PBool false; cam_num_images_rbv := 1;
     _abs_trigger_count := 0; parent_attrs := [];
     stage_sigs := [(blocking_callbacks, PInt 1); (enable, PInt 1);
                    (num_capture, PInt 0)];
     channels := []; mds_keys := ∅; trace := [] |}.

Lemma stage_sets_frame_counts_witness :
  od_get num_capture (stage_sigs (stage quiet_env five_by_three).2)
    = Some (PInt 15)
  /\ od_get cam_num_images (stage_sigs (stage quiet_env five_by_three).2)
     = Some (PInt 15)
  /\ od_get cam_trigger_mode (stage_sigs (stage quiet_env five_by_three).2)
     = Some (PStr "TTL Veto Only").
Proof.
  destruct (stage_sets_frame_counts quiet_env five_by_three)
    as (Hcap & Hext & _).
  - simpl. lia.
  - destruct Hext as [Hmode Himg]; [reflexivity|].
    split; [exact Hcap|]. split; [exact Himg|exact Hmode].
Defined.

(** *** Unstaging: facts *)

(** The events of [m] turns in which the capture flag reads 1 and nothing
    interrupts, the counter standing at [i] before the first of them. *)
Fixpoint quiet_events (i : Z) (m : nat) : list event :=
  match m with
  | O => []
  | S m' =>
      (if (i + 1) mod 50 =? 0 then [Warning waiting_msg] else [])
      ++ Sleep PollInterval :: quiet_events (i + 1) m'
  end.

(** What [super().unstage()] gives. *)
Definition base_unstage_outcome (e : env) : outcome unit :=
  match base_unstage_raises e with
  | Some exc => Raised exc
  | None => Returned tt
  end.

Lemma wait_capture_total (msg : string) (polls : nat -> poll) (fuel : nat)
    (i : Z) :
  0 <= i <= 150 -> 151 <= Z.of_nat fuel + i ->
  exists o es,
    wait_capture msg polls fuel i = Some (o, es)
    /\ (o = Returned tt \/ o = Raised KeyboardInterrupt).
Proof.
  revert i. induction fuel as [|fuel IH]; intros i Hi Hfuel; [lia|].
  cbn [wait_capture].
  destruct (polls (Z.to_nat i)) as [v intr| |done]; [|by eauto..].
  destruct (v =? 1); [|by eauto].
  destruct intr; [by eauto|].
  destruct (i + 1 >? 150) eqn:Hgt; [by eauto|].
  destruct (IH (i + 1)) as (o & es & -> & Ho); [lia..|]. eauto.
Qed.

Lemma wait_capture_quiet (msg : string) (polls : nat -> poll) (m fuel : nat)
    (i : Z) :
  0 <= i -> i + Z.of_nat m <= 150 ->
  (forall j, i <= j < i + Z.of_nat m -> polls (Z.to_nat j) = Reads 1 false) ->
  wait_capture msg polls (m + fuel) i
  = match wait_capture msg polls fuel (i + Z.of_nat m) with
    | Some (o, es) => Some (o, quiet_events i m ++ es)
    | None => None
    end.
Proof.
  revert i. induction m as [|m IH]; intros i Hi Hm Hq.
  - simpl. rewrite Z.add_0_r.
    by destruct (wait_capture msg polls fuel i) as [[o es]|].
  - cbn [Nat.add wait_capture quiet_events].
    rewrite (Hq i) by lia. cbn [Z.eqb Pos.eqb].
    rewrite Z.gtb_ltb, (proj2 (Z.ltb_ge 150 (i + 1))) by lia.
    rewrite (IH (i + 1)) by (try lia; intros j Hj; apply Hq; lia).
    replace (i + 1 + Z.of_nat m) with (i + Z.of_nat (S m)) by lia.
    destruct (wait_capture msg polls fuel (i + Z.of_nat (S m))) as [[o es]|];
      [|done].
    by rewrite <- (assoc_L (++)).
Qed.

(** The loop against a flag stuck at 1: 151 turns, then the forced stop. *)
Lemma wait_capture_stuck (msg : string) (polls : nat -> poll) :
  (forall j, (j <= 150)%nat -> polls j = Reads 1 false) ->
  wait_capture msg polls 151 0
  = Some (Returned tt,
          quiet_events 0 150
          ++ [Sleep PollInterval; Warning giving_up_msg; Warning msg;
              Put capture (PInt 0) None]).
Proof.
  intros Hq. change 151%nat with (150 + 1)%nat.
  rewrite (wait_capture_quiet msg polls 150 1 0) by
    (try lia; intros j Hj; apply Hq; lia).
  cbn [wait_capture]. rewrite Hq by lia. reflexivity.
Qed.

(** The loop interrupted in turn [k], after [k] quiet turns. *)
Lemma wait_capture_interrupted (msg : string) (polls : nat -> poll) (k : nat) :
  (k <= 150)%nat ->
  (forall j, (j < k)%nat -> polls j = Reads 1 false) ->
  polls k = InterruptedGet \/ polls k = Reads 1 true ->
  exists warned,
    wait_capture msg polls 151 0
    = Some (Raised KeyboardInterrupt, quiet_events 0 k ++ warned)
    /\ hardware_writes warned = [].
Proof.
  intros Hk Hq Hint.
  replace 151%nat with (k + (151 - k))%nat by lia.
  rewrite (wait_capture_quiet msg polls k (151 - k) 0) by
    (try lia; intros j Hj; apply Hq; lia).
  destruct (151 - k)%nat as [|fuel] eqn:Hf; [lia|].
  cbn [wait_capture]. rewrite Z.add_0_l, Nat2Z.id.
  destruct Hint as [-> | ->].
  - exists []. done.
  - cbn [Z.eqb Pos.eqb]. eexists. split; [reflexivity|].
    by destruct (_ =? 0).
Qed.

(** The loop interrupted in the turn that gives up, after [done] of the
    statements of that branch. *)
Lemma wait_capture_gave_up (msg : string) (polls : nat -> poll) (done : nat) :
  (forall j, (j < 150)%nat -> polls j = Reads 1 false) ->
  polls 150%nat = InterruptedAfterSleep done ->
  wait_capture msg polls 151 0
  = Some (Raised KeyboardInterrupt,
          quiet_events 0 150
          ++ Sleep PollInterval :: firstn done (giving_up msg)).
Proof.
  intros Hq Hint. change 151%nat with (150 + 1)%nat.
  rewrite (wait_capture_quiet msg polls 150 1 0) by
    (try lia; intros j Hj; apply Hq; lia).
  cbn [wait_capture]. change (Z.to_nat (0 + Z.of_nat 150)) with 150%nat.
  rewrite Hint. reflexivity.
Qed.

(** The loop when the flag clears in turn [k], after [k] quiet turns. *)
Lemma wait_capture_drained (msg : string) (polls : nat -> poll) (k : nat)
    (v : Z) (intr : bool) :
  (k <= 150)%nat ->
  (forall j, (j < k)%nat -> polls j = Reads 1 false) ->
  polls k = Reads v intr -> v ≠ 1 ->
  wait_capture msg polls 151 0 = Some (Returned tt, quiet_events 0 k).
Proof.
  intros Hk Hq Hv Hne.
  replace 151%nat with (k + (151 - k))%nat by lia.
  rewrite (wait_capture_quiet msg polls k (151 - k) 0) by
    (try lia; intros j Hj; apply Hq; lia).
  destruct (151 - k)%nat as [|fuel] eqn:Hf; [lia|].
  cbn [wait_capture]. rewrite Z.add_0_l, Nat2Z.id, Hv.
  rewrite (proj2 (Z.eqb_neq v 1)) by done. by rewrite app_nil_r.
Qed.

Lemma quiet_events_no_writes (i : Z) (m : nat) :
  hardware_writes (quiet_events i m) = [].
Proof.
  revert i. induction m as [|m IH]; intros i; [done|].
  cbn [quiet_events]. unfold hardware_writes in *.
  rewrite filter_app, filter_cons, IH. by destruct (_ =? 0).
Qed.

(** A [super().unstage()] that raises. *)
Definition failing_unstage_env : env :=
  {| write_path := "/data/"; base_stage_raises := None;
     file_path_exists := true; file_path := "/data/";
     base_unstage_raises := Some (RuntimeError "unstage failed");
     handler_interrupted := None |}.

(** A second interrupt, arriving while the handler of the first one logs
    its warning. *)
Definition twice_interrupted_env : env :=
  {| write_path := "/data/"; base_stage_raises := None;
     file_path_exists := true; file_path := "/data/";
     base_unstage_raises := None; handler_interrupted := Some 1%nat |}.

(** C2, as stated, fails: [unstage] does not always return. The call of
    [super().unstage()] is outside the [try], so that what it raises,
    [unstage] raises, after the stuck capture flag has been forced off; and
    a [KeyboardInterrupt] that arrives while the handler of the first one
    runs is not caught, and [super().unstage()] is not reached. *)
Lemma unstage_can_raise :
  (exists p',
     unstage failing_unstage_env (fun _ => Reads 1 false) unset_plugin
     = Some (Raised (RuntimeError "unstage failed"), p')
     /\ hardware_writes (trace p') = [Put capture (PInt 0) None])
  /\ (exists p',
        unstage twice_interrupted_env (fun _ => InterruptedGet) unset_plugin
        = Some (Raised KeyboardInterrupt, p')
        /\ trace p' = [Put capture (PInt 0) None]).
Proof.
  split; eexists; (split; [reflexivity|]); reflexivity.
Qed.

(** C2, amended. [unstage] always ends, and the wait itself never raises.
    Against a capture flag that still reads 1 in turn 151, that is after
    150 turns of patience (150 pauses, with a warning in turns 50, 100 and
    150), it pauses once more, warns that it gives up, writes 0 to
    [capture] and goes on to [super().unstage()]. A [KeyboardInterrupt]
    that arrives during the wait, in [capture.get()] or in the pause of a
    turn, is caught: [unstage] writes 0 to [capture], logs it and goes on to
    [super().unstage()]; one that arrives right after the write of the turn
    that gives up is caught too, and 0 is written once more. In all these
    runs the outcome of [unstage] is the outcome of [super().unstage()]: it
    returns when that returns and raises what that raises. Only a second
    [KeyboardInterrupt], arriving while the handler of the first one runs,
    goes through, and [super().unstage()] is not reached. *)
Theorem unstage_ends_the_wait (e : env) (polls : nat -> poll) (p : plugin) :
  (exists o p' es,
     unstage e polls p = Some (o, p')
     /\ trace p' = trace p ++ es
     /\ stage_sigs p' = stage_sigs p
     /\ mds_keys p' = mds_keys p
     /\ (handler_interrupted e = None ->
         o = base_unstage_outcome e /\ last es = Some BaseUnstage)
     /\ (base_unstage_raises e = None -> handler_interrupted e = None ->
         o = Returned tt))
  /\ ((forall j, (j <= 150)%nat -> polls j = Reads 1 false) ->
      exists p',
        unstage e polls p = Some (base_unstage_outcome e, p')
        /\ trace p'
           = trace p
             ++ quiet_events 0 150
             ++ [Sleep PollInterval; Warning giving_up_msg;
                 Warning (check_frames_msg (cam_num_images_rbv p));
                 Put capture (PInt 0) None; BaseUnstage]
        /\ hardware_writes (quiet_events 0 150) = []
        /\ length (filter (fun ev => ev = Sleep PollInterval)
                     (quiet_events 0 150)) = 150%nat
        /\ filter (fun ev => ev = Warning waiting_msg) (quiet_events 0 150)
           = replicate 3 (Warning waiting_msg))
  /\ (forall k, (k <= 150)%nat ->
        (forall j, (j < k)%nat -> polls j = Reads 1 false) ->
        polls k = InterruptedGet \/ polls k = Reads 1 true ->
        exists warned,
          hardware_writes warned = []
          /\ match handler_interrupted e with
             | None =>
                 exists p',
                   unstage e polls p = Some (base_unstage_outcome e, p')
                   /\ trace p'
                      = trace p
                        ++ quiet_events 0 k ++ warned
                        ++ [Put capture (PInt 0) None;
                            Warning interrupted_msg; BaseUnstage]
             | Some done =>
                 exists p',
                   unstage e polls p = Some (Raised KeyboardInterrupt, p')
                   /\ trace p'
                      = trace p
                        ++ quiet_events 0 k ++ warned
                        ++ firstn done [Put capture (PInt 0) None;
                                        Warning interrupted_msg]
             end)
  /\ ((forall j, (j < 150)%nat -> polls j = Reads 1 false) ->
      polls 150%nat = InterruptedAfterSleep 3 ->
      handler_interrupted e = None ->
      exists p',
        unstage e polls p = Some (base_unstage_outcome e, p')
        /\ trace p'
           = trace p
             ++ quiet_events 0 150
             ++ [Sleep PollInterval; Warning giving_up_msg;
                 Warning (check_frames_msg (cam_num_images_rbv p));
                 Put capture (PInt 0) None;
                 Put capture (PInt 0) None; Warning interrupted_msg;
                 BaseUnstage]).
Proof.
  split; [|split; [|split]].
  - unfold unstage.
    destruct (wait_capture_total
                (check_frames_msg (cam_num_images_rbv p)) polls 151 0)
      as (o & es & -> & [-> | ->]); [lia..| |].
    + eexists _, _, _. split; [reflexivity|]. split; [reflexivity|].
      split; [done|]. split; [done|]. split.
      * intros _. split; [done|]. apply last_snoc.
      * intros Hb _. by rewrite Hb.
    + destruct (handler_interrupted e) as [done|] eqn:Hh.
      * eexists _, _, _. split; [reflexivity|]. split; [reflexivity|].
        split; [done|]. split; [done|]. split; [done|]. done.
      * eexists _, _, _. split; [reflexivity|]. split; [reflexivity|].
        split; [done|]. split; [done|]. split.
        -- intros _. split; [done|]. apply last_snoc.
        -- intros Hb _. by rewrite Hb.
  - intros Hq. unfold unstage. rewrite wait_capture_stuck by done.
    eexists. split; [reflexivity|]. split.
    + cbn [trace with_trace]. by rewrite <- !(assoc_L (++)).
    + split; [apply quiet_events_no_writes|]. split; by vm_compute.
  - intros k Hk Hq Hint. unfold unstage.
    destruct (wait_capture_interrupted
                (check_frames_msg (cam_num_images_rbv p)) polls k Hk Hq Hint)
      as (warned & -> & Hw).
    exists warned. split; [done|].
    destruct (handler_interrupted e) as [done|].
    + eexists. split; [reflexivity|]. cbn [trace with_trace].
      by rewrite <- !(assoc_L (++)).
    + eexists. split; [reflexivity|]. cbn [trace with_trace].
      unfold handler. by rewrite <- !(assoc_L (++)).
  - intros Hq Hint Hh. unfold unstage.
    rewrite (wait_capture_gave_up _ polls 3) by done. rewrite Hh.
    eexists. split; [reflexivity|]. cbn [trace with_trace].
    unfold handler, giving_up. cbn [firstn].
    by rewrite <- !(assoc_L (++)).
Qed.

(** The theorem at work: a capture flag that never clears, with a
    [super().unstage()] that returns. *)
Lemma unstage_ends_the_wait_witness :
  exists p',
    unstage quiet_env (fun _ => Reads 1 false) unset_plugin
      = Some (Returned tt, p')
    /\ hardware_writes (trace p') = [Put capture (PInt 0) None]
    /\ length (filter (fun ev => ev = Sleep PollInterval) (trace p')) = 151%nat
    /\ filter (fun ev => ev = Warning waiting_msg) (trace p')
       = replicate 3 (Warning waiting_msg)
    /\ Warning giving_up_msg ∈ trace p'.
Proof.
  destruct (proj1 (proj2 (unstage_ends_the_wait
                            quiet_env (fun _ => Reads 1 false) unset_plugin)))
    as (p' & Hrun & Htr & _); [done|].
  exists p'. split; [exact Hrun|]. rewrite Htr.
  split; [reflexivity|]. split; [reflexivity|]. split; [reflexivity|].
  apply (bool_decide_unpack _). vm_compute. exact I.
Defined.

(** *** Datum generation: facts *)

(** No channel of [js] is named [key]: each attribute [channelN] is there,
    under another name. *)
Definition matches_no_channel (key : string) (js : list Z) (p : plugin) : Prop :=
  Forall (fun j => exists name,
            od_get ("channel" +:+ str_of_int j) (parent_attrs p) = Some name
            /\ name ≠ key) js.

Lemma find_channel_exhausted (key : string) (js : list Z) (p : plugin) :
  matches_no_channel key js p ->
  find_channel key js p = (Raised StopIteration, p).
Proof.
  induction js as [|j js IH]; intros Hno; [done|].
  apply Forall_cons in Hno as [(name & Hg & Hne) Hno].
  cbn [find_channel]. rewrite run_bind. cbn [Py.gets]. rewrite Hg.
  rewrite decide_False by done. by apply IH.
Qed.

(** A channel attribute that the parent does not have ends the search with
    [AttributeError], whatever the key. *)
Lemma find_channel_missing_attr (key : string) (j : Z) (js : list Z)
    (p : plugin) :
  od_get ("channel" +:+ str_of_int j) (parent_attrs p) = None ->
  find_channel key (j :: js) p
  = (Raised (AttributeError ("channel" +:+ str_of_int j)), p).
Proof.
  intros Hg. cbn [find_channel]. rewrite run_bind. cbn [Py.gets].
  by rewrite Hg.
Qed.

(** [key] is the name of no channel of [js]: no attribute [channelN] that
    the parent has is a device of that name. *)
Definition names_no_channel (key : string) (js : list Z) (p : plugin) : Prop :=
  Forall (fun j => od_get ("channel" +:+ str_of_int j) (parent_attrs p)
                   ≠ Some key) js.

(** The search for a key that names no channel ends either at the end of
    the channels or at the first attribute that the parent does not have. *)
Lemma find_channel_unknown (key : string) (js : list Z) (p : plugin) :
  names_no_channel key js p ->
  (matches_no_channel key js p
   /\ find_channel key js p = (Raised StopIteration, p))
  \/ (exists js1 j js2,
        js = js1 ++ j :: js2
        /\ matches_no_channel key js1 p
        /\ od_get ("channel" +:+ str_of_int j) (parent_attrs p) = None
        /\ find_channel key js p
           = (Raised (AttributeError ("channel" +:+ str_of_int j)), p)).
Proof.
  induction js as [|j js IH]; intros Hno.
  - left. split; [apply Forall_nil_2|done].
  - apply Forall_cons in Hno as [Hj Hno].
    destruct (od_get ("channel" +:+ str_of_int j) (parent_attrs p))
      as [name|] eqn:Hg.
    + assert (name ≠ key) as Hne by congruence.
      assert (find_channel key (j :: js) p = find_channel key js p) as Hstep.
      { cbn [find_channel]. rewrite run_bind. cbn [Py.gets]. rewrite Hg.
        by rewrite decide_False. }
      rewrite Hstep.
      destruct (IH Hno) as [[Hall Hrun]
                           |(js1 & j' & js2 & -> & Hall & Hnone & Hrun)].
      * left. split; [|done]. apply Forall_cons. split; [by eexists|done].
      * right. exists (j :: js1), j', js2. split; [done|]. split; [|done].
        apply Forall_cons. split; [by eexists|done].
    + right. exists [], j, js. split; [done|]. split; [apply Forall_nil_2|].
      split; [done|]. by apply find_channel_missing_attr.
Qed.

(** The search stops at the first attribute that the parent does not
    have, whatever comes after it. *)
Lemma find_channel_first_missing (key : string) (js1 js2 : list Z) (j : Z)
    (p : plugin) :
  matches_no_channel key js1 p ->
  od_get ("channel" +:+ str_of_int j) (parent_attrs p) = None ->
  find_channel key (js1 ++ j :: js2) p
  = (Raised (AttributeError ("channel" +:+ str_of_int j)), p).
Proof.
  intros Hno Hj. induction js1 as [|j1 js1 IH].
  - by apply find_channel_missing_attr.
  - apply Forall_cons in Hno as [(name & Hg & Hne) Hno].
    cbn [app find_channel]. rewrite run_bind. cbn [Py.gets]. rewrite Hg.
    rewrite decide_False by done. by apply IH.
Qed.

(** The components that [build_detector_class] puts into a detector class,
    by name. *)
Definition built_component_names : list string :=
  ["external_trig"; "total_points"; "spectra_per_point"; "make_directories";
   "rewindable"; "channels"].

(** A plugin below a detector with these components and a [cam]: the one
    component [channels] counts as one channel, and the detector has no
    attribute [channel1]: its channels are [channels.channel_1] and so on. *)
Definition built_detector_plugin : plugin :=
  {| external_trig := PBool false; total_points := 5; spectra_per_point := 1;
     make_directories := PBool false; cam_num_images_rbv := 1;
     _abs_trigger_count := 3; parent_attrs := [];
     stage_sigs := [];
     channels := channels_of ("cam" :: built_component_names);
     mds_keys := {[ 1 := "xs_ch1" ]}; trace := [] |}.

(** C10, as stated, fails: a key that is the name of no channel does not
    always end in [StopIteration]. Below a detector that has no attribute
    [channel1], the search raises [AttributeError] at its first step. *)
Lemma generate_datum_without_channel_attribute :
  channels built_detector_plugin = [1]
  /\ names_no_channel "xs_channel3" (channels built_detector_plugin)
       built_detector_plugin
  /\ generate_datum "xs_channel3" 1000 [] built_detector_plugin
     = (Raised (AttributeError "channel1"), built_detector_plugin).
Proof.
  split; [reflexivity|]. split; [|reflexivity].
  change (channels built_detector_plugin) with [1].
  apply Forall_cons. split; [done|apply Forall_nil_2].
Qed.

(** C10, amended. For a key that is the name of no channel, that is of no
    attribute [channelN] that the parent has for a [N] of [self.channels],
    [generate_datum] raises and changes nothing: no key is recorded in
    [mds_keys] and [super().generate_datum] is not reached. What it raises
    is [StopIteration], from the [next()] without a default, when the parent
    has all these attributes; when it lacks one, it is the [AttributeError]
    of the first one that it lacks. *)
Theorem generate_datum_unknown_key (key : string) (timestamp : Z)
    (datum_kwargs : odict string pyval) (p : plugin) :
  (matches_no_channel key (channels p) p ->
   generate_datum key timestamp datum_kwargs p = (Raised StopIteration, p))
  /\ (forall js1 j js2,
        channels p = js1 ++ j :: js2 ->
        matches_no_channel key js1 p ->
        od_get ("channel" +:+ str_of_int j) (parent_attrs p) = None ->
        generate_datum key timestamp datum_kwargs p
        = (Raised (AttributeError ("channel" +:+ str_of_int j)), p))
  /\ (names_no_channel key (channels p) p ->
      exists exc,
        generate_datum key timestamp datum_kwargs p = (Raised exc, p)
        /\ ((exc = StopIteration /\ matches_no_channel key (channels p) p)
            \/ exists js1 j js2,
                 channels p = js1 ++ j :: js2
                 /\ matches_no_channel key js1 p
                 /\ od_get ("channel" +:+ str_of_int j) (parent_attrs p) = None
                 /\ exc = AttributeError ("channel" +:+ str_of_int j))).
Proof.
  assert (forall o,
            find_channel key (channels p) p = (Raised o, p) ->
            generate_datum key timestamp datum_kwargs p = (Raised o, p))
    as Hgd.
  { intros o Hrun. unfold generate_datum. rewrite run_bind. cbn [Py.gets].
    rewrite run_bind. by rewrite Hrun. }
  split; [|split].
  - intros Hno. by apply Hgd, find_channel_exhausted.
  - intros js1 j js2 Hch Hall Hnone. apply Hgd. rewrite Hch.
    by apply find_channel_first_missing.
  - intros Hno.
    destruct (find_channel_unknown key (channels p) p Hno)
      as [[Hall Hrun]|(js1 & j & js2 & Hch & Hall & Hnone & Hrun)].
    + exists StopIteration. split; [by apply Hgd|]. by left.
    + eexists. split; [by apply Hgd|]. right. by exists js1, j, js2.
Qed.

(** A plugin below a detector with two channels. *)
Definition two_channel_plugin : plugin :=
  {| external_trig := PBool false; total_points := 5; spectra_per_point := 1;
     make_directories := PBool false; cam_num_images_rbv := 1;
     _abs_trigger_count := 3;
     parent_attrs := [("channel1", "xs_channel1"); ("channel2", "xs_channel2")];
     stage_sigs := [];
     channels := channels_of ["cam"; "channel1"; "channel2"; "hdf5"];
     mds_keys := {[ 1 := "xs_ch1"; 2 := "xs_ch2" ]}; trace := [] |}.

(** The theorem at work: below a detector with the attributes [channel1]
    and [channel2], and below one whose second channel attribute is
    missing. *)
Lemma generate_datum_unknown_key_witness :
  generate_datum "xs_channel3" 1000 [] two_channel_plugin
    = (Raised StopIteration, two_channel_plugin)
  /\ (let p := {| external_trig := PBool false; total_points := 5;
                  spectra_per_point := 1; make_directories := PBool false;
                  cam_num_images_rbv := 1; _abs_trigger_count := 3;
                  parent_attrs := [("channel1", "xs_channel1")];
                  stage_sigs := []; channels := [1; 2; 3];
                  mds_keys := ∅; trace := [] |} in
      generate_datum "xs_channel3" 1000 [] p
      = (Raised (AttributeError "channel2"), p)).
Proof.
  split.
  - apply (proj1 (generate_datum_unknown_key "xs_channel3" 1000 []
                    two_channel_plugin)).
    unfold matches_no_channel.
    change (channels two_channel_plugin) with [1; 2].
    repeat (apply Forall_cons; split; [eexists; split; [reflexivity|done]|]).
    apply Forall_nil_2.
  - cbn zeta.
    apply (proj1 (proj2 (generate_datum_unknown_key "xs_channel3" 1000 [] _))
             [1] 2 [3]).
    + reflexivity.
    + apply Forall_cons. split; [|apply Forall_nil_2].
      eexists. split; [reflexivity|done].
    + reflexivity.
Defined.

(** A known key is recorded for its channel, with the frame number. *)
Lemma generate_datum_known_key :
  generate_datum "xs_channel2" 1000 [] two_channel_plugin
  = (Returned tt,
     with_trace [BaseGenerateDatum "xs_channel2" 1000
                   [("frame", PInt 3); ("channel", PInt 2)]]
       (with_mds_key 2 "xs_channel2" two_channel_plugin)).
Proof. reflexivity. Qed.

(** *** Datum generation for a known key *)

Lemma find_channel_state (key : string) (js : list Z) (p : plugin) :
  (find_channel key js p).2 = p.
Proof.
  induction js as [|j js IH]; [done|].
  cbn [find_channel]. rewrite run_bind. cbn [Py.gets].
  destruct (od_get _ (parent_attrs p)) as [name|]; [|done].
  by destruct (decide (name = key)).
Qed.

Lemma find_channel_found (key : string) (js1 js2 : list Z) (j : Z)
    (p : plugin) :
  matches_no_channel key js1 p ->
  od_get ("channel" +:+ str_of_int j) (parent_attrs p) = Some key ->
  find_channel key (js1 ++ j :: js2) p
  = (Returned ("channel" +:+ str_of_int j, j), p).
Proof.
  intros Hno Hj. induction js1 as [|j1 js1 IH].
  - cbn [app find_channel]. rewrite run_bind. cbn [Py.gets]. rewrite Hj.
    by rewrite decide_True.
  - apply Forall_cons in Hno as [(name & Hg & Hne) Hno].
    cbn [app find_channel]. rewrite run_bind. cbn [Py.gets]. rewrite Hg.
    rewrite decide_False by done. by apply IH.
Qed.

(** [int(f"channel{j}"[7:])] is [j]. *)
Lemma channel_number_parsed (j : Z) :
  int_of_str (from_7 ("channel" +:+ str_of_int j)) = Some j.
Proof.
  unfold from_7.
  change ("channel" +:+ str_of_int j)
    with (String "c" (String "h" (String "a" (String "n" (String "n"
           (String "e" (String "l" (str_of_int j)))))))).
  cbn [String.length Nat.sub String.substring].
  rewrite Nat.sub_0_r, Fmt.substring_all. apply Fmt.int_of_str_of_int.
Qed.

(** X21. For the name of a channel, [generate_datum] finds the first channel of
    that name, say [channel<j>]; it records the key for [j] in [mds_keys]
    and hands the datum on to [super().generate_datum] with two entries
    set in [datum_kwargs]: the frame, which is the trigger count of the
    parent, and the channel number [j], read back from the attribute name.
    Entries of these names that the caller passed are overwritten, all
    others are kept. *)
Theorem generate_datum_records_channel (key : string) (timestamp : Z)
    (datum_kwargs : odict string pyval) (js1 js2 : list Z) (j : Z)
    (p : plugin) :
  channels p = js1 ++ j :: js2 ->
  matches_no_channel key js1 p ->
  od_get ("channel" +:+ str_of_int j) (parent_attrs p) = Some key ->
  generate_datum key timestamp datum_kwargs p
  = (Returned tt,
     with_trace
       [BaseGenerateDatum key timestamp
          (od_set "channel" (PInt j)
             (od_set "frame" (PInt (_abs_trigger_count p)) datum_kwargs))]
       (with_mds_key j key p)).
Proof.
  intros Hjs Hno Hj. unfold generate_datum. rewrite run_bind. cbn [Py.gets].
  rewrite Hjs, run_bind, find_channel_found by done.
  rewrite run_bind. cbn [Py.gets fst snd]. rewrite run_bind.
  by rewrite channel_number_parsed.
Qed.

Lemma generate_datum_records_channel_witness :
  generate_datum "xs_channel2" 1000 [("frame", PInt 0)] two_channel_plugin
  = (Returned tt,
     with_trace
       [BaseGenerateDatum "xs_channel2" 1000
          (od_set "channel" (PInt 2)
             (od_set "frame" (PInt (_abs_trigger_count two_channel_plugin))
                [("frame", PInt 0)]))]
       (with_mds_key 2 "xs_channel2" two_channel_plugin)).
Proof.
  apply (generate_datum_records_channel "xs_channel2" 1000 [("frame", PInt 0)]
           [1] [] 2 two_channel_plugin).
  - reflexivity.
  - apply Forall_cons. split; [|apply Forall_nil_2].
    eexists. split; [reflexivity|done].
  - reflexivity.
Defined.

(** *** Staging: what is written, and in which order *)

Lemma od_set_append {K V} `{EqDecision K} (k : K) (v : V) (d : odict K V) :
  od_get k d = None -> od_set k v d = d ++ [(k, v)].
Proof.
  induction d as [|[k0 v0] d IH]; cbn [od_get od_set app]; [done|].
  destruct (decide (k = k0)); [done|]. intros H. by rewrite IH.
Qed.

Lemma od_get_keys {K V} `{EqDecision K} (k : K) (d : odict K V) :
  k ∈ d.*1 <-> is_Some (od_get k d).
Proof.
  induction d as [|[k0 v0] d IH]; cbn [od_get fmap list_fmap fst].
  - rewrite elem_of_nil. split; [done|]. by intros [? ?].
  - rewrite elem_of_cons. destruct (decide (k = k0)) as [->|Hne].
    + split; [by eexists|by left].
    + rewrite IH. split; [intros [?|?]; done|by right].
Qed.

(** The signals whose staged value [stage] decides. *)
Definition restaged : list signal :=
  [cam_acquire; num_capture; cam_num_images; num_capture_calc_disable;
   cam_trigger_mode; auto_save].

(** X22. Besides the frame counts and the trigger mode, a [stage] that gets past
    its check stages [cam.acquire = 0], the calc record disabled
    ([NumCapture_CALC.DISA = 1]) and [auto_save = "No"]; every other signal
    that was in [stage_sigs], such as those put there at construction, is
    staged with the value it had. *)
Theorem stage_keeps_other_signals (e : env) (p : plugin) :
  1 <= total_points p ->
  let sigs := stage_sigs (stage e p).2 in
  od_get cam_acquire sigs = Some (PInt 0)
  /\ od_get num_capture_calc_disable sigs = Some (PInt 1)
  /\ od_get auto_save sigs = Some (PStr "No")
  /\ forall s, s ∉ restaged -> od_get s sigs = od_get s (stage_sigs p).
Proof.
  intros Hge sigs. subst sigs. rewrite stage_set by done.
  cbn [snd stage_sigs with_trace with_stage_sigs]. unfold restage.
  split; [|split; [|split]].
  - destruct (truthy (external_trig p)); by od_simpl.
  - destruct (truthy (external_trig p)); by od_simpl.
  - destruct (truthy (external_trig p)); by od_simpl.
  - intros s Hs. unfold restaged in Hs.
    rewrite !not_elem_of_cons in Hs.
    destruct Hs as (? & ? & ? & ? & ? & ? & _).
    destruct (truthy (external_trig p)); by od_simpl.
Qed.

(** A plugin as it is constructed, ready for 5 points. *)
Definition fresh_plugin : plugin :=
  {| external_trig := PBool false; total_points := 5; spectra_per_point := 1;
     make_directories := PBool true; cam_num_images_rbv := 1;
     _abs_trigger_count := 0; parent_attrs := [];
     stage_sigs := [(blocking_callbacks, PInt 1); (enable, PInt 1);
                    (compression, PStr "zlib");
                    (file_template, PStr "%s%s_%6.6d.h5")];
     channels := []; mds_keys := ∅; trace := [] |}.

Lemma stage_keeps_other_signals_witness :
  od_get cam_acquire (stage_sigs (stage quiet_env fresh_plugin).2)
    = Some (PInt 0)
  /\ od_get compression (stage_sigs (stage quiet_env fresh_plugin).2)
     = Some (PStr "zlib").
Proof.
  destruct (stage_keeps_other_signals quiet_env fresh_plugin)
    as (Hacq & _ & _ & Hkeep); [simpl; lia|].
  split; [exact Hacq|]. rewrite Hkeep; [reflexivity|].
  unfold restaged. rewrite !not_elem_of_cons. repeat split; try done.
  apply not_elem_of_nil.
Defined.

(** X23. In the [stage_sigs] dict as [stage] leaves it for
    [super().stage()], the entry under the signal [num_capture] is the last
    one, with the value [total_points * spectra_per_point], and the entry
    under the signal [cam.num_images] stands before it: [stage] takes both
    out of the dict and enters them again in that order. If no signal was
    the key of two entries before, none is afterwards. This is a statement
    about the entries of the dict that have a signal as their key; what
    [super().stage()] makes of the dict is not part of it. *)
Theorem num_capture_is_last_in_stage_sigs (e : env) (p : plugin) :
  1 <= total_points p -> NoDup (stage_sigs p).*1 ->
  exists front,
    stage_sigs (stage e p).2
    = front ++ [(num_capture,
                 PInt (total_points p * spectra_per_point p))]
    /\ cam_num_images ∈ front.*1
    /\ (num_capture ∉ front.*1)
    /\ NoDup (stage_sigs (stage e p).2).*1.
Proof.
  intros Hge Hnd. rewrite stage_set by done.
  cbn [snd stage_sigs with_trace with_stage_sigs]. unfold restage.
  set (s0 := od_set num_capture_calc_disable (PInt 1)
               (od_pop cam_num_images
                  (od_pop num_capture
                     (od_set cam_acquire (PInt 0) (stage_sigs p))))).
  assert (NoDup s0.*1) as Hnd0.
  { by apply od_set_keys_NoDup, od_pop_keys_NoDup, od_pop_keys_NoDup,
      od_set_keys_NoDup. }
  assert (od_get num_capture s0 = None) as Hcap.
  { unfold s0. rewrite od_get_set_ne, od_get_pop_ne by done.
    by apply od_get_pop_eq, od_set_keys_NoDup. }
  assert (forall m v,
            let front := od_set auto_save (PStr "No")
                           (od_set cam_num_images v
                              (od_set cam_trigger_mode m s0)) in
            od_get num_capture front = None
            /\ cam_num_images ∈ front.*1
            /\ NoDup front.*1) as Hfront.
  { intros m v front. subst front. split; [|split].
    - by rewrite !od_get_set_ne.
    - apply od_get_keys. rewrite od_get_set_ne by done.
      rewrite od_get_set_eq. by eexists.
    - do 3 apply od_set_keys_NoDup. exact Hnd0. }
  destruct (truthy (external_trig p)).
  - destruct (Hfront (PStr "TTL Veto Only")
                (PInt (total_points p * spectra_per_point p)))
      as (Hnone & Himg & Hndf).
    eexists. split; [by apply od_set_append|]. split; [done|]. split.
    + intros [? Hs]%od_get_keys. by rewrite Hnone in Hs.
    + by apply od_set_keys_NoDup.
  - destruct (Hfront (PStr "Internal") (PInt (spectra_per_point p)))
      as (Hnone & Himg & Hndf).
    eexists. split; [by apply od_set_append|]. split; [done|]. split.
    + intros [? Hs]%od_get_keys. by rewrite Hnone in Hs.
    + by apply od_set_keys_NoDup.
Qed.

Lemma num_capture_is_last_in_stage_sigs_witness :
  exists front,
    stage_sigs (stage quiet_env five_by_three).2
    = front ++ [(num_capture, PInt (5 * 3))]
    /\ cam_num_images ∈ front.*1
    /\ (num_capture ∉ front.*1)
    /\ NoDup (stage_sigs (stage quiet_env five_by_three).2).*1.
Proof.
  apply (num_capture_is_last_in_stage_sigs quiet_env five_by_three).
  - simpl. lia.
  - apply (bool_decide_unpack _). vm_compute. exact I.
Defined.

(** X24. What a [stage] that returns has done, in order: the blocking stop of
    the acquisition, the creation of the directory when the detector asks
    for it, the blocking erase, [super().stage()] on the staged signals,
    the resource, and only then the write that arms [capture], followed by
    the pause of [_config_time]. *)
Theorem stage_arms_capture_last (e : env) (p : plugin) :
  (stage e p).1 = Returned tt ->
  1 <= total_points p
  /\ trace (stage e p).2
     = trace p
       ++ [Put cam_acquire (PInt 0) (Some true)]
       ++ (if truthy (make_directories p) then [MakeDirs (write_path e)]
           else [])
       ++ [Put cam_erase (PInt 1) (Some true);
           BaseStage (stage_sigs (stage e p).2);
           GenerateResource;
           Put capture (PInt 1) None;
           Sleep ConfigTime].
Proof.
  intros Hret.
  destruct (Z_lt_ge_dec (total_points p) 1) as [Hlt|Hge].
  { by rewrite stage_unset in Hret. }
  split; [lia|]. revert Hret. rewrite stage_set by lia.
  cbn [fst snd trace with_trace with_stage_sigs stage_sigs].
  destruct (base_stage_raises e); [done|].
  destruct (file_path_exists e); [|done]. intros _.
  unfold staging_events, staged_sigs.
  by rewrite <- !(assoc_L (++)).
Qed.

Lemma stage_arms_capture_last_witness :
  1 <= total_points fresh_plugin
  /\ trace (stage quiet_env fresh_plugin).2
     = trace fresh_plugin
       ++ [Put cam_acquire (PInt 0) (Some true)]
       ++ (if truthy (make_directories fresh_plugin)
           then [MakeDirs (write_path quiet_env)] else [])
       ++ [Put cam_erase (PInt 1) (Some true);
           BaseStage (stage_sigs (stage quiet_env fresh_plugin).2);
           GenerateResource;
           Put capture (PInt 1) None;
           Sleep ConfigTime].
Proof.
  apply (stage_arms_capture_last quiet_env fresh_plugin). reflexivity.
Defined.

(** An IOC on which the file path does not exist. *)
Definition pathless_env : env :=
  {| write_path := "/data/"; base_stage_raises := None;
     file_path_exists := false; file_path := "/data/";
     base_unstage_raises := None; handler_interrupted := None |}.

(** X25. Past the check of the total points, [stage] raises what
    [super().stage()] raises and, when that returns, an [IOError] that
    names the file path if the IOC reports that the path does not exist. In
    both cases [stage] has by then stopped the acquisition, made the
    directory when the detector asks for it, erased the old spectra and
    called [super().stage()] on the staged signals, and nothing more: no
    resource is generated and [capture] is not armed. *)
Theorem stage_errors_precede_capture (e : env) (p : plugin) :
  1 <= total_points p ->
  let done_so_far :=
    trace p
    ++ [Put cam_acquire (PInt 0) (Some true)]
    ++ (if truthy (make_directories p) then [MakeDirs (write_path e)] else [])
    ++ [Put cam_erase (PInt 1) (Some true);
        BaseStage (stage_sigs (stage e p).2)] in
  (forall exc, base_stage_raises e = Some exc ->
     (stage e p).1 = Raised exc /\ trace (stage e p).2 = done_so_far)
  /\ (base_stage_raises e = None -> file_path_exists e = false ->
      (stage e p).1
      = Raised (IOError ("Path " +:+ file_path e
                           +:+ " does not exits on IOC!! Please Check"))
      /\ trace (stage e p).2 = done_so_far).
Proof.
  intros Hge. cbn zeta. rewrite stage_set by done.
  cbn [fst snd trace with_trace with_stage_sigs stage_sigs].
  unfold staging_events, staged_sigs. split.
  - intros exc ->. split; [done|]. rewrite app_nil_r.
    by rewrite <- ?(assoc_L (++)).
  - intros -> ->. split; [done|]. rewrite app_nil_r.
    by rewrite <- ?(assoc_L (++)).
Qed.

Lemma stage_errors_precede_capture_witness :
  (stage pathless_env fresh_plugin).1
    = Raised (IOError "Path /data/ does not exits on IOC!! Please Check")
  /\ trace (stage pathless_env fresh_plugin).2
     = [Put cam_acquire (PInt 0) (Some true); MakeDirs "/data/";
        Put cam_erase (PInt 1) (Some true);
        BaseStage (stage_sigs (stage pathless_env fresh_plugin).2)].
Proof.
  assert (1 <= total_points fresh_plugin) as Hge by (simpl; lia).
  apply (proj2 (stage_errors_precede_capture pathless_env fresh_plugin Hge));
    reflexivity.
Defined.

(** *** Unstaging: how much it waits and writes *)

Definition is_poll_sleep (ev : event) : bool :=
  bool_decide (ev = Sleep PollInterval).
Definition is_waiting_warning (ev : event) : bool :=
  bool_decide (ev = Warning waiting_msg).

(** The pauses of 0.1 s and the "waiting" warnings among some events. *)
Definition poll_sleeps (es : list event) : nat :=
  length (filter (fun ev => is_poll_sleep ev = true) es).
Definition waiting_warnings (es : list event) : nat :=
  length (filter (fun ev => is_waiting_warning ev = true) es).

Lemma poll_sleeps_app (es es' : list event) :
  poll_sleeps (es ++ es') = (poll_sleeps es + poll_sleeps es')%nat.
Proof. unfold poll_sleeps. by rewrite filter_app, length_app. Qed.

Lemma waiting_warnings_app (es es' : list event) :
  waiting_warnings (es ++ es')
  = (waiting_warnings es + waiting_warnings es')%nat.
Proof. unfold waiting_warnings. by rewrite filter_app, length_app. Qed.

Lemma hardware_writes_app (es es' : list event) :
  hardware_writes (es ++ es') = hardware_writes es ++ hardware_writes es'.
Proof. unfold hardware_writes. by rewrite filter_app. Qed.

Lemma quiet_events_counts (i : Z) (m : nat) :
  0 <= i ->
  poll_sleeps (quiet_events i m) = m
  /\ Z.of_nat (waiting_warnings (quiet_events i m))
     = (i + Z.of_nat m) / 50 - i / 50.
Proof.
  revert i. induction m as [|m IH]; intros i Hi.
  - cbn [quiet_events]. split; [done|]. rewrite Z.add_0_r. cbn. lia.
  - destruct (IH (i + 1)) as [Hs Hw]; [lia|].
    cbn [quiet_events].
    rewrite poll_sleeps_app, waiting_warnings_app.
    change (Sleep PollInterval :: quiet_events (i + 1) m)
      with ([Sleep PollInterval] ++ quiet_events (i + 1) m).
    rewrite poll_sleeps_app, waiting_warnings_app, Hs.
    replace (i + Z.of_nat (S m)) with (i + 1 + Z.of_nat m) by lia.
    pose proof (Z.div_mod (i + 1) 50 ltac:(lia)) as Hdm1.
    pose proof (Z.mod_pos_bound (i + 1) 50 ltac:(lia)) as Hb1.
    pose proof (Z.div_mod i 50 ltac:(lia)) as Hdm.
    pose proof (Z.mod_pos_bound i 50 ltac:(lia)) as Hb.
    destruct ((i + 1) mod 50 =? 0) eqn:E.
    + apply Z.eqb_eq in E. split; [done|].
      change (waiting_warnings [Warning waiting_msg]) with 1%nat.
      change (waiting_warnings [Sleep PollInterval]) with 0%nat. lia.
    + apply Z.eqb_neq in E. split; [done|].
      change (waiting_warnings []) with 0%nat.
      change (waiting_warnings [Sleep PollInterval]) with 0%nat. lia.
Qed.

(** X26. When the capture flag clears in turn [k] of the poll loop, [unstage]
    has paused [k] times, has warned once for every 50 turns waited, and
    has written nothing to the hardware. *)
Theorem unstage_waits_in_turns (e : env) (polls : nat -> poll) (p : plugin)
    (k : nat) (v : Z) (intr : bool) :
  (k <= 150)%nat ->
  (forall j, (j < k)%nat -> polls j = Reads 1 false) ->
  polls k = Reads v intr -> v ≠ 1 ->
  exists es,
    unstage e polls p
    = Some (base_unstage_outcome e, with_trace (es ++ [BaseUnstage]) p)
    /\ poll_sleeps es = k
    /\ waiting_warnings es = (k / 50)%nat
    /\ hardware_writes es = [].
Proof.
  intros Hk Hq Hv Hne. exists (quiet_events 0 k). unfold unstage.
  rewrite (wait_capture_drained _ polls k v intr) by done.
  destruct (quiet_events_counts 0 k) as [Hs Hw]; [lia|].
  split; [done|]. split; [done|]. split; [|apply quiet_events_no_writes].
  apply Nat2Z.inj. rewrite Hw, Nat2Z.inj_div, Z.add_0_l.
  change (0 / 50) with 0. change (Z.of_nat 50) with 50. lia.
Qed.

Lemma unstage_waits_in_turns_witness :
  exists es,
    unstage quiet_env
      (fun j => if (j <? 120)%nat then Reads 1 false else Reads 0 false)
      unset_plugin
    = Some (base_unstage_outcome quiet_env,
            with_trace (es ++ [BaseUnstage]) unset_plugin)
    /\ poll_sleeps es = 120%nat
    /\ waiting_warnings es = (120 / 50)%nat
    /\ hardware_writes es = [].
Proof.
  apply (unstage_waits_in_turns quiet_env _ unset_plugin 120 0 false).
  - lia.
  - intros j Hj. by rewrite (proj2 (Nat.ltb_lt j 120) Hj).
  - reflexivity.
  - done.
Defined.

Lemma cut_short_effort (done : nat) (es : list event) :
  (poll_sleeps es = 0)%nat ->
  (length (hardware_writes es) <= 1)%nat ->
  Forall (fun w => w = Put capture (PInt 0) None) (hardware_writes es) ->
  poll_sleeps (firstn done es) = 0%nat
  /\ (length (hardware_writes (firstn done es)) <= 1)%nat
  /\ Forall (fun w => w = Put capture (PInt 0) None)
       (hardware_writes (firstn done es)).
Proof.
  intros Hs Hl Hw.
  rewrite <- (firstn_skipn done es) in Hs, Hl, Hw.
  rewrite poll_sleeps_app in Hs.
  rewrite hardware_writes_app in Hl, Hw. rewrite length_app in Hl.
  apply Forall_app in Hw as [Hw _].
  split; [lia|]. split; [lia|done].
Qed.

Lemma wait_capture_effort (msg : string) (polls : nat -> poll) (fuel : nat)
    (i : Z) (o : outcome unit) (es : list event) :
  wait_capture msg polls fuel i = Some (o, es) ->
  (poll_sleeps es <= fuel)%nat
  /\ (length (hardware_writes es) <= 1)%nat
  /\ Forall (fun w => w = Put capture (PInt 0) None) (hardware_writes es).
Proof.
  revert i o es. induction fuel as [|fuel IH]; intros i o es; [done|].
  cbn [wait_capture].
  set (warned := if (i + 1) mod 50 =? 0 then [Warning waiting_msg] else []).
  assert (poll_sleeps warned = 0%nat /\ hardware_writes warned = [])
    as [Hws Hww] by (subst warned; by destruct (_ =? 0)).
  destruct (polls (Z.to_nat i)) as [v intr| |done].
  - destruct (v =? 1).
    2:{ intros [= <- <-]. split; [cbn; lia|]. split; [cbn; lia|done]. }
    destruct intr.
    { intros [= <- <-]. rewrite Hws, Hww. split; [lia|]. split; [cbn; lia|done]. }
    destruct (i + 1 >? 150).
    { intros [= <- <-].
      rewrite poll_sleeps_app, hardware_writes_app, Hws, Hww.
      change (poll_sleeps [Sleep PollInterval; Warning giving_up_msg;
                           Warning msg; Put capture (PInt 0) None])
        with 1%nat.
      change (hardware_writes [Sleep PollInterval; Warning giving_up_msg;
                               Warning msg; Put capture (PInt 0) None])
        with [Put capture (PInt 0) None].
      split; [lia|]. split; [cbn; lia|]. by repeat constructor. }
    destruct (wait_capture msg polls fuel (i + 1)) as [[o' es']|] eqn:E;
      [|done].
    intros [= <- <-]. destruct (IH _ _ _ E) as (Hs & Hl & Hw).
    change (Sleep PollInterval :: es') with ([Sleep PollInterval] ++ es').
    rewrite !poll_sleeps_app, !hardware_writes_app, Hws, Hww.
    change (poll_sleeps [Sleep PollInterval]) with 1%nat.
    split; [lia|]. split; done.
  - intros [= <- <-]. split; [cbn; lia|]. split; [cbn; lia|done].
  - intros [= <- <-].
    change (Sleep PollInterval
              :: (if i + 1 >? 150 then firstn done (giving_up msg) else []))
      with ([Sleep PollInterval]
              ++ (if i + 1 >? 150 then firstn done (giving_up msg) else [])).
    rewrite !poll_sleeps_app, !hardware_writes_app, Hws, Hww.
    change (poll_sleeps [Sleep PollInterval]) with 1%nat.
    change (hardware_writes [Sleep PollInterval]) with (@nil event).
    destruct (i + 1 >? 150).
    + assert (hardware_writes (giving_up msg) = [Put capture (PInt 0) None])
        as Hg by reflexivity.
      destruct (cut_short_effort done (giving_up msg)) as (Hs & Hl & Hw);
        [reflexivity|rewrite Hg; cbn; lia
        |rewrite Hg; by repeat constructor|].
      rewrite Hs. cbn [app]. split; [lia|]. split; done.
    + change (poll_sleeps []) with 0%nat.
      change (hardware_writes []) with (@nil event). cbn [app length].
      split; [lia|]. split; [lia|done].
Qed.

(** X27. However the wait of [unstage] goes, with an interrupt in
    [capture.get()], in a pause, in the branch that gives up or in the
    handler, or with none: up to where [super().unstage()] takes over,
    [unstage] pauses at most 151 times and writes nothing to the hardware
    but [capture := 0], at most twice (once by the branch that gives up,
    once by the handler of an interrupt). *)
Theorem unstage_pauses_and_writes_bounded (e : env) (polls : nat -> poll)
    (p : plugin) :
  exists o p' es,
    unstage e polls p = Some (o, p')
    /\ trace p' = trace p ++ es
    /\ (poll_sleeps es <= 151)%nat
    /\ (length (hardware_writes es) <= 2)%nat
    /\ Forall (fun w => w = Put capture (PInt 0) None) (hardware_writes es).
Proof.
  unfold unstage.
  destruct (wait_capture_total
              (check_frames_msg (cam_num_images_rbv p)) polls 151 0)
    as (o & es & Hrun & Ho); [lia..|].
  rewrite Hrun. destruct (wait_capture_effort _ _ _ _ _ _ Hrun) as (Hs & Hl & Hw).
  destruct Ho as [-> | ->].
  - eexists _, _, _. split; [reflexivity|]. split; [reflexivity|].
    rewrite poll_sleeps_app, hardware_writes_app, length_app.
    change (poll_sleeps [BaseUnstage]) with 0%nat.
    change (hardware_writes [BaseUnstage]) with (@nil event).
    rewrite app_nil_r. split; [lia|]. split; [cbn; lia|done].
  - destruct (handler_interrupted e) as [done|].
    + assert (hardware_writes handler = [Put capture (PInt 0) None])
        as Hh by reflexivity.
      destruct (cut_short_effort done handler) as (Hs' & Hl' & Hw');
        [reflexivity|rewrite Hh; cbn; lia
        |rewrite Hh; by repeat constructor|].
      eexists _, _, _. split; [reflexivity|]. split; [reflexivity|].
      rewrite poll_sleeps_app, hardware_writes_app, length_app.
      split; [lia|]. split; [lia|]. by apply Forall_app.
    + eexists _, _, _. split; [reflexivity|]. split; [reflexivity|].
      rewrite !poll_sleeps_app, !hardware_writes_app, !length_app.
      change (poll_sleeps handler) with 0%nat.
      change (poll_sleeps [BaseUnstage]) with 0%nat.
      change (hardware_writes [BaseUnstage]) with (@nil event).
      change (hardware_writes handler) with [Put capture (PInt 0) None].
      rewrite app_nil_r. split; [lia|]. split; [cbn; lia|].
      apply Forall_app. split; [done|by repeat constructor].
Qed.

(** *** Construction and [describe] *)

(** The default [mds_key_format], ["{self.cam.name}_ch{chan}"], for a
    camera of name [cam_name]. *)
Definition default_mds_key (cam_name : string) (chan : Z) : string :=
  cam_name +:+ "_ch" +:+ str_of_int chan.

(** [{chan: mds_key_format.format(self=self, chan=chan)
      for chan in self.channels}] *)
Definition mds_keys_of (mds_key_format : Z -> string) (chans : list Z)
  : gmap Z string :=
  foldl (fun m chan => <[chan := mds_key_format chan]> m) ∅ chans.

(** [Xspress3FileStore.__init__]: [base] is the plugin as
    [super().__init__] leaves it, with what it reads from the parent
    detector; [component_names] are the parent's; [mds_key_format] gives
    the key of a channel. *)
Definition __init__ (base : plugin) (component_names : list string)
    (mds_key_format : Z -> string) : plugin :=
  {| external_trig := external_trig base; total_points := total_points base;
     spectra_per_point := spectra_per_point base;
     make_directories := make_directories base;
     cam_num_images_rbv := cam_num_images_rbv base;
     _abs_trigger_count := _abs_trigger_count base;
     parent_attrs := parent_attrs base;
     stage_sigs :=
       od_set file_template (PStr "%s%s_%6.6d.h5")
         (od_set compression (PStr "zlib")
            (od_set enable (PInt 1)
               (od_set blocking_callbacks (PInt 1) (stage_sigs base))));
     channels := channels_of component_names;
     mds_keys := mds_keys_of mds_key_format (channels_of component_names);
     trace := trace base |}.

(** The description of one channel's data in [describe]. *)
Record spec_desc := {
  external : string;
  dtype : string;
  shape : list Z;
  source : string
}.

(** [Xspress3FileStore.describe()]; [width] is what [self.width.get()]
    returns. [None] stands for the [KeyError] of [self.mds_keys[chan]]. *)
Definition describe (width : Z) (p : plugin) : option (odict string spec_desc) :=
  let spec_desc := {| external := "FILESTORE:"; dtype := "array";
                      shape := [width]; source := "FileStore:" |} in
  foldl (fun desc chan =>
           match desc, mds_keys p !! chan with
           | Some desc, Some key => Some (od_set key spec_desc desc)
           | _, _ => None
           end)
        (Some []) (channels p).

(** Every channel has a key. *)
Definition keyed (p : plugin) : Prop :=
  forall chan, chan ∈ channels p -> is_Some (mds_keys p !! chan).

(** The plugins that construction and the methods modelled here lead to. *)
Inductive reachable : plugin -> Prop :=
| reach_init base component_names mds_key_format :
    reachable (__init__ base component_names mds_key_format)
| reach_stage e p :
    reachable p -> reachable (stage e p).2
| reach_unstage e polls p o p' :
    reachable p -> unstage e polls p = Some (o, p') -> reachable p'
| reach_generate_datum key timestamp datum_kwargs p :
    reachable p -> reachable (generate_datum key timestamp datum_kwargs p).2.

Lemma mds_keys_of_lookup (fmt : Z -> string) (chans : list Z) (chan : Z) :
  mds_keys_of fmt chans !! chan
  = if decide (chan ∈ chans) then Some (fmt chan) else None.
Proof.
  unfold mds_keys_of.
  assert (forall m : gmap Z string,
            foldl (fun m c => <[c := fmt c]> m) m chans !! chan
            = if decide (chan ∈ chans) then Some (fmt chan) else m !! chan)
    as Hgen.
  { induction chans as [|c chans IH]; intros m; [done|].
    cbn [foldl]. rewrite IH.
    destruct (decide (chan ∈ chans)) as [Hin|Hnot].
    - rewrite decide_True; [done|by right].
    - destruct (decide (chan = c)) as [->|Hne].
      + rewrite decide_True by left. by rewrite lookup_insert_eq.
      + rewrite decide_False.
        * by rewrite lookup_insert_ne.
        * rewrite elem_of_cons. tauto. }
  rewrite Hgen. by destruct (decide (chan ∈ chans)).
Qed.

Lemma od_set_keys_elem {V} (k k' : string) (v : V) (d : odict string V) :
  k' ∈ (od_set k v d).*1 <-> k' = k \/ k' ∈ d.*1.
Proof.
  induction d as [|[k0 v0] d IH]; cbn [od_set fmap list_fmap fst].
  - rewrite list_elem_of_singleton, elem_of_nil. tauto.
  - destruct (decide (k = k0)) as [->|Hne]; cbn [fmap list_fmap fst].
    + rewrite elem_of_cons. tauto.
    + change (list_fmap _ _ fst ?l) with (l.*1).
      rewrite !elem_of_cons, IH. tauto.
Qed.

Lemma od_set_values {V} (P : V -> Prop) (k : string) (v : V)
    (d : odict string V) :
  P v -> Forall (fun e => P e.2) d -> Forall (fun e => P e.2) (od_set k v d).
Proof.
  intros Hv. induction d as [|[k0 v0] d IH]; cbn [od_set].
  - intros _. by apply Forall_singleton.
  - intros [H0 Hd]%Forall_cons. destruct (decide (k = k0)).
    + by apply Forall_cons.
    + apply Forall_cons. split; [done|by apply IH].
Qed.

Lemma describe_keyed (width : Z) (p : plugin) :
  keyed p ->
  exists desc,
    describe width p = Some desc
    /\ NoDup desc.*1
    /\ (forall key, key ∈ desc.*1 <->
          exists chan, chan ∈ channels p /\ mds_keys p !! chan = Some key)
    /\ Forall (fun e => shape e.2 = [width]) desc.
Proof.
  unfold keyed, describe.
  set (spec := {| external := "FILESTORE:"; dtype := "array";
                  shape := [width]; source := "FileStore:" |}).
  set (step := fun (desc : option (odict string spec_desc)) (chan : Z) =>
                 match desc, mds_keys p !! chan with
                 | Some desc, Some key => Some (od_set key spec desc)
                 | _, _ => None
                 end).
  assert (forall chans acc,
            (forall chan, chan ∈ chans -> is_Some (mds_keys p !! chan)) ->
            NoDup acc.*1 -> Forall (fun e => shape e.2 = [width]) acc ->
            exists desc,
              foldl step (Some acc) chans = Some desc
              /\ NoDup desc.*1
              /\ (forall key, key ∈ desc.*1 <->
                    key ∈ acc.*1
                    \/ exists chan, chan ∈ chans
                                    /\ mds_keys p !! chan = Some key)
              /\ Forall (fun e => shape e.2 = [width]) desc) as Hgen.
  { induction chans as [|c chans IH]; intros acc Hk Hnd Hsh.
    - exists acc. split; [done|]. split; [done|]. split; [|done].
      intros key. split; [by left|]. intros [?|(c & Hc & _)]; [done|].
      by apply elem_of_nil in Hc.
    - destruct (Hk c) as [key Hkey]; [by left|].
      cbn [foldl]. unfold step at 2. rewrite Hkey.
      destruct (IH (od_set key spec acc)) as (desc & Hrun & Hnd' & Hin & Hsh').
      + intros chan Hc. apply Hk. by right.
      + by apply od_set_keys_NoDup.
      + by apply (od_set_values (fun s => shape s = [width])).
      + exists desc. split; [done|]. split; [done|]. split; [|done].
        intros key'. rewrite Hin, od_set_keys_elem. split.
        * intros [[->|?]|(chan & Hc & Hm)].
          -- right. exists c. split; [by left|done].
          -- by left.
          -- right. exists chan. split; [by right|done].
        * intros [?|(chan & Hc & Hm)]; [by left; right|].
          apply elem_of_cons in Hc as [->|Hc].
          -- left. left. congruence.
          -- right. by exists chan. }
  intros Hk. destruct (Hgen (channels p) [] Hk) as (desc & Hrun & Hnd & Hin & Hsh).
  - apply NoDup_nil_2.
  - apply Forall_nil_2.
  - exists desc. split; [done|]. split; [done|]. split; [|done].
    intros key. rewrite Hin. split; [|by right].
    intros [Hnil|?]; [|done]. by apply elem_of_nil in Hnil.
Qed.

Lemma stage_frame (e : env) (p : plugin) :
  channels (stage e p).2 = channels p /\ mds_keys (stage e p).2 = mds_keys p.
Proof.
  destruct (Z_lt_ge_dec (total_points p) 1) as [Hlt|Hge].
  - by rewrite stage_unset.
  - by rewrite stage_set by lia.
Qed.

Lemma unstage_frame (e : env) (polls : nat -> poll) (p p' : plugin)
    (o : outcome unit) :
  unstage e polls p = Some (o, p') ->
  channels p' = channels p /\ mds_keys p' = mds_keys p.
Proof.
  unfold unstage.
  destruct (wait_capture _ polls 151 0) as [[o' es]|]; [|done].
  destruct o' as [[]|exc]; [by intros [= <- <-]|].
  destruct exc; try by intros [= <- <-].
  destruct (handler_interrupted e); by intros [= <- <-].
Qed.

Lemma generate_datum_frame (key : string) (timestamp : Z)
    (datum_kwargs : odict string pyval) (p : plugin) :
  let p' := (generate_datum key timestamp datum_kwargs p).2 in
  channels p' = channels p
  /\ forall chan, is_Some (mds_keys p !! chan) -> is_Some (mds_keys p' !! chan).
Proof.
  cbn zeta. unfold generate_datum. rewrite run_bind. cbn [Py.gets].
  rewrite run_bind.
  pose proof (find_channel_state key (channels p) p) as Hst.
  destruct (find_channel key (channels p) p) as [[found|exc] p1];
    cbn [snd] in Hst; subst p1; [|done].
  rewrite run_bind. cbn [Py.gets]. rewrite run_bind.
  destruct (int_of_str (from_7 found.1)) as [c|]; [|done].
  cbn [mret M_ret Py.ret]. rewrite run_bind.
  cbn [Py.modify emit with_trace with_mds_key snd channels mds_keys].
  split; [done|]. intros chan [k Hk].
  destruct (decide (chan = found.2)) as [->|Hne].
  - rewrite lookup_insert_eq. by eexists.
  - rewrite lookup_insert_ne by done. by eexists.
Qed.

Lemma reachable_keyed (p : plugin) : reachable p -> keyed p.
Proof.
  induction 1 as [base names fmt|e p _ IH|e polls p o p' _ IH Hrun
                  |key ts kw p _ IH]; intros chan Hc.
  - cbn [__init__ channels mds_keys] in *. rewrite mds_keys_of_lookup.
    rewrite decide_True by done. by eexists.
  - destruct (stage_frame e p) as [Hch Hm]. rewrite Hch in Hc. rewrite Hm.
    by apply IH.
  - destruct (unstage_frame _ _ _ _ _ Hrun) as [Hch Hm]. rewrite Hch in Hc.
    rewrite Hm. by apply IH.
  - destruct (generate_datum_frame key ts kw p) as [Hch Hm].
    rewrite Hch in Hc. apply Hm. by apply IH.
Qed.

(** X28. [describe] never fails on a missing key: [__init__] gives every
    channel a key and [stage], [unstage] and [generate_datum] keep it that
    way. The description has one entry for each key that a channel has (two
    channels of the same key share one), each of shape [(width,)]. *)
Theorem describe_has_every_channel (width : Z) (p : plugin) :
  reachable p ->
  exists desc,
    describe width p = Some desc
    /\ NoDup desc.*1
    /\ (forall key, key ∈ desc.*1 <->
          exists chan, chan ∈ channels p /\ mds_keys p !! chan = Some key)
    /\ Forall (fun e => shape e.2 = [width]) desc.
Proof.
  intros Hr. by apply describe_keyed, reachable_keyed.
Qed.

(** A plugin constructed below a detector with two channels, staged, and
    asked for a datum of the second channel. *)
Definition used_plugin : plugin :=
  (generate_datum "xs_channel2" 1000 []
     (stage quiet_env
        (__init__ two_channel_plugin ["cam"; "channel1"; "channel2"; "hdf5"]
           (default_mds_key "xs"))).2).2.

Lemma describe_has_every_channel_witness :
  exists desc,
    describe 4096 used_plugin = Some desc
    /\ NoDup desc.*1
    /\ (forall key, key ∈ desc.*1 <->
          exists chan, chan ∈ channels used_plugin
                       /\ mds_keys used_plugin !! chan = Some key)
    /\ Forall (fun e => shape e.2 = [4096]) desc.
Proof.
  apply (describe_has_every_channel 4096 used_plugin).
  apply reach_generate_datum, reach_stage, reach_init.
Defined.

Lemma default_mds_key_inj (cam_name : string) (a b : Z) :
  default_mds_key cam_name a = default_mds_key cam_name b -> a = b.
Proof.
  unfold default_mds_key. intros H%String.app_inj.
  injection H as H. by apply Fmt.str_of_int_inj.
Qed.

(** X29. A newly constructed plugin has the channels 1 to [n], where [n]
    counts the component names of the parent that start with "chan"; with
    the default key format, channel [c] has the key ["<cam>_ch<c>"], and
    [describe] lists these keys in the order of the channels. The four
    settings of the constructor are staged. *)
Theorem init_numbers_the_channels (base : plugin) (component_names : list string)
    (cam_name : string) (width : Z) :
  let p := __init__ base component_names (default_mds_key cam_name) in
  let n := Z.of_nat (length (filter (fun name => String.prefix "chan" name = true)
                                    component_names)) in
  channels p = Builder.range 1 (n + 1)
  /\ (forall c, mds_keys p !! c
                = if decide (1 <= c <= n) then Some (default_mds_key cam_name c)
                  else None)
  /\ (exists desc,
        describe width p = Some desc
        /\ desc.*1 = default_mds_key cam_name <$> Builder.range 1 (n + 1))
  /\ od_get blocking_callbacks (stage_sigs p) = Some (PInt 1)
  /\ od_get enable (stage_sigs p) = Some (PInt 1)
  /\ od_get compression (stage_sigs p) = Some (PStr "zlib")
  /\ od_get file_template (stage_sigs p) = Some (PStr "%s%s_%6.6d.h5").
Proof.
  intros p n. subst p.
  assert (channels_of component_names = Builder.range 1 (n + 1)) as Hch by done.
  split; [done|]. split; [|split].
  - intros c. cbn [__init__ mds_keys]. rewrite mds_keys_of_lookup, Hch.
    unfold Builder.range.
    destruct (decide (1 <= c <= n)) as [Hc|Hc].
    + rewrite decide_True; [done|]. apply elem_of_seqZ. lia.
    + rewrite decide_False; [done|]. rewrite elem_of_seqZ. lia.
  - unfold describe. cbn [__init__ channels mds_keys]. rewrite Hch.
    set (spec := {| external := "FILESTORE:"; dtype := "array";
                    shape := [width]; source := "FileStore:" |}).
    set (f := default_mds_key cam_name).
    assert (forall chans acc,
              (forall c, c ∈ chans -> c ∈ Builder.range 1 (n + 1)) ->
              NoDup (acc.*1 ++ (f <$> chans)) ->
              exists desc,
                foldl (fun desc chan =>
                         match desc,
                               mds_keys_of f (Builder.range 1 (n + 1)) !! chan
                         with
                         | Some desc, Some key => Some (od_set key spec desc)
                         | _, _ => None
                         end) (Some acc) chans = Some desc
                /\ desc.*1 = acc.*1 ++ (f <$> chans)) as Hgen.
    { induction chans as [|c chans IH]; intros acc Hsub Hnd.
      - exists acc. by rewrite app_nil_r.
      - cbn [foldl]. rewrite mds_keys_of_lookup.
        rewrite decide_True by (apply Hsub; by left).
        cbn [fmap list_fmap] in Hnd.
        assert (f c ∉ acc.*1) as Hnotin.
        { apply NoDup_app in Hnd as (_ & Hdisj & _).
          intros Hin. apply (Hdisj _ Hin). by left. }
        rewrite Builder.od_set_absent by done.
        destruct (IH (acc ++ [(f c, spec)])) as (desc & Hrun & Hkeys).
        + intros c' Hc'. apply Hsub. by right.
        + rewrite fmap_app. cbn. by rewrite <- (assoc_L (++)).
        + exists desc. split; [done|]. rewrite Hkeys, fmap_app. cbn.
          by rewrite <- (assoc_L (++)). }
    destruct (Hgen (Builder.range 1 (n + 1)) []) as (desc & Hrun & Hkeys);
      [done| |by exists desc].
    cbn [fmap list_fmap app].
    apply NoDup_fmap_2_strong; [|apply NoDup_seqZ].
    intros a b _ _. apply default_mds_key_inj.
  - cbn [__init__ stage_sigs]. by od_simpl.
Qed.

End FileStore.
